(** * Fake-Detector: the verify-product request handler

    A shallow embedding of [src/app/api/verify-product/route.ts] and the
    properties of its rate limiter, its input handling, its three-strategy
    alert search, its deduplication, its confidence formula and its points
    bookkeeping.  The admin access check, the contact form and the
    helpers of the admin statistics follow in the same style.

    Conventions of the embedding.
    - JavaScript numbers are modelled as [Z]; every number the handler
      computes is a small integer, on which the two agree.  Where a
      difference of time values and its quotients are computed (the time
      label of the admin statistics), the rounding of doubles is
      modelled.
    - JavaScript strings are modelled as [string], a sequence of 8-bit
      code units (the Latin-1 range).  [toLowerCase] and [toUpperCase]
      map the letters of that range; whitespace is the part of the
      JavaScript whitespace class that fits in 8 bits.
    - The in-memory [Map] is a [gmap]; database tables are a [gmap] keyed
      by id (users) or lists in insertion order.  The alert table comes
      with the case-insensitive text comparison of its database, which is
      left open.
    - Everything the handler obtains from outside (clock, request body,
      session, OCR service, ensemble service, database failures, generated
      ids) is read from an environment record [Env]. *)

From Stdlib Require Import ZArith Ascii String List Bool Lia.
From stdpp Require Import base option list sorting gmap strings pretty.

Local Open Scope string_scope.
Local Open Scope list_scope.
Local Open Scope Z_scope.

(* stdpp blocks the unfolding of string concatenation; the proofs below
   compute with it. *)
#[local] Arguments String.append !_ _ / : simpl nomatch.

(** ** JavaScript string primitives *)

Module Js.

(** The whitespace class of [\s] and of [String.prototype.trim],
    restricted to 8-bit code units: TAB, LF, VT, FF, CR, SPACE, NBSP. *)
Definition isWhitespace (c : ascii) : bool :=
  let n := nat_of_ascii c in
  ((9 <=? n)%nat && (n <=? 13)%nat) || (n =? 32)%nat || (n =? 160)%nat.

Definition isUpper (c : ascii) : bool :=
  let n := nat_of_ascii c in (65 <=? n)%nat && (n <=? 90)%nat.

Definition isLower (c : ascii) : bool :=
  let n := nat_of_ascii c in (97 <=? n)%nat && (n <=? 122)%nat.

Definition isDigit (c : ascii) : bool :=
  let n := nat_of_ascii c in (48 <=? n)%nat && (n <=? 57)%nat.

(** The capital letters of the Latin-1 range: 192-214 and 216-222 (215 is
    the multiplication sign). *)
Definition isUpperLatin1 (c : ascii) : bool :=
  let n := nat_of_ascii c in
  ((192 <=? n)%nat && (n <=? 214)%nat) || ((216 <=? n)%nat && (n <=? 222)%nat).

(** The small letters of the Latin-1 range that have a capital in it:
    224-246 and 248-254 (247 is the division sign). *)
Definition isLowerLatin1 (c : ascii) : bool :=
  let n := nat_of_ascii c in
  ((224 <=? n)%nat && (n <=? 246)%nat) || ((248 <=? n)%nat && (n <=? 254)%nat).

(** [toLowerCase] on one code unit: the capitals A-Z and those of the
    Latin-1 range move up by 32; no other code unit below 256 changes. *)
Definition lowerChar (c : ascii) : ascii :=
  if isUpper c || isUpperLatin1 c then ascii_of_nat (nat_of_ascii c + 32) else c.

(** [toUpperCase] on one code unit: the small letters a-z and those of the
    Latin-1 range move down by 32.  Three code units are left alone whose
    upper case is not one 8-bit code unit (181, 223 and 255); the handler
    upper-cases batch numbers only, which the schema keeps free of them. *)
Definition upperChar (c : ascii) : ascii :=
  if isLower c || isLowerLatin1 c then ascii_of_nat (nat_of_ascii c - 32) else c.

Fixpoint mapChars (f : ascii -> ascii) (s : string) : string :=
  match s with
  | EmptyString => EmptyString
  | String c r => String (f c) (mapChars f r)
  end.

Definition toLowerCase : string -> string := mapChars lowerChar.
Definition toUpperCase : string -> string := mapChars upperChar.

Fixpoint allChars (p : ascii -> bool) (s : string) : bool :=
  match s with
  | EmptyString => true
  | String c r => p c && allChars p r
  end.

Fixpoint filterChars (p : ascii -> bool) (s : string) : string :=
  match s with
  | EmptyString => EmptyString
  | String c r => if p c then String c (filterChars p r) else filterChars p r
  end.

Definition isEmpty (s : string) : bool :=
  match s with EmptyString => true | _ => false end.

Fixpoint trimStart (s : string) : string :=
  match s with
  | EmptyString => EmptyString
  | String c r => if isWhitespace c then trimStart r else s
  end.

Fixpoint trimEnd (s : string) : string :=
  match s with
  | EmptyString => EmptyString
  | String c r =>
      let r' := trimEnd r in
      if isWhitespace c && isEmpty r' then EmptyString else String c r'
  end.

Definition trim (s : string) : string := trimEnd (trimStart s).

(** [s.replace(/\s+/g, ' ')]: every maximal run of whitespace becomes
    one space.  [inRun] records that the previous character belonged to
    a run that has already been replaced. *)
Fixpoint collapseFrom (inRun : bool) (s : string) : string :=
  match s with
  | EmptyString => EmptyString
  | String c r =>
      if isWhitespace c
      then (if inRun then collapseFrom true r
            else String " " (collapseFrom true r))
      else String c (collapseFrom false r)
  end.

Definition collapseWhitespace : string -> string := collapseFrom false.

(** [s.substring(0, n)] *)
Definition substring0 (n : nat) (s : string) : string := substring 0 n s.

(** [s.split(sep)] for a one-character separator; never empty. *)
Fixpoint split (sep : ascii) (s : string) : list string :=
  match s with
  | EmptyString => [EmptyString]
  | String c r =>
      if Ascii.eqb c sep then EmptyString :: split sep r
      else match split sep r with
           | h :: t => String c h :: t
           | [] => [String c EmptyString]
           end
  end.

(** [hay.includes(needle)] *)
Fixpoint includes (needle hay : string) : bool :=
  String.prefix needle hay ||
  match hay with
  | EmptyString => false
  | String _ r => includes needle r
  end.

(** [parts.join(sep)] *)
Fixpoint join (sep : string) (parts : list string) : string :=
  match parts with
  | [] => EmptyString
  | [p] => p
  | p :: rest => p +:+ sep +:+ join sep rest
  end.

(** Truthiness of an optional string: [undefined], [null] and the empty
    string are falsy. *)
Definition truthy (o : option string) : bool :=
  match o with
  | Some s => negb (isEmpty s)
  | None => false
  end.

(** [a || b] on optional strings. *)
Definition orElse (a b : option string) : option string :=
  if truthy a then a else b.

(** [a || 'literal'] *)
Definition orStr (a : option string) (d : string) : string :=
  match a with
  | Some s => if isEmpty s then d else s
  | None => d
  end.

Definition nl : string := String (ascii_of_nat 10) EmptyString.

End Js.

(** ** The rate limiter *)

Record RateEntry := mkRateEntry { count : Z; resetTime : Z }.

Definition RATE_LIMIT_WINDOW : Z := 60 * 1000.
Definition RATE_LIMIT_MAX_REQUESTS : Z := 10.

(** [checkRateLimit(ip)]: the clock value [now] is [Date.now()], the map
    is [rateLimitStore]; the result is the returned boolean and the map
    after the call. *)
Definition checkRateLimit (now : Z) (ip : string)
    (store : gmap string RateEntry) : bool * gmap string RateEntry :=
  match store !! ip with
  | None =>
      (true, <[ip := mkRateEntry 1 (now + RATE_LIMIT_WINDOW)]> store)
  | Some userLimit =>
      if now >? resetTime userLimit
      then (true, <[ip := mkRateEntry 1 (now + RATE_LIMIT_WINDOW)]> store)
      else if count userLimit >=? RATE_LIMIT_MAX_REQUESTS
      then (false, store)
      else (true, <[ip := mkRateEntry (count userLimit + 1) (resetTime userLimit)]> store)
  end.

(** ** Request bodies, validation and sanitisation *)

Module Body.
(** A request body that has the types the schema asks for. *)
Record t := mk {
  productName : string;
  productDescription : string;
  userBatchNumber : option string;
  images : option (list string)
}.
End Body.

Definition strlen (s : string) : Z := Z.of_nat (String.length s).

(** The character class of the two free-text patterns and of the
    sanitiser, by code: less-than, greater-than, double quote, single
    quote, semicolon, ampersand. *)
Definition isMarkupChar (c : ascii) : bool :=
  let n := nat_of_ascii c in
  (n =? 60)%nat || (n =? 62)%nat || (n =? 34)%nat ||
  (n =? 39)%nat || (n =? 59)%nat || (n =? 38)%nat.

(** The character class of the batch-number pattern: A-Z, 0-9, hyphen,
    underscore, whitespace. *)
Definition isBatchChar (c : ascii) : bool :=
  let n := nat_of_ascii c in
  Js.isUpper c || Js.isDigit c || (n =? 45)%nat || (n =? 95)%nat ||
  Js.isWhitespace c.

Definition issueIf (failed : bool) (message : string) : list string :=
  if failed then [message] else [].

(** [verifyProductSchema.safeParse]: the messages of the issues found, in
    the order in which the schema lists its fields and checks. *)
Definition verifyProductSchema (b : Body.t) : list string :=
  issueIf (strlen (Body.productName b) <? 2)
          "Product name must be at least 2 characters"
  ++ issueIf (strlen (Body.productName b) >? 200)
          "Product name must not exceed 200 characters"
  ++ issueIf (negb (Js.allChars (fun c => negb (isMarkupChar c)) (Body.productName b)))
          "Product name contains invalid characters"
  ++ issueIf (strlen (Body.productDescription b) <? 5)
          "Description must be at least 5 characters"
  ++ issueIf (strlen (Body.productDescription b) >? 1000)
          "Description must not exceed 1000 characters"
  ++ issueIf (negb (Js.allChars (fun c => negb (isMarkupChar c)) (Body.productDescription b)))
          "Description contains invalid characters"
  ++ match Body.userBatchNumber b with
     | None => []
     | Some bn =>
         issueIf (strlen bn >? 50) "Batch number must not exceed 50 characters"
         ++ issueIf (negb (Js.allChars isBatchChar bn))
                    "Batch number contains invalid characters"
     end
  ++ match Body.images b with
     | None => []
     | Some imgs => issueIf (Z.of_nat (length imgs) >? 3) "Maximum 3 images allowed"
     end.

Definition sanitizeInput (input : string) : string :=
  Js.substring0 1000
    (Js.collapseWhitespace
       (Js.filterChars (fun c => negb (isMarkupChar c)) (Js.trim input))).

(** The three assignments that follow a successful [safeParse]. *)
Definition sanitizeBody (b : Body.t) : Body.t :=
  Body.mk (sanitizeInput (Body.productName b))
          (sanitizeInput (Body.productDescription b))
          (if Js.truthy (Body.userBatchNumber b)
           then option_map sanitizeInput (Body.userBatchNumber b)
           else Body.userBatchNumber b)
          (Body.images b).

(** ** The alert table and its queries *)

Module Alert.
Record t := mk {
  id : string;
  title : string;
  cleanContent : option string;
  url : string;
  batchNumbers : list string;
  manufacturer : option string;
  alertType : string;
  severity : string;
  scrapedAt : Z;
  active : bool
}.
End Alert.

(** The [where] arguments the handler passes to [nafdacAlert.findMany];
    each of them also asks for [active: true]. *)
Inductive AlertWhere :=
| BatchHas (batch : string)
| TitleContains (needle : string)
| ContentContains (needle : option string).

(** The alert table as the database holds it: its rows, and the
    comparison that the database applies for
    [{ contains: needle, mode: 'insensitive' }] to a text column (the
    needle first, the value of the column second).  That comparison is
    the database's own, under the collation of the column; the repository
    does not define it, and it is left open here: everything below holds
    whatever it is. *)
Module AlertTable.
Record t := mk {
  rows : list Alert.t;
  insensitiveContains : string -> string -> bool
}.
End AlertTable.

(** Whether a row satisfies [{ active: true, ...where }] in its table. *)
Definition matchesWhere (table : AlertTable.t) (w : AlertWhere) (a : Alert.t) : bool :=
  Alert.active a &&
  match w with
  | BatchHas batch => existsb (String.eqb batch) (Alert.batchNumbers a)
  | TitleContains needle =>
      AlertTable.insensitiveContains table needle (Alert.title a)
  | ContentContains (Some needle) =>
      match Alert.cleanContent a with
      | Some content => AlertTable.insensitiveContains table needle content
      | None => false
      end
  | ContentContains None => true
  end.

(** [orderBy: { scrapedAt: 'desc' }], as an insertion sort.  The database
    leaves open the order of alerts scraped at the same instant; here
    they keep the order of the table. *)
Fixpoint insertDesc (a : Alert.t) (l : list Alert.t) : list Alert.t :=
  match l with
  | [] => [a]
  | b :: r =>
      if Alert.scrapedAt b <=? Alert.scrapedAt a then a :: l
      else b :: insertDesc a r
  end.

Definition orderByScrapedAtDesc (l : list Alert.t) : list Alert.t :=
  foldr insertDesc [] l.

(** [findMany({ where, orderBy: { scrapedAt: 'desc' }, take: 5 })] *)
Definition findMany (w : AlertWhere) (table : AlertTable.t) : list Alert.t :=
  take 5 (orderByScrapedAtDesc
            (List.filter (matchesWhere table w) (AlertTable.rows table))).

(** Most recently scraped first. *)
Definition newerFirst (a b : Alert.t) : Prop :=
  Alert.scrapedAt b <= Alert.scrapedAt a.

(** ** Combined search text *)

Definition searchTextOf (productName productDescription : string)
    (userBatchNumber : option string) (ocrText : string) : string :=
  Js.trim (Js.toLowerCase
    (Js.nl +:+ "      "
     +:+ Js.orStr (Some productName) "" +:+ " "
     +:+ Js.orStr (Some productDescription) "" +:+ " "
     +:+ Js.orStr userBatchNumber "" +:+ " "
     +:+ ocrText
     +:+ Js.nl +:+ "    ")).

(** ** Deduplication *)

(** [self.findIndex(p)]: the first index whose element satisfies [p],
    or -1. *)
Fixpoint findIndexFrom {A} (p : A -> bool) (i : Z) (l : list A) : Z :=
  match l with
  | [] => -1
  | x :: r => if p x then i else findIndexFrom p (i + 1) r
  end.

Definition findIndex {A} (p : A -> bool) (self : list A) : Z :=
  findIndexFrom p 0 self.

(** [self.filter((x, index, self) => p x index self)] *)
Fixpoint filterFrom {A} (p : A -> Z -> list A -> bool) (self : list A)
    (i : Z) (l : list A) : list A :=
  match l with
  | [] => []
  | x :: r =>
      if p x i self then x :: filterFrom p self (i + 1) r
      else filterFrom p self (i + 1) r
  end.

Definition filterWithIndex {A} (p : A -> Z -> list A -> bool)
    (self : list A) : list A :=
  filterFrom p self 0 self.

(** The callback [(alert, index, self) =>
       index === self.findIndex(a => a.id === alert.id)] *)
Definition keepIndex (alert : Alert.t) (index : Z) (self : list Alert.t) : bool :=
  index =? findIndex (fun a => String.eqb (Alert.id a) (Alert.id alert)) self.

(** [allMatches.filter(keepIndex)] *)
Definition dedupById (allMatches : list Alert.t) : list Alert.t :=
  filterWithIndex keepIndex allMatches.

(** [... .slice(0, 10)] *)
Definition uniqueAlerts (allMatches : list Alert.t) : list Alert.t :=
  take 10 (dedupById allMatches).

(** The reading of the deduplication that the handler is meant to
    implement: walk the list once and keep an alert unless one of the
    alerts already passed ([seen]) carries its id. *)
Fixpoint keepFirst (seen l : list Alert.t) : list Alert.t :=
  match l with
  | [] => []
  | a :: r =>
      if existsb (fun a' => String.eqb (Alert.id a') (Alert.id a)) seen
      then keepFirst (seen ++ [a]) r
      else a :: keepFirst (seen ++ [a]) r
  end.

Definition hasId (x : string) (a : Alert.t) : bool := String.eqb (Alert.id a) x.

(** ** Decision logic *)

Module Result.
Record t := mk {
  isCounterfeit : bool;
  summary : string;
  sourceUrl : string;
  source : string;
  batchNumber : option string;
  alertType : string;
  confidence : Z;
  detectedAlertDetails : option string;
  searchTime : Z;
  alertsFound : Z
}.

Definition setConfidence (c : Z) (r : t) : t :=
  mk (isCounterfeit r) (summary r) (sourceUrl r) (source r) (batchNumber r)
     (alertType r) c (detectedAlertDetails r) (searchTime r) (alertsFound r).
End Result.

Definition alertsUrl : string :=
  "https://nafdac.gov.ng/category/recalls-and-alerts/".

(** [Math.min(95, 70 + (matchingAlerts.length * 5))] *)
Definition dynamicConfidence (matchingAlerts : list Alert.t) : Z :=
  Z.min 95 (70 + (Z.of_nat (length matchingAlerts) * 5)).

(** The [if (matchingAlerts.length > 0) ... else ...] block and the
    [result] object built after it.  The non-empty case is the one in
    which [matchingAlerts[0]] exists. *)
Definition decisionLogic (matchingAlerts : list Alert.t) (searchTime : Z)
    : Result.t :=
  match matchingAlerts with
  | first :: _ =>
      let detectedAlertDetails :=
        Js.join (Js.nl +:+ Js.nl)
          (map (fun alert => Js.orStr (Alert.cleanContent alert) (Alert.title alert))
               matchingAlerts) in
      let joined := Js.join ", " (Alert.batchNumbers first) in
      Result.mk true
        ("🔴 FAKE/RECALL/EXPIRED PRODUCT DETECTED: Alerts found in NAFDAC database for this product. Kindly do further research before consuming."
         +:+ Js.nl +:+ Js.nl +:+ "### Reason:" +:+ Js.nl +:+ Js.nl
         +:+ detectedAlertDetails)
        (Alert.url first)
        "NAFDAC Database Check"
        (if Js.isEmpty joined then None else Some joined)
        (Alert.alertType first)
        (dynamicConfidence matchingAlerts)
        (Some detectedAlertDetails)
        searchTime
        (Z.of_nat (length matchingAlerts))
  | [] =>
      Result.mk false
        "✅ SAFE PRODUCT: No alerts found in NAFDAC database for this product. Kindly do further research before consuming."
        alertsUrl
        "NAFDAC Database Check"
        None
        "No Alert"
        100
        None
        searchTime
        0
  end.

(** ** Responses *)

Inductive Payload :=
| ErrorPayload (error : string) (message : option string)
  (** The object literal of the [confidence === 0] branch: every field
      but these three is a constant. *)
| SafePayload (resultId : string) (newBalance : Z) (timestamp : string)
  (** [{ resultId, ...result, newBalance, timestamp, verificationMethod }] *)
| ResultPayload (resultId : string) (result : Result.t) (newBalance : Z)
    (timestamp : string).

Record Response := mkResponse {
  status : Z;
  securityHeaders : bool;
  payload : Payload
}.

(** [NextResponse.json(body, { status })] *)
Definition json (st : Z) (p : Payload) : Response := mkResponse st false p.

Definition addSecurityHeaders (r : Response) : Response :=
  mkResponse (status r) true (payload r).

Definition payloadIsCounterfeit (p : Payload) : option bool :=
  match p with
  | ErrorPayload _ _ => None
  | SafePayload _ _ _ => Some false
  | ResultPayload _ r _ _ => Some (Result.isCounterfeit r)
  end.

Definition payloadConfidence (p : Payload) : option Z :=
  match p with
  | ErrorPayload _ _ => None
  | SafePayload _ _ _ => Some 0
  | ResultPayload _ r _ _ => Some (Result.confidence r)
  end.

Definition payloadNewBalance (p : Payload) : option Z :=
  match p with
  | ErrorPayload _ _ => None
  | SafePayload _ b _ => Some b
  | ResultPayload _ _ b _ => Some b
  end.

(** A verification response is one of the two success objects. *)
Definition isVerification (r : Response) : bool :=
  match payload r with
  | ErrorPayload _ _ => false
  | _ => true
  end.

(** ** Database rows, sessions, the world *)

Module User.
Record t := mk {
  id : string;
  email : option string;
  name : string;
  pointsBalance : Z
}.

Definition decrement (n : Z) (u : t) : t :=
  mk (id u) (email u) (name u) (pointsBalance u - n).
End User.

Module Session.
Record t := mk {
  userId : string;
  userEmail : option string;
  userName : option string
}.
End Session.

Module ProductCheck.
Record t := mk {
  id : string;
  userId : string;
  productName : string;
  productDescription : string;
  images : list string;
  pointsUsed : Z
}.
End ProductCheck.

Module CheckResult.
Record t := mk {
  userId : string;
  productCheckId : string;
  isCounterfeit : bool;
  summary : string;
  sourceUrl : string;
  source : string;
  batchNumber : option string;
  alertType : string;
  confidence : Z
}.
End CheckResult.

(** The calls the handler makes to the outside, as they are issued. *)
Inductive Call :=
| CallAuth
| CallUserFindUnique (id : string)
| CallUserCreate (id : string)
| CallOcr (images : list string)
| CallFindMany (w : AlertWhere)
| CallEnsemble (productName productDescription : string) (images : list string)
| CallUserUpdate (id : string)
| CallProductCheckCreate
| CallCheckResultCreate.

Module Db.
Record t := mk {
  users : gmap string User.t;
  nafdacAlerts : AlertTable.t;
  productChecks : list ProductCheck.t;
  checkResults : list CheckResult.t
}.
End Db.

Record World := mkWorld {
  rateLimitStore : gmap string RateEntry;
  db : Db.t;
  calls : list Call
}.

(** What an awaited outside call does: it resolves or it rejects. *)
Inductive Outcome (A : Type) :=
| Resolves (a : A)
| Rejects (message : string).
Arguments Resolves {A} a.
Arguments Rejects {A} message.

(** What [request.json()] yields: a rejection, a value the schema refuses
    for its shape (with the first issue's message, if it has one), or a
    body of the right shape. *)
Inductive JsonBody :=
| JsonRejects (message : string)
| JsonMisshapen (firstMessage : option string)
| JsonShaped (b : Body.t).

Record Request := mkRequest {
  xForwardedFor : option string;
  xRealIp : option string;
  requestIp : option string;
  requestJson : JsonBody
}.

Record EnsembleResult := mkEnsemble {
  ensembleConfidence : Z;
  ensembleIsCounterfeit : bool
}.

(** Everything else the handler reads from outside while it serves one
    request. *)
Record Env := mkEnv {
  now : Z;                                  (* [Date.now()] in the limiter *)
  authOutcome : Outcome (option Session.t); (* [auth()] raced with the timer *)
  dbRejects : Call -> bool;                 (* database calls that reject *)
  ocrOutcome : Outcome string;              (* the OCR request, to its text *)
  ensembleOutcome : Outcome EnsembleResult;
  elapsed : Z;                              (* [Date.now() - searchStart] *)
  freshId : string;                         (* id given to the new scan *)
  isoNow : string                           (* [new Date().toISOString()] *)
}.

(** ** A monad for the handler

    A computation runs on a world and ends in one of three ways: with a
    value, with a [return] of the whole handler, or with a thrown error. *)

Inductive Res (A : Type) :=
| Val (a : A)
| Ret (r : Response)
| Thrown (message : string).
Arguments Val {A} a.
Arguments Ret {A} r.
Arguments Thrown {A} message.

Definition M (A : Type) : Type := World -> World * Res A.

Definition pure {A} (a : A) : M A := fun w => (w, Val a).

Definition bind {A B} (m : M A) (k : A -> M B) : M B :=
  fun w =>
    match m w with
    | (w1, Val a) => k a w1
    | (w1, Ret r) => (w1, Ret r)
    | (w1, Thrown e) => (w1, Thrown e)
    end.

Definition returnResponse {A} (r : Response) : M A := fun w => (w, Ret r).

Definition throw {A} (message : string) : M A := fun w => (w, Thrown message).

(** [try { m } catch (e) { handler e }] *)
Definition tryCatch {A} (m : M A) (handler : string -> M A) : M A :=
  fun w =>
    match m w with
    | (w1, Thrown e) => handler e w1
    | other => other
    end.

Declare Scope handler_scope.
Delimit Scope handler_scope with handler.
Notation "x <- m ;; k" := (bind m (fun x => k))
  (at level 100, m at next level, right associativity) : handler_scope.
Notation "m ;;; k" := (bind m (fun _ => k))
  (at level 100, right associativity) : handler_scope.

Definition logCall (c : Call) : M unit :=
  fun w => (mkWorld (rateLimitStore w) (db w) (calls w ++ [c]), Val tt).

Definition getDb : M Db.t := fun w => (w, Val (db w)).

Definition putDb (d : Db.t) : M unit :=
  fun w => (mkWorld (rateLimitStore w) d (calls w), Val tt).

(** [await outcome] *)
Definition await {A} (o : Outcome A) : M A :=
  match o with
  | Resolves a => pure a
  | Rejects e => throw e
  end.

(** ** Database operations *)

Module Prisma.
Definition setUsers (us : gmap string User.t) (d : Db.t) : Db.t :=
  Db.mk us (Db.nafdacAlerts d) (Db.productChecks d) (Db.checkResults d).

(** [user.findUnique({ where: { id } })] *)
Definition userFindUnique (id : string) (d : Db.t) : Outcome (option User.t * Db.t) :=
  Resolves (Db.users d !! id, d).

(** [user.create({ data })]; the id is the primary key. *)
Definition userCreate (u : User.t) (d : Db.t) : Outcome (User.t * Db.t) :=
  match Db.users d !! User.id u with
  | Some _ => Rejects "Unique constraint failed"
  | None => Resolves (u, setUsers (<[User.id u := u]> (Db.users d)) d)
  end.

(** [user.update({ where: { id }, data: { pointsBalance: { decrement: n } } })] *)
Definition userDecrement (id : string) (n : Z) (d : Db.t) : Outcome (unit * Db.t) :=
  match Db.users d !! id with
  | None => Rejects "Record to update not found"
  | Some u => Resolves (tt, setUsers (<[id := User.decrement n u]> (Db.users d)) d)
  end.

Definition alertFindMany (w : AlertWhere) (d : Db.t) : Outcome (list Alert.t * Db.t) :=
  Resolves (findMany w (Db.nafdacAlerts d), d).

Definition productCheckCreate (row : ProductCheck.t) (d : Db.t)
    : Outcome (ProductCheck.t * Db.t) :=
  Resolves (row, Db.mk (Db.users d) (Db.nafdacAlerts d)
                       (Db.productChecks d ++ [row]) (Db.checkResults d)).

Definition checkResultCreate (row : CheckResult.t) (d : Db.t)
    : Outcome (unit * Db.t) :=
  Resolves (tt, Db.mk (Db.users d) (Db.nafdacAlerts d)
                      (Db.productChecks d) (Db.checkResults d ++ [row])).
End Prisma.

Section Handler.

Variable env : Env.
Variable request : Request.

Local Open Scope handler_scope.

(** One awaited database call: it is issued, then it rejects if the
    environment says so or if the operation itself does. *)
Definition dbCall {A} (c : Call) (op : Db.t -> Outcome (A * Db.t)) : M A :=
  logCall c ;;;
  if dbRejects env c then throw "database error"
  else d <- getDb ;;
       match op d with
       | Resolves (a, d') => putDb d' ;;; pure a
       | Rejects e => throw e
       end.

Definition clientIP : string :=
  Js.orStr (Js.orElse (Js.orElse (xForwardedFor request) (xRealIp request))
                      (requestIp request))
           "unknown".

(** STEP 1: rate limiting. *)
Definition step1RateLimiting : M unit :=
  fun w =>
    let '(isAllowed, store') := checkRateLimit (now env) clientIP (rateLimitStore w) in
    let w1 := mkWorld store' (db w) (calls w) in
    if isAllowed then (w1, Val tt)
    else (w1, Ret (addSecurityHeaders
                     (json 429 (ErrorPayload "Too many requests"
                        (Some "Please wait a moment before trying again.")))))%Z.

(** STEP 2: request validation and sanitisation. *)
Definition step2Validation : M Body.t :=
  tryCatch
    (match requestJson request with
     | JsonRejects e => throw e
     | JsonMisshapen firstMessage =>
         returnResponse (addSecurityHeaders
           (json 400 (ErrorPayload "Invalid input"
              (Some (Js.orStr firstMessage "Invalid request format")))))
     | JsonShaped requestBody =>
         match verifyProductSchema requestBody with
         | [] => pure (sanitizeBody requestBody)
         | issue :: _ =>
             returnResponse (addSecurityHeaders
               (json 400 (ErrorPayload "Invalid input"
                  (Some (Js.orStr (Some issue) "Invalid request format")))))
         end
     end)
    (fun _ =>
       returnResponse (addSecurityHeaders
         (json 400 (ErrorPayload "Invalid request format"
            (Some "Request body must be valid JSON"))))).

(** STEP 3: authentication. *)
Definition step3Authentication : M Session.t :=
  logCall CallAuth ;;;
  session <- await (authOutcome env) ;;
  match session with
  | None =>
      returnResponse (addSecurityHeaders
        (json 401 (ErrorPayload "Authentication required" None)))
  | Some s => pure s
  end.

(** STEP 4: user validation. *)
Definition step4UserValidation (session : Session.t) : M User.t :=
  tryCatch
    (found <- dbCall (CallUserFindUnique (Session.userId session))
                     (Prisma.userFindUnique (Session.userId session)) ;;
     user <- match found with
             | None =>
                 if Js.truthy (Session.userEmail session)
                 then created <- dbCall (CallUserCreate (Session.userId session))
                                   (Prisma.userCreate
                                      (User.mk (Session.userId session)
                                               (Session.userEmail session)
                                               (Js.orStr (Session.userName session) "Unknown")
                                               5)) ;;
                      pure (Some created)
                 else pure None
             | Some u => pure (Some u)
             end ;;
     match user with
     | Some u =>
         if User.pointsBalance u <? 1
         then returnResponse (addSecurityHeaders
                (json 400 (ErrorPayload "Insufficient points"
                   (Some "You need at least 1 point for verification. Daily points will be available tomorrow."))))
         else pure u
     | None =>
         returnResponse (addSecurityHeaders
           (json 400 (ErrorPayload "Insufficient points"
              (Some "You need at least 1 point for verification. Daily points will be available tomorrow."))))
     end)
    (fun _ =>
       returnResponse (addSecurityHeaders
         (json 503 (ErrorPayload "Service temporarily unavailable"
            (Some "Please try again later."))))).

(** [if (!productName || !productDescription) return ...] *)
Definition requireProductInformation (b : Body.t) : M unit :=
  if Js.isEmpty (Body.productName b) || Js.isEmpty (Body.productDescription b)
  then returnResponse
         (json 400 (ErrorPayload
            "Missing product information - name and description required" None))
  else pure tt.

(** OCR text of the uploaded images; a failure leaves it empty. *)
Definition extractOcrText (b : Body.t) : M string :=
  match Body.images b with
  | Some (img :: imgs) =>
      tryCatch
        (logCall (CallOcr (img :: imgs)) ;;; await (ocrOutcome env))
        (fun _ => pure "")
  | _ => pure ""
  end.

Definition queryAlerts (w : AlertWhere) : M (list Alert.t) :=
  dbCall (CallFindMany w) (Prisma.alertFindMany w).

(** Strategy 1: direct batch number match. *)
Definition strategy1 (b : Body.t) : M (list Alert.t) :=
  if Js.truthy (Body.userBatchNumber b)
  then queryAlerts (BatchHas (Js.toUpperCase (Js.orStr (Body.userBatchNumber b) "")))
  else pure [].

(** Strategy 2: product name / title match. *)
Definition strategy2 (b : Body.t) : M (list Alert.t) :=
  if negb (Js.isEmpty (Body.productName b)) && (strlen (Body.productName b) >? 3)
  then queryAlerts (TitleContains (Js.toLowerCase (Body.productName b)))
  else pure [].

(** Strategy 3: broad content search. *)
Definition strategy3 (searchText : string) : M (list Alert.t) :=
  if negb (Js.isEmpty searchText) && (strlen searchText >? 5)
  then queryAlerts (ContentContains
                      (option_map Js.toLowerCase
                         (Js.split " " searchText !! 0%nat)))
  else pure [].

(** The three strategies in sequence, the concatenation of what they
    found, and its deduplication. *)
Definition allMatchesOf (b : Body.t) (ocrText : string) : M (list Alert.t) :=
  let searchText :=
    searchTextOf (Body.productName b) (Body.productDescription b)
                 (Body.userBatchNumber b) ocrText in
  batchMatches <- strategy1 b ;;
  productMatches <- strategy2 b ;;
  contentMatches <- strategy3 searchText ;;
  pure (batchMatches ++ productMatches ++ contentMatches).

(** STAGE 3: enhanced validation for edge cases. *)
Definition stage3EnsembleValidation (b : Body.t) (result : Result.t) : M Result.t :=
  if (Result.confidence result >? 10) && (Result.confidence result <? 70)
  then
    logCall (CallEnsemble (Body.productName b) (Body.productDescription b)
                          (default [] (Body.images b))) ;;;
    ensembleResult <- await (ensembleOutcome env) ;;
    if (ensembleConfidence ensembleResult >? 75)
       && negb (ensembleIsCounterfeit ensembleResult)
    then (if Result.confidence result <? 40
          then pure (Result.setConfidence 0 result)
          else pure result)
    else pure result
  else pure result.

(** The point deduction, the two saved rows and the response. *)
Definition saveAndRespond (session : Session.t) (user : User.t) (b : Body.t)
    (result : Result.t) : M Response :=
  dbCall (CallUserUpdate (Session.userId session))
         (Prisma.userDecrement (Session.userId session) 1) ;;;
  savedResult <- dbCall CallProductCheckCreate
                   (Prisma.productCheckCreate
                      (ProductCheck.mk (freshId env) (Session.userId session)
                         (Body.productName b) (Body.productDescription b)
                         (default [] (Body.images b)) 1)) ;;
  if Result.confidence result =? 0
  then
    dbCall CallCheckResultCreate
           (Prisma.checkResultCreate
              (CheckResult.mk (Session.userId session) (ProductCheck.id savedResult)
                 false
                 "✅ SAFE PRODUCT: No counterfeit alerts found in NAFDAC database for this product."
                 alertsUrl "NAFDAC Database Check" None "No Alert" 0)) ;;;
    returnResponse (addSecurityHeaders
      (json 200 (SafePayload (ProductCheck.id savedResult)
                   (User.pointsBalance user - 1) (isoNow env))))
  else
    dbCall CallCheckResultCreate
           (Prisma.checkResultCreate
              (CheckResult.mk (Session.userId session) (ProductCheck.id savedResult)
                 (Result.isCounterfeit result) (Result.summary result)
                 (Result.sourceUrl result) (Result.source result)
                 (Result.batchNumber result) (Result.alertType result)
                 (Result.confidence result))) ;;;
    returnResponse (addSecurityHeaders
      (json 200 (ResultPayload (ProductCheck.id savedResult) result
                   (User.pointsBalance user - 1) (isoNow env)))).

(** The body of the outer [try]. *)
Definition tryBlock : M Response :=
  step1RateLimiting ;;;
  requestBody <- step2Validation ;;
  session <- step3Authentication ;;
  user <- step4UserValidation session ;;
  requireProductInformation requestBody ;;;
  ocrText <- extractOcrText requestBody ;;
  allMatches <- allMatchesOf requestBody ocrText ;;
  let matchingAlerts := uniqueAlerts allMatches in
  result <- stage3EnsembleValidation requestBody
              (decisionLogic matchingAlerts (elapsed env)) ;;
  saveAndRespond session user requestBody result.

Definition verificationFailed : Response :=
  addSecurityHeaders
    (json 500 (ErrorPayload "Verification failed"
       (Some "An error occurred during product verification. Please try again."))).

(** [POST]: the outer [try] and its [catch]. *)
Definition POST (w : World) : World * Response :=
  match tryBlock w with
  | (w1, Val r) => (w1, r)
  | (w1, Ret r) => (w1, r)
  | (w1, Thrown _) => (w1, verificationFailed)
  end.

End Handler.

(** ** Sample data *)

Module Sample.

Definition alertA : Alert.t :=
  Alert.mk "a1" "Recall of Paracetamol syrup" (Some "Contaminated paracetamol batch")
           "https://nafdac.gov.ng/a1" ["PC2024001"] None "Recall" "HIGH" 300 true.

Definition alertB : Alert.t :=
  Alert.mk "a2" "Falsified paracetamol tablets" (Some "Fake tablets in circulation")
           "https://nafdac.gov.ng/a2" ["ZZ9"] None "Falsified" "HIGH" 200 true.

Definition alice : User.t := User.mk "u1" (Some "alice@example.com") "Alice" 3.
Definition bob : User.t := User.mk "u2" (Some "bob@example.com") "Bob" 0.

(** The comparison of the sample database: containment after lower-casing
    both texts. *)
Definition foldedContains (needle value : string) : bool :=
  Js.includes (Js.toLowerCase needle) (Js.toLowerCase value).

Definition database : Db.t :=
  Db.mk (<["u1" := alice]> (<["u2" := bob]> ∅))
        (AlertTable.mk [alertB; alertA] foldedContains) [] [].

Definition world : World := mkWorld ∅ database [].

Definition session (id : string) : Session.t := Session.mk id None None.

Definition environment (id : string) : Env :=
  mkEnv 1000 (Resolves (Some (session id))) (fun _ => false)
        (Resolves "") (Resolves (mkEnsemble 0 false)) 7 "scan1" "2025-01-01T00:00:00.000Z".

Definition requestOf (b : Body.t) : Request :=
  mkRequest (Some "10.0.0.1") None None (JsonShaped b).

Definition paracetamol : Body.t :=
  Body.mk "Paracetamol" "Pain relief medication" (Some "PC2024001") None.

Definition aspirin : Body.t :=
  Body.mk "Aspirin" "Pain relief medication" None None.

(** A name with a capital of the Latin-1 range: CAF, E acute (201), and
    Forte. *)
Definition cafe : Body.t :=
  Body.mk ("CAF" +:+ String (ascii_of_nat 201) " Forte") "Pain relief medication"
          None None.

(** Alice asks about paracetamol with a batch number: two alerts match. *)
Definition paracetamolRun : World * Response :=
  POST (environment "u1") (requestOf paracetamol) world.

(** Alice asks about aspirin, without a batch number: nothing matches. *)
Definition aspirinRun : World * Response :=
  POST (environment "u1") (requestOf aspirin) world.

(** Bob, who has no points, asks about aspirin. *)
Definition bobRun : World * Response :=
  POST (environment "u2") (requestOf aspirin) world.

(** An environment in which every alert query rejects. *)
Definition searchDown : Env :=
  mkEnv 1000 (Resolves (Some (session "u1")))
        (fun c => match c with CallFindMany _ => true | _ => false end)
        (Resolves "") (Resolves (mkEnsemble 0 false)) 7 "scan1"
        "2025-01-01T00:00:00.000Z".

(** The limiter's store after ten requests of one client at time 0. *)
Definition fullStore : gmap string RateEntry :=
  Nat.iter 10 (fun store => snd (checkRateLimit 0 "10.0.0.1" store)) ∅.

(** One request at time 0, nine at the last instant of its window and
    ten right after it. *)
Definition burst : list (string * Z) :=
  ("10.0.0.1", 0) :: repeat ("10.0.0.1", 60000) 9 ++ repeat ("10.0.0.1", 60001) 10.

End Sample.

(** ** Sequences of requests through the rate limiter *)

(** The stores the handler can ever hold: the empty [Map] the module
    starts with, changed by calls of [checkRateLimit] only. *)
Inductive reachable : gmap string RateEntry -> Prop :=
| reachable_empty : reachable ∅
| reachable_step (store : gmap string RateEntry) (now : Z) (ip : string) :
    reachable store -> reachable (snd (checkRateLimit now ip store)).

(** The number of requests of [ip] that [checkRateLimit] accepts when the
    requests [reqs] (client IP and clock value of each call) are served
    one after the other, starting from [store]. *)
Fixpoint accepted (ip : string) (reqs : list (string * Z))
    (store : gmap string RateEntry) : Z :=
  match reqs with
  | [] => 0
  | (ip', now) :: rest =>
      let '(isAllowed, store') := checkRateLimit now ip' store in
      (if isAllowed && String.eqb ip' ip then 1 else 0) + accepted ip rest store'
  end.

(** The request of [ip] at time [now] opens a window: there is no entry
    for [ip], or its entry has expired. *)
Definition opensWindow (now : Z) (ip : string) (store : gmap string RateEntry) : Prop :=
  match store !! ip with
  | None => True
  | Some e => resetTime e < now
  end.

Definition countsBounded (store : gmap string RateEntry) : Prop :=
  forall ip e, store !! ip = Some e -> 1 <= count e <= RATE_LIMIT_MAX_REQUESTS.

Definition tooManyRequests : Response :=
  addSecurityHeaders
    (json 429 (ErrorPayload "Too many requests"
       (Some "Please wait a moment before trying again."))).


(** ** Tokens of the combined text *)





(** A whitespace character that is the space. *)
Definition whitespaceIsSpace (c : ascii) : bool :=
  negb (Js.isWhitespace c) || Ascii.eqb c " ".

Definition isLowered (c : ascii) : bool := Ascii.eqb (Js.lowerChar c) c.

Definition headNotWhitespace (s : string) : bool :=
  match s with
  | EmptyString => false
  | String c _ => negb (Js.isWhitespace c)
  end.



(** ** What one run of the handler computes, in closed form *)

(** The OCR text the handler ends up with. *)
Definition ocrTextOf (env : Env) (b : Body.t) : string :=
  match Body.images b with
  | Some (_ :: _) =>
      match ocrOutcome env with
      | Resolves text => text
      | Rejects _ => ""
      end
  | _ => ""
  end.

(** The queries of the three strategies that a body gives rise to; a
    strategy whose guard fails gives none. *)
Definition batchQuery (b : Body.t) : list AlertWhere :=
  if Js.truthy (Body.userBatchNumber b)
  then [BatchHas (Js.toUpperCase (Js.orStr (Body.userBatchNumber b) ""))]
  else [].

Definition productQuery (b : Body.t) : list AlertWhere :=
  if negb (Js.isEmpty (Body.productName b)) && (strlen (Body.productName b) >? 3)
  then [TitleContains (Js.toLowerCase (Body.productName b))]
  else [].

Definition contentQuery (b : Body.t) (ocrText : string) : list AlertWhere :=
  let searchText :=
    searchTextOf (Body.productName b) (Body.productDescription b)
                 (Body.userBatchNumber b) ocrText in
  if negb (Js.isEmpty searchText) && (strlen searchText >? 5)
  then [ContentContains (option_map Js.toLowerCase (Js.split " " searchText !! 0%nat))]
  else [].

Definition searchQueries (b : Body.t) (ocrText : string) : list AlertWhere :=
  batchQuery b ++ productQuery b ++ contentQuery b ocrText.

(** What a list of queries finds in a table, in the order of the queries. *)
Definition resultsOf (table : AlertTable.t) (queries : list AlertWhere) : list Alert.t :=
  concat (map (fun q => findMany q table) queries).

(** The concatenated matches of a request body in a world. *)
Definition matchesFound (env : Env) (raw : Body.t) (w : World) : list Alert.t :=
  resultsOf (Db.nafdacAlerts (db w))
            (searchQueries (sanitizeBody raw) (ocrTextOf env (sanitizeBody raw))).

Definition successResponse (env : Env) (result : Result.t) (user : User.t) : Response :=
  addSecurityHeaders
    (json 200 (ResultPayload (freshId env) result (User.pointsBalance user - 1)
                             (isoNow env))).

Definition safeResponse (env : Env) (user : User.t) : Response :=
  addSecurityHeaders
    (json 200 (SafePayload (freshId env) (User.pointsBalance user - 1) (isoNow env))).

Definition insufficientPoints : Response :=
  addSecurityHeaders
    (json 400 (ErrorPayload "Insufficient points"
       (Some "You need at least 1 point for verification. Daily points will be available tomorrow."))).

(** A response of one of the handled error exits: not a verification, and
    not the 500 of the outer [catch]. *)
Definition isHandledError (r : Response) : Prop :=
  isVerification r = false /\ status r <> 500.

Definition isEnsembleCall (c : Call) : bool :=
  match c with
  | CallEnsemble _ _ _ => true
  | _ => false
  end.

Definition isFindMany (c : Call) : bool :=
  match c with
  | CallFindMany _ => true
  | _ => false
  end.

(** [w1] comes after [w]: the calls of [w1] are those of [w] followed by
    calls that are not to the ensemble service. *)
Definition follows (w w1 : World) : Prop :=
  exists more, calls w1 = calls w ++ more
               /\ Forall (fun c => isEnsembleCall c = false) more.

(** The user as the handler has validated it in step 4: the stored row,
    or the row it has just created with the default 5 points. *)
Definition validatedUser (session : Session.t) (w : World) (u : User.t) : Prop :=
  match Db.users (db w) !! Session.userId session with
  | Some stored => u = stored
  | None =>
      u = User.mk (Session.userId session) (Session.userEmail session)
                  (Js.orStr (Session.userName session) "Unknown") 5
  end.


(** The world after one more call has been issued. *)
Definition logged (c : Call) (w : World) : World :=
  mkWorld (rateLimitStore w) (db w) (calls w ++ [c]).

Definition withDb (d : Db.t) (w : World) : World :=
  mkWorld (rateLimitStore w) d (calls w).


(** The queries [qs] issued one after the other, until one rejects. *)
Fixpoint issueAll (env : Env) (qs : list AlertWhere) (w : World)
    : World * Res (list Alert.t) :=
  match qs with
  | [] => (w, Val [])
  | q :: rest =>
      if dbRejects env (CallFindMany q)
      then (logged (CallFindMany q) w, Thrown "database error")
      else match issueAll env rest (logged (CallFindMany q) w) with
           | (w1, Val found) => (w1, Val (findMany q (Db.nafdacAlerts (db w)) ++ found))
           | other => other
           end
  end.

(** The calls are exactly one batch query, one title query and one
    content query, in this order. *)
Definition threeQueries (cs : list Call) : Prop :=
  exists batch needle content,
    cs = [CallFindMany (BatchHas batch); CallFindMany (TitleContains needle);
          CallFindMany (ContentContains content)].

(** The first of two optional finds. *)
Definition orFound (a b : option Alert.t) : option Alert.t :=
  match a with
  | Some x => Some x
  | None => b
  end.


(** The confidence values of a non-empty list of matches. *)
Definition confidenceValues : list Z := [75; 80; 85; 90; 95].

(** An alert that carries nothing but an id. *)
Definition bareAlert (id : string) : Alert.t :=
  Alert.mk id "" None "" [] None "" "" 0 true.

(** ** More about the rate limiter *)

(** The requests of one client in a sequence of requests. *)
Definition requestsOf (ip : string) (reqs : list (string * Z)) : list (string * Z) :=
  List.filter (fun r => String.eqb (fst r) ip) reqs.

(** The part of a store that concerns one client. *)
Definition entryOnly (ip : string) (store : gmap string RateEntry)
    : gmap string RateEntry :=
  match store !! ip with
  | Some e => {[ip := e]}
  | None => ∅
  end.


(** ** More about sanitised input *)

(** No two whitespace characters in a row; [afterWhitespace] says that
    the character before [s] was one. *)
Fixpoint noWhitespaceRun (afterWhitespace : bool) (s : string) : bool :=
  match s with
  | EmptyString => true
  | String c r =>
      if Js.isWhitespace c then negb afterWhitespace && noWhitespaceRun true r
      else noWhitespaceRun false r
  end.

Definition isNotMarkup (c : ascii) : bool := negb (isMarkupChar c).

Definition isUpperFixed (c : ascii) : bool := Ascii.eqb (Js.upperChar c) c.


(** ** The exits of the handler and what a run may touch *)

Definition invalidInput (message : string) : Response :=
  addSecurityHeaders (json 400 (ErrorPayload "Invalid input" (Some message))).

Definition invalidJson : Response :=
  addSecurityHeaders
    (json 400 (ErrorPayload "Invalid request format"
       (Some "Request body must be valid JSON"))).

Definition authenticationRequired : Response :=
  addSecurityHeaders (json 401 (ErrorPayload "Authentication required" None)).

Definition serviceUnavailable : Response :=
  addSecurityHeaders
    (json 503 (ErrorPayload "Service temporarily unavailable"
       (Some "Please try again later."))).

Definition missingProductInformation : Response :=
  json 400 (ErrorPayload
    "Missing product information - name and description required" None).

(** The error responses that the handler returns on its own account. *)
Definition isErrorExit (r : Response) : Prop :=
  r = tooManyRequests \/ (exists message, r = invalidInput message)
  \/ r = invalidJson \/ r = authenticationRequired \/ r = insufficientPoints
  \/ r = serviceUnavailable \/ r = missingProductInformation.

(** The user of the session, when there is one. *)
Definition ownerOf (env : Env) : option string :=
  match authOutcome env with
  | Resolves (Some session) => Some (Session.userId session)
  | _ => None
  end.

(** From [w] to [w1] nothing has changed but (possibly) the row of the
    user [id] and the calls issued. *)
Definition sameButUser (id : string) (w w1 : World) : Prop :=
  rateLimitStore w1 = rateLimitStore w
  /\ Db.nafdacAlerts (db w1) = Db.nafdacAlerts (db w)
  /\ Db.productChecks (db w1) = Db.productChecks (db w)
  /\ Db.checkResults (db w1) = Db.checkResults (db w)
  /\ (forall id', id' <> id -> Db.users (db w1) !! id' = Db.users (db w) !! id')
  /\ follows w w1.

(** From [w] to [w1] the only changes are: the limiter's entry of the
    client [ip], the row of the user [owner], rows added at the end of the
    two scan tables, and calls issued. *)
Definition touchesOnly (ip : string) (owner : option string) (w w1 : World) : Prop :=
  (forall ip', ip' <> ip -> rateLimitStore w1 !! ip' = rateLimitStore w !! ip')
  /\ Db.nafdacAlerts (db w1) = Db.nafdacAlerts (db w)
  /\ (forall id, Some id <> owner -> Db.users (db w1) !! id = Db.users (db w) !! id)
  /\ Db.productChecks (db w) `prefix_of` Db.productChecks (db w1)
  /\ Db.checkResults (db w) `prefix_of` Db.checkResults (db w1)
  /\ calls w `prefix_of` calls w1.

(** The two rows that the handler saves for a scan. *)
Definition savedCheck (env : Env) (session : Session.t) (b : Body.t) : ProductCheck.t :=
  ProductCheck.mk (freshId env) (Session.userId session)
    (Body.productName b) (Body.productDescription b) (default [] (Body.images b)) 1.

Definition savedResult (env : Env) (session : Session.t) (result : Result.t)
    : CheckResult.t :=
  CheckResult.mk (Session.userId session) (freshId env)
    (Result.isCounterfeit result) (Result.summary result) (Result.sourceUrl result)
    (Result.source result) (Result.batchNumber result) (Result.alertType result)
    (Result.confidence result).


(** * Further handlers *)

(** ** [src/app/api/admin/check-access/route.ts] *)

Module CheckAccess.

(** The session as the handler reads it: [session] may be null, its
    [user] missing, and so may [user.id] and [user.email]. *)
Inductive AuthSession :=
| NoSession
| SessionWithoutUser
| SessionOf (id email : option string).

Definition userIdOf (s : AuthSession) : option string :=
  match s with
  | SessionOf id _ => id
  | _ => None
  end.

Definition emailOf (s : AuthSession) : option string :=
  match s with
  | SessionOf _ email => email
  | _ => None
  end.

Inductive Payload :=
| Access (isAdmin : bool) (userId : string) (email : option string) (role : string)
| Error (error : string) (isAdmin : bool).

Record Response := mkResponse { status : Z; payload : Payload }.

(** [email?.includes('admin@') || id === 'admin001' ||
     email === 'admin@fakedetector.ng'] *)
Definition isAdminOf (id : string) (email : option string) : bool :=
  match email with
  | Some e => Js.includes "admin@" e
  | None => false
  end
  || String.eqb id "admin001"
  || match email with
     | Some e => String.eqb e "admin@fakedetector.ng"
     | None => false
     end.

Definition GET (auth : Outcome AuthSession) : Response :=
  match auth with
  | Rejects _ => mkResponse 500 (Error "Server error" false)
  | Resolves session =>
      if negb (Js.truthy (userIdOf session))
      then mkResponse 401 (Error "Unauthorized" false)
      else
        let id := Js.orStr (userIdOf session) EmptyString in
        let isAdmin := isAdminOf id (emailOf session) in
        mkResponse 200
          (Access isAdmin id (emailOf session) (if isAdmin then "admin" else "user"))
  end.

Definition grantsAdmin (r : Response) : bool :=
  match payload r with
  | Access isAdmin _ _ _ => isAdmin
  | Error _ isAdmin => isAdmin
  end.

Definition roleOf (r : Response) : option string :=
  match payload r with
  | Access _ _ _ role => Some role
  | Error _ _ => None
  end.

End CheckAccess.

(** ** Regular expressions

    The patterns of the handlers use character classes, concatenation and
    repetition only, and are anchored at both ends; on such patterns
    [test] decides membership in the pattern's language.  [test] does so
    by derivatives. *)

Module Regex.

Inductive t :=
| Never
| Empty
| Class (p : ascii -> bool)
| Seq (r1 r2 : t)
| Or (r1 r2 : t)
| Star (r : t).

(** [r+] *)
Definition Plus (r : t) : t := Seq r (Star r).

Fixpoint nullable (r : t) : bool :=
  match r with
  | Never => false
  | Empty => true
  | Class _ => false
  | Seq r1 r2 => nullable r1 && nullable r2
  | Or r1 r2 => nullable r1 || nullable r2
  | Star _ => true
  end.

Fixpoint derive (c : ascii) (r : t) : t :=
  match r with
  | Never => Never
  | Empty => Never
  | Class p => if p c then Empty else Never
  | Seq r1 r2 =>
      if nullable r1
      then Or (Seq (derive c r1) r2) (derive c r2)
      else Seq (derive c r1) r2
  | Or r1 r2 => Or (derive c r1) (derive c r2)
  | Star r1 => Seq (derive c r1) (Star r1)
  end.

(** [/^r$/.test(s)] *)
Fixpoint test (r : t) (s : string) : bool :=
  match s with
  | EmptyString => nullable r
  | String c rest => test (derive c r) rest
  end.

End Regex.

(** ** The contact form: [POST] of the contact route *)

Definition dq : string := String (ascii_of_nat 34) EmptyString.

Module Contact.

(** [[^\s@]] *)
Definition isPlain (c : ascii) : bool :=
  negb (Js.isWhitespace c || Ascii.eqb c "@").

(** [/^[^\s@]+@[^\s@]+\.[^\s@]+$/] *)
Definition emailRegex : Regex.t :=
  Regex.Seq (Regex.Plus (Regex.Class isPlain))
    (Regex.Seq (Regex.Class (Ascii.eqb "@"))
       (Regex.Seq (Regex.Plus (Regex.Class isPlain))
          (Regex.Seq (Regex.Class (Ascii.eqb "."))
             (Regex.Plus (Regex.Class isPlain))))).

(** A property of the parsed body.  Nothing checks that it is a string:
    a value of another type is known by its truthiness and by what
    converting it to a string gives, which can throw. *)
Inductive Field :=
| Undefined
| Null
| Text (s : string)
| Other (truthy : bool) (text : option string).

Definition truthy (f : Field) : bool :=
  match f with
  | Undefined | Null => false
  | Text s => negb (Js.isEmpty s)
  | Other t _ => t
  end.

Definition toText (f : Field) : option string :=
  match f with
  | Undefined => Some "undefined"
  | Null => Some "null"
  | Text s => Some s
  | Other _ text => text
  end.

(** What [request.json()] yields: a rejection, [null] (destructuring it
    throws) or a value with the four properties, each possibly missing. *)
Inductive Body :=
| BodyRejects (message : string)
| BodyNull
| BodyOf (name email phone message : Field).

Record Email := mkEmail {
  to : string;
  subject : string;
  html : string;
  text : string;
  from : string
}.

Record Env := mkEnv {
  sendEmail : Email -> Outcome bool;  (* to the truthiness of its result *)
  localeNow : string;                 (* [toLocaleString()] in the HTML *)
  localeNowText : string              (* the same, read again for the text *)
}.

Inductive Payload :=
| Success (message : string)
| Error (error : string).

Record Response := mkResponse { status : Z; payload : Payload }.

Definition phoneHtml (phone : string) : string :=
  "
            <div class=" +:+ dq +:+ "field" +:+ dq +:+ ">
              <div class=" +:+ dq +:+ "label" +:+ dq +:+ ">📞 Phone:</div>
              <div class=" +:+ dq +:+ "value" +:+ dq +:+ ">"
  +:+ phone
  +:+ "</div>
            </div>
            ".

Definition contactEmailHtml (name email : string) (phone : option string)
    (message date : string) : string :=
  "
      <!DOCTYPE html>
      <html>
        <head>
          <meta charset=" +:+ dq +:+ "utf-8" +:+ dq +:+ ">
          <meta name=" +:+ dq +:+ "viewport" +:+ dq +:+ " content=" +:+ dq +:+ "width=device-width, initial-scale=1.0" +:+ dq +:+ ">
          <title>New Contact Form Submission</title>
          <style>
            body { font-family: Arial, sans-serif; line-height: 1.6; color: #333; max-width: 600px; margin: 0 auto; padding: 20px; }
            .header { background: linear-gradient(135deg, #FFD700 0%, #1E40AF 100%); color: white; padding: 30px; text-align: center; border-radius: 10px 10px 0 0; }
            .content { background: #f9f9f9; padding: 30px; border-radius: 0 0 10px 10px; }
            .field { margin-bottom: 20px; }
            .label { font-weight: bold; color: #1E40AF; }
            .value { background: white; padding: 15px; border-radius: 8px; border-left: 4px solid #FFD700; margin-top: 5px; }
            .footer { text-align: center; margin-top: 30px; color: #666; font-size: 12px; }
          </style>
        </head>
        <body>
          <div class=" +:+ dq +:+ "header" +:+ dq +:+ ">
            <h1>📧 New Contact Form Submission</h1>
            <p>You have received a new message from your website</p>
          </div>

          <div class=" +:+ dq +:+ "content" +:+ dq +:+ ">
            <div class=" +:+ dq +:+ "field" +:+ dq +:+ ">
              <div class=" +:+ dq +:+ "label" +:+ dq +:+ ">👤 Name:</div>
              <div class=" +:+ dq +:+ "value" +:+ dq +:+ ">"
  +:+ name
  +:+ "</div>
            </div>

            <div class=" +:+ dq +:+ "field" +:+ dq +:+ ">
              <div class=" +:+ dq +:+ "label" +:+ dq +:+ ">✉️ Email:</div>
              <div class=" +:+ dq +:+ "value" +:+ dq +:+ ">"
  +:+ email
  +:+ "</div>
            </div>

            "
  +:+ match phone with Some p => phoneHtml p | None => EmptyString end
  +:+ "

            <div class=" +:+ dq +:+ "field" +:+ dq +:+ ">
              <div class=" +:+ dq +:+ "label" +:+ dq +:+ ">💬 Message:</div>
              <div class=" +:+ dq +:+ "value" +:+ dq +:+ " style=" +:+ dq +:+ "white-space: pre-wrap;" +:+ dq +:+ ">"
  +:+ message
  +:+ "</div>
            </div>
          </div>

          <div class=" +:+ dq +:+ "footer" +:+ dq +:+ ">
            <p>This message was sent from the Fake Products Detector contact form</p>
            <p>Source: "
  +:+ date
  +:+ "</p>
          </div>
        </body>
      </html>
    ".

Definition contactEmailText (name email : string) (phone : option string)
    (message date : string) : string :=
  "
      New Contact Form Submission

      Name: "
  +:+ name
  +:+ "
      Email: "
  +:+ email
  +:+ "
      "
  +:+ match phone with Some p => "Phone: " +:+ p | None => EmptyString end
  +:+ "
      Message: "
  +:+ message
  +:+ "

      Sent from Fake Products Detector contact form
      Date: "
  +:+ date
  +:+ "
    ".

Definition requiredFields : Response :=
  mkResponse 400 (Error "Name, email, and message are required fields").

Definition invalidEmail : Response :=
  mkResponse 400 (Error "Please provide a valid email address").

Definition sent : Response :=
  mkResponse 200 (Success "Message sent successfully! We will get back to you soon.").

Definition notSent : Response :=
  mkResponse 500 (Error "Failed to send message. Please try again.").

Definition serverError : Response :=
  mkResponse 500 (Error "Internal server error. Please try again later.").

(** The message handed to [sendEmail]; [None] when converting a field to
    a string throws. *)
Definition compose (env : Env) (name email phone message : Field) : option Email :=
  match toText name, toText email, toText message with
  | Some n, Some e, Some m =>
      match (if truthy phone then option_map Some (toText phone) else Some None) with
      | Some p =>
          Some (mkEmail "sampidia0@gmail.com"
                  ("Contact Form: Message from " +:+ n)
                  (contactEmailHtml n e p m (localeNow env))
                  (contactEmailText n e p m (localeNowText env))
                  (dq +:+ "Fake Detector Contact" +:+ dq
                   +:+ " <noreply@fake-detector-app.com>"))
      | None => None
      end
  | _, _, _ => None
  end.

(** The handler, to the emails it hands to [sendEmail] and its response. *)
Definition POST (env : Env) (body : Body) : list Email * Response :=
  match body with
  | BodyRejects _ => ([], serverError)
  | BodyNull => ([], serverError)
  | BodyOf name email phone message =>
      if negb (truthy name) || negb (truthy email) || negb (truthy message)
      then ([], requiredFields)
      else
        match toText email with
        | None => ([], serverError)
        | Some address =>
            if negb (Regex.test emailRegex address) then ([], invalidEmail)
            else
              match compose env name email phone message with
              | None => ([], serverError)
              | Some mail =>
                  match sendEmail env mail with
                  | Resolves true => ([mail], sent)
                  | Resolves false => ([mail], notSent)
                  | Rejects _ => ([mail], serverError)
                  end
              end
        end
  end.

Definition methodNotAllowed : Response :=
  mkResponse 405 (Error "Method not allowed").

End Contact.

(** ** The arithmetic of doubles that the time label uses

    The time values of two dates are integers that doubles hold exactly
    (at most 8.64e15 in absolute value), but their difference and its
    quotients are computed in doubles: each result is the exact one
    rounded to a significand of 53 bits, to the nearest, ties to even.
    The difference and the floors of the quotients are integers, and are
    kept as such; the exponents stay far inside the range of doubles. *)

Module Double.

(** [2^k] for a positive [k], and 1 otherwise. *)
Definition pow2 (k : Z) : Z := 2 ^ Z.max 0 k.

(** The integer nearest to [n / d], for [d > 0]; of two that are equally
    near, the even one. *)
Definition roundNearestEven (n d : Z) : Z :=
  let q := n / d in
  let r := n mod d in
  if 2 * r <? d then q
  else if d <? 2 * r then q + 1
  else if Z.even q then q else q + 1.

(** For positive [n] and [d], the [e] with [2^e <= n / d < 2^(e+1)]. *)
Definition binade (n d : Z) : Z :=
  let e := Z.log2 n - Z.log2 d in
  if n * pow2 (- e) <? d * pow2 e then e - 1 else e.

(** The double nearest to the integer [z]: [z] itself below 2^53, and
    else the nearest multiple of the spacing of doubles at [z]. *)
Definition ofInteger (z : Z) : Z :=
  if Z.abs z <? 2 ^ 53 then z
  else
    let ulp := 2 ^ (Z.log2 (Z.abs z) - 52) in
    Z.sgn z * (roundNearestEven (Z.abs z) ulp * ulp).

(** [Math.floor(n / d)] for integer doubles [n] and [d > 0]: the
    quotient is rounded to the double [m / 2^s], whose significand [m]
    has 53 bits, and then floored. *)
Definition floorOfQuotient (n d : Z) : Z :=
  if n =? 0 then 0
  else
    let a := Z.abs n in
    let s := 52 - binade a d in
    let m := roundNearestEven (a * pow2 s) (d * pow2 (- s)) in
    (Z.sgn n * m * pow2 (- s)) / pow2 s.

End Double.

(** ** Helpers of the admin statistics route *)

Module Stats.

(** [Math.floor((now.getTime() - date.getTime()) / (1000 * 60 * 60))] *)
Definition diffInHours (now date : Z) : Z :=
  Double.floorOfQuotient (Double.ofInteger (now - date)) (1000 * 60 * 60).

Definition getTimeAgo (now date : Z) : string :=
  let h := diffInHours now date in
  if h <? 1 then "Just now"
  else if h =? 1 then "1 hour ago"
  else if h <? 24 then pretty h +:+ " hours ago"
  else pretty (Double.floorOfQuotient h 24) +:+ " days ago".

(** A stable sort, greatest key first: [Array.prototype.sort] with the
    comparator [(a, b) => key(b) - key(a)], and the order of
    [orderBy: { createdAt: 'desc' }]. *)
Fixpoint insertDescBy {A} (key : A -> Z) (x : A) (l : list A) : list A :=
  match l with
  | [] => [x]
  | y :: rest =>
      if key y <=? key x then x :: y :: rest
      else y :: insertDescBy key x rest
  end.

Definition sortDescBy {A} (key : A -> Z) (l : list A) : list A :=
  foldr (insertDescBy key) [] l.

Record Subscription := mkSubscription {
  subCreatedAt : Z;
  planDisplayName : string;
  subUserEmail : option string
}.

Record AiUsage := mkAiUsage {
  aiCreatedAt : Z;
  aiProviderName : option string;     (* [aiProvider?.name] *)
  aiUserEmail : option string
}.

Record Activity := mkActivity {
  type : string;
  message : string;
  timestamp : Z;
  user : string
}.

Record Entry := mkEntry {
  activity : Activity;
  timeAgo : string
}.

(** [email?.substring(0, 3) + '***'] *)
Definition mask (email : option string) : string :=
  match email with
  | Some e => Js.substring0 3 e +:+ "***"
  | None => "undefined***"
  end.

Definition ofSubscription (sub : Subscription) : Activity :=
  mkActivity "subscription"
    ("New " +:+ planDisplayName sub +:+ " subscription")
    (subCreatedAt sub) (mask (subUserEmail sub)).

Definition ofAiUsage (ai : AiUsage) : Activity :=
  mkActivity "ai_usage"
    ("AI request to " +:+ Js.orStr (aiProviderName ai) "Unknown Provider")
    (aiCreatedAt ai) (mask (aiUserEmail ai)).

(** The activities before the time labels are attached. *)
Definition recentActivities (subscriptions : list Subscription)
    (records : list AiUsage) : list Activity :=
  let recentSubs := take 3 (sortDescBy subCreatedAt subscriptions) in
  let recentAI := take 3 (sortDescBy aiCreatedAt records) in
  let activities := map ofSubscription recentSubs ++ map ofAiUsage recentAI in
  take 5 (sortDescBy timestamp activities).

(** [clock i] is the time read by the call of [getTimeAgo] for the
    entry at index [i]. *)
Definition getRecentActivity (subscriptions : Outcome (list Subscription))
    (records : Outcome (list AiUsage)) (clock : nat -> Z) : list Entry :=
  match subscriptions, records with
  | Resolves subs, Resolves ais =>
      imap (fun i a => mkEntry a (getTimeAgo (clock i) (timestamp a)))
        (recentActivities subs ais)
  | _, _ => []
  end.

(** [result[name] = count] on a plain object: the name [__proto__] is
    the prototype accessor, which ignores a number. *)
Definition setProperty (name : string) (count : Z) (result : gmap string Z)
    : gmap string Z :=
  if String.eqb name "__proto__" then result else <[name := count]> result.

Definition planNameOf (stat : option string * Z) : string :=
  Js.orStr (fst stat) "free".

(** The rows are those of [groupBy planId]: a plan id, or none, with its
    count. *)
Definition getPlanDistribution (planStats : Outcome (list (option string * Z)))
    : gmap string Z :=
  match planStats with
  | Resolves stats =>
      fold_left (fun result stat => setProperty (planNameOf stat) (snd stat) result)
        stats ∅
  | Rejects _ =>
      <["free" := 0]> (<["basic" := 0]> (<["standard" := 0]> (<["business" := 0]> ∅)))
  end.

End Stats.


(** The language of a pattern. *)
Inductive Matches : Regex.t -> string -> Prop :=
| MatchesEmpty : Matches Regex.Empty EmptyString
| MatchesClass (p : ascii -> bool) (c : ascii) :
    p c = true -> Matches (Regex.Class p) (String c EmptyString)
| MatchesSeq (r1 r2 : Regex.t) (s1 s2 : string) :
    Matches r1 s1 -> Matches r2 s2 -> Matches (Regex.Seq r1 r2) (s1 +:+ s2)
| MatchesOrLeft (r1 r2 : Regex.t) (s : string) :
    Matches r1 s -> Matches (Regex.Or r1 r2) s
| MatchesOrRight (r1 r2 : Regex.t) (s : string) :
    Matches r2 s -> Matches (Regex.Or r1 r2) s
| MatchesStarNil (r : Regex.t) : Matches (Regex.Star r) EmptyString
| MatchesStarCons (r : Regex.t) (s1 s2 : string) :
    Matches r s1 -> Matches (Regex.Star r) s2 ->
    Matches (Regex.Star r) (s1 +:+ s2).

(** How often a code unit occurs in a string. *)
Fixpoint countChar (x : ascii) (s : string) : nat :=
  match s with
  | EmptyString => 0%nat
  | String c rest => ((if Ascii.eqb c x then 1 else 0) + countChar x rest)%nat
  end.

(** A body whose properties have the types of [ContactFormData]. *)
Definition wellTyped (body : Contact.Body) : Prop :=
  match body with
  | Contact.BodyOf (Contact.Text _) (Contact.Text _)
      (Contact.Text _ | Contact.Undefined) (Contact.Text _) => True
  | _ => False
  end.


(** Greatest key first. *)
Definition keyDesc {A} (key : A -> Z) (a b : A) : Prop := key b <= key a.

(** The activities that enter the final sort of [getRecentActivity]. *)
Definition candidateActivities (subscriptions : list Stats.Subscription)
    (records : list Stats.AiUsage) : list Stats.Activity :=
  map Stats.ofSubscription (take 3 (Stats.sortDescBy Stats.subCreatedAt subscriptions))
  ++ map Stats.ofAiUsage (take 3 (Stats.sortDescBy Stats.aiCreatedAt records)).

(** The rows of the grouping that are reported under a name. *)
Definition rowsNamed (name : string) (stats : list (option string * Z))
    : list (option string * Z) :=
  filter (fun stat => Stats.planNameOf stat = name) stats.


(** * Properties *)

(** ** Deduplication *)

Section Dedup.

Lemma findIndexFrom_bounds {A} (p : A -> bool) (l : list A) (k : Z) :
  existsb p l = true ->
  k <= findIndexFrom p k l < k + Z.of_nat (length l).
Proof.
  revert k. induction l as [|x r IH]; intros k H; simpl in *.
  - discriminate.
  - destruct (p x); simpl in H.
    + lia.
    + specialize (IH (k + 1) H). lia.
Qed.

Lemma findIndexFrom_app {A} (p : A -> bool) (pre l : list A) (k : Z) :
  findIndexFrom p k (pre ++ l) =
  if existsb p pre then findIndexFrom p k pre
  else findIndexFrom p (k + Z.of_nat (length pre)) l.
Proof.
  revert k. induction pre as [|x r IH]; intros k; simpl.
  - f_equal. lia.
  - destruct (p x); simpl; [reflexivity|].
    rewrite IH. destruct (existsb p r); [reflexivity|].
    f_equal. lia.
Qed.

Lemma keepIndex_first (pre l : list Alert.t) (a : Alert.t) :
  keepIndex a (Z.of_nat (length pre)) (pre ++ a :: l) =
  negb (existsb (fun a' => String.eqb (Alert.id a') (Alert.id a)) pre).
Proof.
  unfold keepIndex, findIndex. rewrite findIndexFrom_app.
  destruct (existsb _ pre) eqn:E; simpl.
  - apply Z.eqb_neq. apply (findIndexFrom_bounds _ _ 0) in E. lia.
  - rewrite String.eqb_refl. apply Z.eqb_refl.
Qed.

Lemma filterFrom_keepFirst (pre l : list Alert.t) :
  filterFrom keepIndex (pre ++ l) (Z.of_nat (length pre)) l = keepFirst pre l.
Proof.
  revert pre. induction l as [|a r IH]; intros pre; simpl; [reflexivity|].
  rewrite keepIndex_first.
  specialize (IH (pre ++ [a])).
  rewrite <- app_assoc, length_app in IH. simpl in IH.
  replace (Z.of_nat (length pre + 1)) with (Z.of_nat (length pre) + 1) in IH by lia.
  rewrite IH. destruct (existsb _ pre); reflexivity.
Qed.

Lemma dedupById_keepFirst (l : list Alert.t) : dedupById l = keepFirst [] l.
Proof. exact (filterFrom_keepFirst [] l). Qed.

Lemma keepFirst_sublist (pre l : list Alert.t) : sublist (keepFirst pre l) l.
Proof.
  revert pre. induction l as [|a r IH]; intros pre; simpl.
  - constructor.
  - destruct (existsb _ pre).
    + apply sublist_cons, IH.
    + apply sublist_skip, IH.
Qed.

Lemma existsb_hasId (x : string) (l : list Alert.t) :
  existsb (fun a' => String.eqb (Alert.id a') x) l = true <->
  x ∈ (Alert.id <$> l).
Proof.
  induction l as [|a r IH]; simpl.
  - split; [discriminate|]. intros H. inversion H.
  - rewrite orb_true_iff, IH, elem_of_cons, String.eqb_eq.
    split; intros [H|H]; auto.
Qed.

Lemma keepFirst_fresh (pre l : list Alert.t) (x : string) :
  x ∈ (Alert.id <$> keepFirst pre l) -> x ∉ (Alert.id <$> pre).
Proof.
  revert pre. induction l as [|a r IH]; intros pre; simpl.
  - intros H. inversion H.
  - destruct (existsb _ pre) eqn:E.
    + intros H Hx. apply (IH _ H). rewrite fmap_app. apply elem_of_app. auto.
    + simpl. rewrite elem_of_cons. intros [->|H] Hx.
      * apply existsb_hasId in Hx. congruence.
      * apply (IH _ H). rewrite fmap_app. apply elem_of_app. auto.
Qed.

Lemma keepFirst_NoDup (pre l : list Alert.t) :
  NoDup ((Alert.id <$> keepFirst pre l)).
Proof.
  revert pre. induction l as [|a r IH]; intros pre; simpl.
  - constructor.
  - destruct (existsb _ pre); [apply IH|].
    simpl. apply NoDup_cons. split; [|apply IH].
    intros H. apply keepFirst_fresh in H. apply H.
    rewrite fmap_app. apply elem_of_app. right. simpl. apply list_elem_of_here.
Qed.

Lemma keepFirst_find (pre l : list Alert.t) (x : string) :
  List.find (hasId x) (keepFirst pre l) =
  if existsb (hasId x) pre then None else List.find (hasId x) l.
Proof.
  revert pre. induction l as [|a r IH]; intros pre; simpl.
  - destruct (existsb _ pre); reflexivity.
  - assert (Hsame : hasId x a = true ->
              existsb (hasId x) pre
              = existsb (fun a' => String.eqb (Alert.id a') (Alert.id a)) pre).
    { unfold hasId. intros ->%String.eqb_eq. reflexivity. }
    destruct (existsb (fun a' => _) pre) eqn:E; simpl;
      rewrite ?IH, existsb_app; simpl; rewrite orb_false_r;
      destruct (hasId x a) eqn:Ha.
    + rewrite orb_true_r, Hsame by reflexivity. reflexivity.
    + rewrite orb_false_r. reflexivity.
    + rewrite Hsame by reflexivity. reflexivity.
    + rewrite orb_false_r. reflexivity.
Qed.

End Dedup.

(** C4.  Deduplication is by record identifier.  [uniqueAlerts] is the
    first ten elements of [dedupById]; [dedupById] walks the concatenated
    list and keeps an alert exactly when no earlier alert has its id, so
    that for every id the alert found first in the input is the one found
    in the output; the kept alerts form a subsequence of the input (their
    relative order is preserved and each of them occurs in the input);
    no id occurs twice; and at most ten alerts remain. *)
Theorem dedup_keeps_first_occurrences (allMatches : list Alert.t) :
  uniqueAlerts allMatches = take 10 (dedupById allMatches)
  /\ dedupById allMatches = keepFirst [] allMatches
  /\ (forall x, List.find (hasId x) (dedupById allMatches)
                = List.find (hasId x) allMatches)
  /\ sublist (dedupById allMatches) allMatches
  /\ sublist (uniqueAlerts allMatches) allMatches
  /\ NoDup ((Alert.id <$> dedupById allMatches))
  /\ NoDup ((Alert.id <$> uniqueAlerts allMatches))
  /\ (length (uniqueAlerts allMatches) <= 10)%nat.
Proof.
  assert (Hsub : sublist (dedupById allMatches) allMatches)
    by (rewrite dedupById_keepFirst; apply keepFirst_sublist).
  assert (Hnd : NoDup ((Alert.id <$> dedupById allMatches)))
    by (rewrite dedupById_keepFirst; apply keepFirst_NoDup).
  repeat split; trivial.
  - apply dedupById_keepFirst.
  - intros x. rewrite dedupById_keepFirst. apply keepFirst_find.
  - unfold uniqueAlerts. etransitivity; [apply sublist_take|exact Hsub].
  - unfold uniqueAlerts. eapply sublist_NoDup; [exact Hnd|].
    apply fmap_sublist, sublist_take.
  - unfold uniqueAlerts. rewrite length_take. lia.
Qed.

(** ** Confidence *)

Lemma dynamicConfidence_values (matchingAlerts : list Alert.t) :
  matchingAlerts <> [] ->
  In (dynamicConfidence matchingAlerts) confidenceValues.
Proof.
  intros Hne. unfold dynamicConfidence, confidenceValues.
  destruct matchingAlerts as [|a1 [|a2 [|a3 [|a4 [|a5 r]]]]]; [congruence|..];
    cbn [length In].
  - left. reflexivity.
  - right; left. reflexivity.
  - right; right; left. reflexivity.
  - right; right; right; left. reflexivity.
  - right; right; right; right; left. lia.
Qed.

Lemma decisionLogic_confidence (matchingAlerts : list Alert.t) (searchTime : Z) :
  Result.confidence (decisionLogic matchingAlerts searchTime) =
  match matchingAlerts with
  | [] => 100
  | _ => dynamicConfidence matchingAlerts
  end.
Proof. destruct matchingAlerts; reflexivity. Qed.

(** C3.  With n the number of unique matching alerts, the confidence is
    100 when n = 0 and min(95, 70 + 5 n) when n >= 1; in the second case
    it is one of 75, 80, 85, 90, 95, and each of these five values is the
    confidence of some deduplicated list of matches. *)
Theorem confidence_is_linear (matchingAlerts : list Alert.t) (searchTime : Z) :
  let n := Z.of_nat (length matchingAlerts) in
  let confidence := Result.confidence (decisionLogic matchingAlerts searchTime) in
  ((n = 0 /\ confidence = 100)
   \/ (1 <= n /\ confidence = Z.min 95 (70 + 5 * n) /\ In confidence confidenceValues))
  /\ Forall (fun v => exists allMatches,
                 Result.confidence (decisionLogic (uniqueAlerts allMatches) searchTime) = v)
            confidenceValues.
Proof.
  cbv zeta. split.
  - rewrite decisionLogic_confidence.
    destruct matchingAlerts as [|a r] eqn:E.
    + left. split; reflexivity.
    + right. rewrite <- E. split; [subst; cbn [length]; lia|]. split.
      * unfold dynamicConfidence. f_equal. lia.
      * apply dynamicConfidence_values. subst. discriminate.
  - unfold confidenceValues. repeat apply Forall_cons_2; [..|apply Forall_nil_2].
    + exists (map bareAlert ["1"]). reflexivity.
    + exists (map bareAlert ["1"; "2"]). reflexivity.
    + exists (map bareAlert ["1"; "2"; "3"]). reflexivity.
    + exists (map bareAlert ["1"; "2"; "3"; "4"]). reflexivity.
    + exists (map bareAlert ["1"; "2"; "3"; "4"; "5"]). reflexivity.
Qed.

(** ** Rate limiting *)

Section RateLimit.

Implicit Types (store : gmap string RateEntry) (ip : string) (now : Z).

Lemma checkRateLimit_fresh now ip store :
  opensWindow now ip store ->
  checkRateLimit now ip store =
  (true, <[ip := mkRateEntry 1 (now + RATE_LIMIT_WINDOW)]> store).
Proof.
  unfold opensWindow, checkRateLimit. destruct (store !! ip) as [e|]; [|reflexivity].
  intros H. rewrite Z.gtb_ltb. apply Z.ltb_lt in H. rewrite H. reflexivity.
Qed.

Lemma checkRateLimit_full now ip store e :
  store !! ip = Some e -> now <= resetTime e ->
  RATE_LIMIT_MAX_REQUESTS <= count e ->
  checkRateLimit now ip store = (false, store).
Proof.
  intros He Hnow Hc. unfold checkRateLimit. rewrite He.
  rewrite Z.gtb_ltb. destruct (Z.ltb_spec (resetTime e) now); [lia|].
  rewrite Z.geb_leb. destruct (Z.leb_spec RATE_LIMIT_MAX_REQUESTS (count e)); [reflexivity|lia].
Qed.

Lemma checkRateLimit_room now ip store e :
  store !! ip = Some e -> now <= resetTime e ->
  count e < RATE_LIMIT_MAX_REQUESTS ->
  checkRateLimit now ip store =
  (true, <[ip := mkRateEntry (count e + 1) (resetTime e)]> store).
Proof.
  intros He Hnow Hc. unfold checkRateLimit. rewrite He.
  rewrite Z.gtb_ltb. destruct (Z.ltb_spec (resetTime e) now); [lia|].
  rewrite Z.geb_leb. destruct (Z.leb_spec RATE_LIMIT_MAX_REQUESTS (count e)); [lia|reflexivity].
Qed.

(** The three cases of [checkRateLimit], by the entry it finds. *)
Lemma checkRateLimit_cases now ip store :
  opensWindow now ip store
  \/ exists e, store !! ip = Some e /\ now <= resetTime e.
Proof.
  unfold opensWindow. destruct (store !! ip) as [e|]; [|left; exact I].
  destruct (Z.lt_ge_cases (resetTime e) now); [left; assumption|right; eauto].
Qed.

Lemma checkRateLimit_other now ip ip' store :
  ip' <> ip -> snd (checkRateLimit now ip' store) !! ip = store !! ip.
Proof.
  intros Hne. unfold checkRateLimit.
  destruct (store !! ip') as [e|]; simpl;
    repeat match goal with |- context [if ?b then _ else _] => destruct b; simpl end;
    rewrite ?lookup_insert_ne by assumption; reflexivity.
Qed.

Lemma checkRateLimit_bounded now ip store :
  countsBounded store -> countsBounded (snd (checkRateLimit now ip store)).
Proof.
  intros Hb ip0 e0.
  destruct (decide (ip = ip0)) as [<-|Hne]; [|rewrite checkRateLimit_other by assumption; apply Hb].
  destruct (checkRateLimit_cases now ip store) as [Hopen|[e [He Hnow]]].
  - rewrite checkRateLimit_fresh by assumption. simpl.
    rewrite lookup_insert_eq. intros [= <-]. simpl. unfold RATE_LIMIT_MAX_REQUESTS. lia.
  - pose proof (Hb _ _ He) as Hc.
    destruct (Z.lt_ge_cases (count e) RATE_LIMIT_MAX_REQUESTS).
    + rewrite (checkRateLimit_room _ _ _ e) by assumption. simpl.
      rewrite lookup_insert_eq. intros [= <-]. simpl. lia.
    + rewrite (checkRateLimit_full _ _ _ e) by assumption. simpl.
      intros He0. apply (Hb _ _ He0).
Qed.

Lemma reachable_bounded store : reachable store -> countsBounded store.
Proof.
  induction 1 as [|store now ip _ IH].
  - intros ip e H. rewrite lookup_empty in H. discriminate.
  - apply checkRateLimit_bounded, IH.
Qed.

(** Inside a window, the requests accepted from now on are at most the
    room left in its counter. *)
Lemma accepted_in_window ip (reqs : list (string * Z)) store e :
  store !! ip = Some e ->
  1 <= count e <= RATE_LIMIT_MAX_REQUESTS ->
  Forall (fun r => fst r = ip -> snd r <= resetTime e) reqs ->
  accepted ip reqs store <= RATE_LIMIT_MAX_REQUESTS - count e.
Proof.
  revert store e. induction reqs as [|[ip' now] rest IH]; intros store e He Hc Hall; simpl.
  - lia.
  - apply Forall_cons in Hall as [Hhd Hall]. simpl in Hhd.
    destruct (checkRateLimit now ip' store) as [ok store'] eqn:Hstep.
    destruct (String.eqb_spec ip' ip) as [->|Hne].
    + specialize (Hhd eq_refl).
      destruct (Z.lt_ge_cases (count e) RATE_LIMIT_MAX_REQUESTS) as [Hroom|Hfull].
      * rewrite (checkRateLimit_room _ _ _ e) in Hstep by assumption.
        injection Hstep as <- <-. simpl.
        assert (Hle := IH (<[ip := mkRateEntry (count e + 1) (resetTime e)]> store)
                          (mkRateEntry (count e + 1) (resetTime e))
                          (lookup_insert_eq _ _ _)).
        simpl in Hle. specialize (Hle ltac:(lia) Hall). lia.
      * rewrite (checkRateLimit_full _ _ _ e) in Hstep by assumption.
        injection Hstep as <- <-. simpl.
        specialize (IH store e He Hc Hall). lia.
    + rewrite andb_false_r.
      assert (Hkeep : store' !! ip = Some e).
      { replace store' with (snd (checkRateLimit now ip' store)) by (rewrite Hstep; reflexivity).
        rewrite checkRateLimit_other by assumption. exact He. }
      specialize (IH store' e Hkeep Hc Hall). lia.
Qed.

Lemma accepted_per_window ip now (reqs : list (string * Z)) store :
  opensWindow now ip store ->
  Forall (fun r => fst r = ip -> snd r <= now + RATE_LIMIT_WINDOW) reqs ->
  accepted ip ((ip, now) :: reqs) store <= RATE_LIMIT_MAX_REQUESTS.
Proof.
  intros Hopen Hall. simpl. rewrite checkRateLimit_fresh by assumption.
  rewrite String.eqb_refl. simpl.
  assert (Hle := accepted_in_window ip reqs
                   (<[ip := mkRateEntry 1 (now + RATE_LIMIT_WINDOW)]> store)
                   (mkRateEntry 1 (now + RATE_LIMIT_WINDOW))
                   (lookup_insert_eq _ _ _)).
  simpl in Hle. unfold RATE_LIMIT_MAX_REQUESTS in *. specialize (Hle ltac:(lia) Hall). lia.
Qed.

(** A rejected request is answered with 429 and leaves the world as it
    found it. *)
Lemma POST_rate_limited env req (w : World) :
  checkRateLimit (now env) (clientIP req) (rateLimitStore w)
  = (false, rateLimitStore w) ->
  POST env req w = (mkWorld (rateLimitStore w) (db w) (calls w), tooManyRequests).
Proof.
  intros H. unfold POST, tryBlock, bind at 1, step1RateLimiting. rewrite H. reflexivity.
Qed.

End RateLimit.

(** ** Strings *)

Section Strings.

Implicit Types (s r t : string) (c : ascii) (p : ascii -> bool).

Lemma append_nil_r s : s +:+ "" = s.
Proof. induction s as [|c r IH]; simpl; congruence. Qed.



Lemma mapChars_fixed f s :
  Js.allChars (fun c => Ascii.eqb (f c) c) s = true -> Js.mapChars f s = s.
Proof.
  induction s as [|c s IH]; simpl; [reflexivity|].
  intros [Hc Hs]%andb_true_iff. apply Ascii.eqb_eq in Hc. rewrite Hc, IH; trivial.
Qed.

Lemma allChars_append p s r :
  Js.allChars p (s +:+ r) = Js.allChars p s && Js.allChars p r.
Proof. induction s as [|c s IH]; simpl; [reflexivity|]. rewrite IH, andb_assoc. reflexivity. Qed.

Lemma allChars_mapChars p f s :
  Js.allChars p (Js.mapChars f s) = Js.allChars (fun c => p (f c)) s.
Proof. induction s as [|c s IH]; simpl; congruence. Qed.

Lemma allChars_impl p q s :
  (forall c, p c = true -> q c = true) ->
  Js.allChars p s = true -> Js.allChars q s = true.
Proof.
  intros Hpq. induction s as [|c s IH]; simpl; [reflexivity|].
  intros [Hc Hs]%andb_true_iff. rewrite (Hpq _ Hc), IH; trivial.
Qed.


Lemma filterChars_all p s : Js.allChars p s = true -> Js.filterChars p s = s.
Proof.
  induction s as [|c s IH]; simpl; [reflexivity|].
  intros [Hc Hs]%andb_true_iff. rewrite Hc, IH; trivial.
Qed.

Lemma allChars_trimStart p s :
  Js.allChars p s = true -> Js.allChars p (Js.trimStart s) = true.
Proof.
  induction s as [|c s IH]; simpl; [reflexivity|].
  intros H. destruct (Js.isWhitespace c); [|exact H].
  apply andb_true_iff in H as [_ H]. auto.
Qed.

Lemma allChars_trimEnd p s :
  Js.allChars p s = true -> Js.allChars p (Js.trimEnd s) = true.
Proof.
  induction s as [|c s IH]; simpl; [reflexivity|].
  intros [Hc Hs]%andb_true_iff.
  destruct (Js.isWhitespace c && Js.isEmpty (Js.trimEnd s)); simpl; [reflexivity|].
  rewrite Hc, IH; trivial.
Qed.

Lemma allChars_trim p s : Js.allChars p s = true -> Js.allChars p (Js.trim s) = true.
Proof. intros H. apply allChars_trimEnd, allChars_trimStart, H. Qed.

Lemma allChars_substring0 p n s :
  Js.allChars p s = true -> Js.allChars p (Js.substring0 n s) = true.
Proof.
  unfold Js.substring0. revert s. induction n as [|n IH]; intros [|c s]; simpl; trivial.
  intros [Hc Hs]%andb_true_iff. rewrite Hc. simpl. auto.
Qed.

(** *** Whitespace at the two ends *)


Lemma trimEnd_whitespace s :
  Js.allChars Js.isWhitespace s = true -> Js.trimEnd s = "".
Proof.
  induction s as [|c s IH]; simpl; [reflexivity|].
  intros [Hc Hs]%andb_true_iff. rewrite Hc, IH; trivial.
Qed.




Lemma trimStart_head s : headNotWhitespace s = true -> Js.trimStart s = s.
Proof. destruct s as [|c s]; simpl; [discriminate|]. intros ->%negb_true_iff. reflexivity. Qed.

Lemma trimStart_headNotWhitespace s :
  Js.isEmpty (Js.trimStart s) = false -> headNotWhitespace (Js.trimStart s) = true.
Proof.
  induction s as [|c s IH]; simpl; [discriminate|].
  destruct (Js.isWhitespace c) eqn:Hc; [exact IH|]. simpl. rewrite Hc. reflexivity.
Qed.

Lemma trimEnd_headNotWhitespace s :
  headNotWhitespace s = true -> headNotWhitespace (Js.trimEnd s) = true.
Proof.
  destruct s as [|c s]; simpl; [discriminate|].
  intros Hc. rewrite (proj1 (negb_true_iff _) Hc). simpl. exact Hc.
Qed.

Lemma trimEnd_isEmpty s : Js.isEmpty s = true -> Js.isEmpty (Js.trimEnd s) = true.
Proof. destruct s; [reflexivity|discriminate]. Qed.


(** *** Collapsing whitespace *)

Lemma collapseFrom_whitespaceIsSpace (inRun : bool) s :
  Js.allChars whitespaceIsSpace (Js.collapseFrom inRun s) = true.
Proof.
  revert inRun. induction s as [|c s IH]; intros inRun; simpl; [reflexivity|].
  destruct (Js.isWhitespace c) eqn:Hc.
  - destruct inRun; simpl; rewrite ?IH; reflexivity.
  - simpl. unfold whitespaceIsSpace at 1. rewrite Hc, IH. reflexivity.
Qed.

Lemma collapseWhitespace_head s :
  headNotWhitespace s = true -> headNotWhitespace (Js.collapseWhitespace s) = true.
Proof.
  unfold Js.collapseWhitespace. destruct s as [|c s]; simpl; [discriminate|].
  intros Hc. rewrite (proj1 (negb_true_iff _) Hc). simpl. exact Hc.
Qed.

Lemma collapseWhitespace_isEmpty s :
  Js.isEmpty s = true -> Js.isEmpty (Js.collapseWhitespace s) = true.
Proof. destruct s; [reflexivity|discriminate]. Qed.



End Strings.

(** ** The combined search text and its first token *)

Section SearchText.

Implicit Types (s r t n tok : string) (c : ascii).

Ltac each_char c := destruct c as [[] [] [] [] [] [] [] []]; reflexivity.



Lemma isLowered_lowerChar c : isLowered (Js.lowerChar c) = true.
Proof. each_char c. Qed.


Lemma whitespaceIsSpace_space c :
  whitespaceIsSpace c = true -> Js.isWhitespace c = true -> c = " "%char.
Proof.
  unfold whitespaceIsSpace. intros H Hc. rewrite Hc in H. simpl in H.
  apply Ascii.eqb_eq, H.
Qed.

Lemma toLowerCase_idempotent s : Js.toLowerCase (Js.toLowerCase s) = Js.toLowerCase s.
Proof.
  unfold Js.toLowerCase. apply mapChars_fixed.
  rewrite allChars_mapChars. induction s as [|c s IH]; simpl; [reflexivity|].
  rewrite IH, andb_true_r. apply isLowered_lowerChar.
Qed.




(** *** Tokens *)












(** *** Sanitised input *)

Lemma sanitizeInput_whitespaceIsSpace s :
  Js.allChars whitespaceIsSpace (sanitizeInput s) = true.
Proof.
  unfold sanitizeInput. apply allChars_substring0, collapseFrom_whitespaceIsSpace.
Qed.





End SearchText.

Section FindMany.

Lemma elem_of_insertDesc (a x : Alert.t) (l : list Alert.t) :
  a ∈ insertDesc x l <-> a = x \/ a ∈ l.
Proof.
  induction l as [|b r IH]; simpl.
  - rewrite list_elem_of_singleton, elem_of_nil. tauto.
  - destruct (Alert.scrapedAt b <=? Alert.scrapedAt x).
    + rewrite elem_of_cons. tauto.
    + rewrite !elem_of_cons, IH. tauto.
Qed.

Lemma elem_of_orderBy (a : Alert.t) (l : list Alert.t) :
  a ∈ orderByScrapedAtDesc l <-> a ∈ l.
Proof.
  unfold orderByScrapedAtDesc. induction l as [|b r IH]; simpl; [tauto|].
  rewrite elem_of_insertDesc, elem_of_cons, IH. tauto.
Qed.

Lemma length_insertDesc (x : Alert.t) (l : list Alert.t) :
  length (insertDesc x l) = S (length l).
Proof.
  induction l as [|b r IH]; simpl; [reflexivity|].
  destruct (Alert.scrapedAt b <=? Alert.scrapedAt x); simpl; congruence.
Qed.

Lemma elem_of_findMany (w : AlertWhere) (table : AlertTable.t) (a : Alert.t) :
  a ∈ findMany w table -> a ∈ AlertTable.rows table /\ matchesWhere table w a = true.
Proof.
  unfold findMany. intros H.
  apply (sublist_subseteq _ _ (sublist_take _ _)) in H.
  apply elem_of_orderBy, list_elem_of_In, filter_In in H as [H Hw].
  split; [apply list_elem_of_In, H|exact Hw].
Qed.

Lemma length_findMany (w : AlertWhere) (table : AlertTable.t) :
  (length (findMany w table) <= 5)%nat.
Proof. unfold findMany. rewrite length_take. lia. Qed.

Lemma insertDesc_sorted (x : Alert.t) (l : list Alert.t) :
  StronglySorted newerFirst l -> StronglySorted newerFirst (insertDesc x l).
Proof.
  induction l as [|b r IH]; simpl; intros Hs.
  - repeat constructor.
  - apply StronglySorted_cons in Hs as [Hb Hr].
    destruct (Z.leb_spec (Alert.scrapedAt b) (Alert.scrapedAt x)) as [Hle|Hgt].
    + apply StronglySorted_cons. split; [|apply StronglySorted_cons; auto].
      apply Forall_cons. split; [exact Hle|].
      eapply Forall_impl; [exact Hb|]. unfold newerFirst. intros; lia.
    + apply StronglySorted_cons. split; [|auto].
      apply Forall_forall. intros a [->|Ha]%elem_of_insertDesc; [unfold newerFirst; lia|].
      rewrite Forall_forall in Hb. auto.
Qed.

Lemma orderBy_sorted (l : list Alert.t) :
  StronglySorted newerFirst (orderByScrapedAtDesc l).
Proof.
  unfold orderByScrapedAtDesc. induction l as [|b r IH]; simpl.
  - constructor.
  - apply insertDesc_sorted, IH.
Qed.

Lemma findMany_sorted (w : AlertWhere) (table : AlertTable.t) :
  StronglySorted newerFirst (findMany w table).
Proof.
  unfold findMany.
  pose proof (orderBy_sorted (List.filter (matchesWhere table w) (AlertTable.rows table))) as Hs.
  rewrite <- (take_drop 5) in Hs. apply StronglySorted_app_1_l in Hs. exact Hs.
Qed.

End FindMany.

Section ContentSearch.

Lemma strategy3_guard (searchText : string) :
  negb (Js.isEmpty searchText) && (strlen searchText >? 5) = (strlen searchText >? 5).
Proof. destruct searchText; reflexivity. Qed.



End ContentSearch.


(** ** The steps of the handler, one by one *)

Section Steps.

Variable env : Env.
Variable req : Request.

Implicit Types (w : World) (c : Call).

Lemma follows_refl w : follows w w.
Proof. exists []. rewrite app_nil_r. split; [reflexivity|constructor]. Qed.

Lemma follows_same_calls w w1 : calls w1 = calls w -> follows w w1.
Proof. intros H. exists []. rewrite app_nil_r. split; [exact H|constructor]. Qed.

Lemma follows_trans w1 w2 w3 : follows w1 w2 -> follows w2 w3 -> follows w1 w3.
Proof.
  intros [l1 [H1 F1]] [l2 [H2 F2]]. exists (l1 ++ l2).
  rewrite H2, H1, app_assoc. split; [reflexivity|]. apply Forall_app; auto.
Qed.

Lemma follows_logged w c : isEnsembleCall c = false -> follows w (logged c w).
Proof. intros H. exists [c]. split; [reflexivity|]. repeat constructor. exact H. Qed.

Lemma follows_withDb w w1 d : follows w w1 -> follows w (withDb d w1).
Proof. intros [l H]. exists l. exact H. Qed.

Lemma bind_eq {A B} (m : M A) (k : A -> M B) w :
  bind m k w =
  match m w with
  | (w1, Val a) => k a w1
  | (w1, Ret r) => (w1, Ret r)
  | (w1, Thrown e) => (w1, Thrown e)
  end.
Proof. reflexivity. Qed.

Lemma bind_val {A B} (m : M A) (k : A -> M B) w w1 a :
  m w = (w1, Val a) -> bind m k w = k a w1.
Proof. intros H. rewrite bind_eq, H. reflexivity. Qed.

(** A database call, by cases. *)
Lemma dbCall_eq {A} c (op : Db.t -> Outcome (A * Db.t)) w :
  dbCall env c op w =
  if dbRejects env c then (logged c w, Thrown "database error")
  else match op (db w) with
       | Resolves (a, d') => (withDb d' (logged c w), Val a)
       | Rejects e => (logged c w, Thrown e)
       end.
Proof.
  unfold dbCall, bind, logCall, getDb, putDb, pure, throw, logged, withDb. simpl.
  destruct (dbRejects env c); [reflexivity|]. simpl.
  destruct (op (db w)) as [[a d']|e]; reflexivity.
Qed.

Lemma step1_eq w :
  step1RateLimiting env req w =
  (mkWorld (snd (checkRateLimit (now env) (clientIP req) (rateLimitStore w)))
           (db w) (calls w),
   if fst (checkRateLimit (now env) (clientIP req) (rateLimitStore w))
   then Val tt else Ret tooManyRequests).
Proof.
  unfold step1RateLimiting.
  destruct (checkRateLimit _ _ _) as [[] store']; reflexivity.
Qed.

Lemma step2_spec w :
  match step2Validation req w with
  | (w1, Val b) =>
      w1 = w /\ exists raw, requestJson req = JsonShaped raw
                            /\ verifyProductSchema raw = []
                            /\ b = sanitizeBody raw
  | (w1, Ret r) => w1 = w /\ isHandledError r
  | (w1, Thrown _) => False
  end.
Proof.
  unfold step2Validation, tryCatch, isHandledError.
  destruct (requestJson req) as [e|m|raw]; simpl.
  - repeat split; discriminate.
  - repeat split; discriminate.
  - destruct (verifyProductSchema raw) eqn:E; simpl.
    + split; [reflexivity|]. exists raw. auto.
    + repeat split; discriminate.
Qed.

Lemma step3_spec w :
  match step3Authentication env w with
  | (w1, Val session) =>
      w1 = logged CallAuth w /\ authOutcome env = Resolves (Some session)
  | (w1, Ret r) => w1 = logged CallAuth w /\ isHandledError r
  | (w1, Thrown e) => w1 = logged CallAuth w /\ authOutcome env = Rejects e
  end.
Proof.
  unfold step3Authentication, bind, logCall, await, isHandledError. simpl.
  destruct (authOutcome env) as [[session|]|e]; simpl; repeat split; discriminate.
Qed.

Lemma step4_spec (session : Session.t) w :
  match step4UserValidation env session w with
  | (w1, Val u) =>
      rateLimitStore w1 = rateLimitStore w
      /\ Db.nafdacAlerts (db w1) = Db.nafdacAlerts (db w)
      /\ validatedUser session w u
      /\ Db.users (db w1) !! Session.userId session = Some u
      /\ 1 <= User.pointsBalance u
      /\ follows w w1
  | (w1, Ret r) => isHandledError r /\ follows w w1
  | (w1, Thrown _) => False
  end.
Proof.
  unfold step4UserValidation, tryCatch, validatedUser, isHandledError.
  rewrite bind_eq, dbCall_eq.
  set (id := Session.userId session).
  assert (F1 : follows w (logged (CallUserFindUnique id) w))
    by (apply follows_logged; reflexivity).
  destruct (dbRejects env (CallUserFindUnique id)); simpl.
  { repeat split; try discriminate. exact F1. }
  destruct (Db.users (db w) !! id) as [u|] eqn:Hu.
  - rewrite bind_eq. simpl.
    destruct (Z.ltb_spec (User.pointsBalance u) 1); simpl.
    + repeat split; try discriminate. exact F1.
    + repeat split; trivial.
  - destruct (Js.truthy (Session.userEmail session)); simpl.
    + rewrite bind_eq, bind_eq, dbCall_eq. simpl.
      assert (F2 : follows w (logged (CallUserCreate id)
                                (withDb (db w) (logged (CallUserFindUnique id) w)))).
      { eapply follows_trans; [exact F1|]. apply (follows_logged (withDb _ _)). reflexivity. }
      destruct (dbRejects env (CallUserCreate id)); simpl.
      { repeat split; try discriminate. exact F2. }
      unfold Prisma.userCreate. simpl. fold id. rewrite Hu. simpl.
      repeat split; trivial; [apply lookup_insert_eq|lia].
    + repeat split; try discriminate. exact F1.
Qed.

Lemma requireProductInformation_spec (b : Body.t) w :
  match requireProductInformation b w with
  | (w1, Val _) => w1 = w /\ Js.isEmpty (Body.productName b) = false
  | (w1, Ret r) => w1 = w /\ isHandledError r
  | (w1, Thrown _) => False
  end.
Proof.
  unfold requireProductInformation, isHandledError.
  destruct (Js.isEmpty (Body.productName b)); simpl.
  - repeat split; discriminate.
  - destruct (Js.isEmpty (Body.productDescription b)); simpl; repeat split; discriminate.
Qed.

Lemma extractOcrText_spec (b : Body.t) w :
  exists w1, extractOcrText env b w = (w1, Val (ocrTextOf env b))
             /\ rateLimitStore w1 = rateLimitStore w /\ db w1 = db w
             /\ follows w w1.
Proof.
  unfold extractOcrText, ocrTextOf, tryCatch, bind, logCall, await.
  destruct (Body.images b) as [[|img imgs]|]; simpl;
    try (exists w; repeat split; apply follows_refl).
  destruct (ocrOutcome env) as [text|e]; simpl;
    (eexists; split; [reflexivity|]; repeat split;
     apply (follows_logged w (CallOcr (img :: imgs))); reflexivity).
Qed.

End Steps.

Section Search.

Variable env : Env.

Implicit Types (w : World) (b : Body.t).

Lemma queryAlerts_eq (q : AlertWhere) w :
  queryAlerts env q w =
  if dbRejects env (CallFindMany q)
  then (logged (CallFindMany q) w, Thrown "database error")
  else (logged (CallFindMany q) w, Val (findMany q (Db.nafdacAlerts (db w)))).
Proof.
  unfold queryAlerts. rewrite dbCall_eq.
  destruct (dbRejects env (CallFindMany q)); reflexivity.
Qed.

Lemma issueAll_app (qs1 qs2 : list AlertWhere) w :
  issueAll env (qs1 ++ qs2) w =
  match issueAll env qs1 w with
  | (w1, Val found1) =>
      match issueAll env qs2 w1 with
      | (w2, Val found2) => (w2, Val (found1 ++ found2))
      | other => other
      end
  | other => other
  end.
Proof.
  revert w. induction qs1 as [|q rest IH]; intros w; simpl.
  - destruct (issueAll env qs2 w) as [w2 [found| |]]; reflexivity.
  - destruct (dbRejects env (CallFindMany q)); [reflexivity|].
    rewrite IH. destruct (issueAll env rest _) as [w1 [found1|r|e]]; try reflexivity.
    destruct (issueAll env qs2 w1) as [w2 [found2|r|e]]; try reflexivity.
    rewrite app_assoc. reflexivity.
Qed.

Lemma issueAll_spec (qs : list AlertWhere) w :
  match issueAll env qs w with
  | (w1, Val found) =>
      found = resultsOf (Db.nafdacAlerts (db w)) qs
      /\ Forall (fun q => dbRejects env (CallFindMany q) = false) qs
      /\ w1 = mkWorld (rateLimitStore w) (db w) (calls w ++ map CallFindMany qs)
  | (w1, Ret _) => False
  | (w1, Thrown _) =>
      Exists (fun q => dbRejects env (CallFindMany q) = true) qs
      /\ rateLimitStore w1 = rateLimitStore w /\ db w1 = db w /\ follows w w1
  end.
Proof.
  revert w. induction qs as [|q rest IH]; intros w; simpl.
  - rewrite app_nil_r. destruct w. repeat split. constructor.
  - destruct (dbRejects env (CallFindMany q)) eqn:Hq.
    + repeat split; [left; exact Hq|apply follows_logged; reflexivity].
    + specialize (IH (logged (CallFindMany q) w)).
      destruct (issueAll env rest _) as [w1 [found|r|e]]; [| exact IH |].
      * destruct IH as (-> & Hall & ->). simpl.
        repeat split; [constructor; assumption|].
        rewrite <- app_assoc. reflexivity.
      * destruct IH as (Hex & Hs & Hd & Hf). repeat split; trivial.
        -- right. exact Hex.
        -- eapply follows_trans; [|exact Hf]. apply follows_logged. reflexivity.
Qed.

Lemma strategy1_issue b w : strategy1 env b w = issueAll env (batchQuery b) w.
Proof.
  unfold strategy1, batchQuery. destruct (Js.truthy _); [|reflexivity].
  rewrite queryAlerts_eq. simpl. rewrite app_nil_r.
  destruct (dbRejects env _); reflexivity.
Qed.

Lemma strategy2_issue b w : strategy2 env b w = issueAll env (productQuery b) w.
Proof.
  unfold strategy2, productQuery. destruct (_ && _); [|reflexivity].
  rewrite queryAlerts_eq. simpl. rewrite app_nil_r.
  destruct (dbRejects env _); reflexivity.
Qed.

Lemma strategy3_issue b (ocrText : string) w :
  strategy3 env (searchTextOf (Body.productName b) (Body.productDescription b)
                              (Body.userBatchNumber b) ocrText) w
  = issueAll env (contentQuery b ocrText) w.
Proof.
  unfold strategy3, contentQuery. destruct (_ && _); [|reflexivity].
  rewrite queryAlerts_eq. simpl. rewrite app_nil_r.
  destruct (dbRejects env _); reflexivity.
Qed.

(** The three strategies are the three (optional) queries, issued in
    this order. *)
Lemma allMatchesOf_issue b (ocrText : string) w :
  allMatchesOf env b ocrText w = issueAll env (searchQueries b ocrText) w.
Proof.
  unfold allMatchesOf, searchQueries. rewrite issueAll_app.
  rewrite bind_eq, strategy1_issue.
  destruct (issueAll env (batchQuery b) w) as [w1 [found1|r|e]]; try reflexivity.
  rewrite issueAll_app, bind_eq, strategy2_issue.
  destruct (issueAll env (productQuery b) w1) as [w2 [found2|r|e]]; try reflexivity.
  rewrite bind_eq, strategy3_issue.
  destruct (issueAll env (contentQuery b ocrText) w2) as [w3 [found3|r|e]]; reflexivity.
Qed.

End Search.

Section Respond.

Variable env : Env.
Variable req : Request.

Implicit Types (w : World) (b : Body.t).

Lemma decisionLogic_range (matchingAlerts : list Alert.t) (searchTime : Z) :
  75 <= Result.confidence (decisionLogic matchingAlerts searchTime) <= 100.
Proof.
  rewrite decisionLogic_confidence. destruct matchingAlerts as [|a r]; [lia|].
  pose proof (dynamicConfidence_values (a :: r) ltac:(discriminate)) as H.
  unfold confidenceValues in H. simpl in H. lia.
Qed.

(** Stage 3 leaves a result alone, and calls nobody, when its confidence
    is not strictly between 10 and 70. *)
Lemma stage3_skipped b (result : Result.t) w :
  70 <= Result.confidence result ->
  stage3EnsembleValidation env b result w = (w, Val result).
Proof.
  intros H. unfold stage3EnsembleValidation.
  destruct (Z.ltb_spec (Result.confidence result) 70); [lia|].
  rewrite andb_false_r. reflexivity.
Qed.

Lemma saveAndRespond_spec (session : Session.t) (user : User.t) b
    (result : Result.t) w :
  match saveAndRespond env session user b result w with
  | (w1, Val _) => False
  | (w1, Ret r) =>
      r = (if Result.confidence result =? 0 then safeResponse env user
           else successResponse env result user)
      /\ rateLimitStore w1 = rateLimitStore w
      /\ (exists stored,
            Db.users (db w) !! Session.userId session = Some stored
            /\ Db.users (db w1)
               = <[Session.userId session := User.decrement 1 stored]> (Db.users (db w)))
      /\ calls w1 = calls w ++ [CallUserUpdate (Session.userId session);
                                CallProductCheckCreate; CallCheckResultCreate]
  | (w1, Thrown _) => follows w w1
  end.
Proof.
  unfold saveAndRespond. set (id := Session.userId session).
  rewrite bind_eq, dbCall_eq.
  assert (F1 : follows w (logged (CallUserUpdate id) w))
    by (apply follows_logged; reflexivity).
  destruct (dbRejects env (CallUserUpdate id)); [exact F1|].
  unfold Prisma.userDecrement.
  destruct (Db.users (db w) !! id) as [stored|] eqn:Hu; [|exact F1].
  rewrite bind_eq, dbCall_eq.
  set (w1 := withDb _ (logged (CallUserUpdate id) w)).
  assert (F2 : follows w (logged CallProductCheckCreate w1)).
  { eapply follows_trans; [exact F1|]. apply (follows_logged w1). reflexivity. }
  destruct (dbRejects env CallProductCheckCreate); [exact F2|].
  unfold Prisma.productCheckCreate.
  set (w2 := withDb _ (logged CallProductCheckCreate w1)).
  assert (F3 : follows w (logged CallCheckResultCreate w2)).
  { eapply follows_trans; [exact F2|]. apply (follows_logged w2). reflexivity. }
  destruct (Result.confidence result =? 0);
    rewrite bind_eq, dbCall_eq;
    (destruct (dbRejects env CallCheckResultCreate); [exact F3|]);
    simpl; (repeat split; [|rewrite <- !app_assoc; reflexivity]);
    exists stored; split; reflexivity.
Qed.

(** The outcomes of the outer [try]: a handled error exit, the success
    response of a validated request, or a throw. *)
Lemma tryBlock_spec w :
  match tryBlock env req w with
  | (w1, Val _) => False
  | (w1, Ret r) =>
      follows w w1
      /\ (isHandledError r
          \/ exists raw session user,
               requestJson req = JsonShaped raw
               /\ verifyProductSchema raw = []
               /\ Js.isEmpty (Body.productName (sanitizeBody raw)) = false
               /\ authOutcome env = Resolves (Some session)
               /\ validatedUser session w user
               /\ 1 <= User.pointsBalance user
               /\ Db.users (db w1) !! Session.userId session
                  = Some (User.decrement 1 user)
               /\ r = successResponse env
                        (decisionLogic (uniqueAlerts (matchesFound env raw w))
                                       (elapsed env))
                        user)
  | (w1, Thrown _) => follows w w1
  end.
Proof.
  unfold tryBlock.
  (* step 1 *)
  rewrite bind_eq, step1_eq.
  set (w1 := mkWorld _ (db w) (calls w)).
  assert (F1 : follows w w1) by (apply follows_same_calls; reflexivity).
  destruct (fst (checkRateLimit _ _ _)).
  2:{ split; [exact F1|]. left. split; [reflexivity|discriminate]. }
  (* step 2 *)
  rewrite bind_eq. pose proof (step2_spec req w1) as H2.
  destruct (step2Validation req w1) as [w2 [b|r|e]]; [| |contradiction].
  2:{ destruct H2 as [-> H2]. auto. }
  destruct H2 as (-> & raw & Hjson & Hvalid & ->).
  (* step 3 *)
  rewrite bind_eq. pose proof (step3_spec env w1) as H3.
  destruct (step3Authentication env w1) as [w3 [session|r|e]];
    destruct H3 as [-> H3];
    assert (F3 : follows w (logged CallAuth w1))
      by (eapply follows_trans; [exact F1|apply follows_logged; reflexivity]);
    [|auto|exact F3].
  (* step 4 *)
  rewrite bind_eq. pose proof (step4_spec env session (logged CallAuth w1)) as H4.
  destruct (step4UserValidation env session _) as [w4 [user|r|e]]; [| |contradiction].
  2:{ destruct H4 as [H4 F4]. split; [eapply follows_trans; eassumption|auto]. }
  destruct H4 as (Hs4 & Ha4 & Hu4 & Hl4 & Hp4 & F4).
  assert (F4' : follows w w4) by (eapply follows_trans; eassumption).
  (* product information *)
  rewrite bind_eq. pose proof (requireProductInformation_spec (sanitizeBody raw) w4) as H5.
  destruct (requireProductInformation _ w4) as [w5 [[]|r|e]]; [| |contradiction].
  2:{ destruct H5 as [-> H5]. auto. }
  destruct H5 as [-> Hname].
  (* OCR *)
  rewrite bind_eq.
  destruct (extractOcrText_spec env (sanitizeBody raw) w4) as (w6 & -> & Hs6 & Hd6 & F6).
  assert (F6' : follows w w6) by (eapply follows_trans; eassumption).
  (* search *)
  rewrite bind_eq, allMatchesOf_issue.
  pose proof (issueAll_spec env (searchQueries (sanitizeBody raw)
                                   (ocrTextOf env (sanitizeBody raw))) w6) as H7.
  destruct (issueAll env _ w6) as [w7 [allMatches|r|e]]; [|contradiction|].
  2:{ destruct H7 as (_ & _ & _ & F7). eapply follows_trans; eassumption. }
  destruct H7 as (-> & Hall & ->).
  set (w7 := mkWorld _ _ _).
  assert (F7 : follows w w7).
  { eapply follows_trans; [exact F6'|]. eexists. split; [reflexivity|].
    apply Forall_forall. intros c [q [-> _]]%list_elem_of_fmap. reflexivity. }
  (* decision and stage 3 *)
  rewrite bind_eq, stage3_skipped
    by (match goal with
        | |- _ <= Result.confidence (decisionLogic ?l ?t) =>
            pose proof (decisionLogic_range l t); lia
        end).
  (* point deduction, rows, response *)
  set (result := decisionLogic _ _).
  pose proof (saveAndRespond_spec session user (sanitizeBody raw) result w7) as H8.
  destruct (saveAndRespond env session user _ result w7) as [w8 [r|r|e]];
    [contradiction| |eapply follows_trans; eassumption].
  destruct H8 as (-> & Hs8 & (stored & Hst & Hus) & Hc8).
  split.
  { eapply follows_trans; [exact F7|]. eexists. split; [exact Hc8|].
    repeat constructor. }
  right. exists raw, session, user.
  assert (Hstored : stored = user).
  { subst w7. simpl in Hst. rewrite Hd6, Hl4 in Hst. congruence. }
  assert (Hconf : (Result.confidence result =? 0) = false).
  { apply Z.eqb_neq. pose proof (decisionLogic_range
      (uniqueAlerts (resultsOf (Db.nafdacAlerts (db w6))
         (searchQueries (sanitizeBody raw) (ocrTextOf env (sanitizeBody raw)))))
      (elapsed env)). subst result. lia. }
  rewrite Hconf. subst result stored.
  repeat split; trivial.
  - rewrite Hus. apply lookup_insert_eq.
  - unfold matchesFound. rewrite Hd6, Ha4. reflexivity.
Qed.

End Respond.

(** ** The handler as a whole *)

Section Whole.

Variable env : Env.
Variable req : Request.

Implicit Types (w : World).

Lemma POST_eq w :
  POST env req w =
  match tryBlock env req w with
  | (w1, Val r) => (w1, r)
  | (w1, Ret r) => (w1, r)
  | (w1, Thrown _) => (w1, verificationFailed)
  end.
Proof. reflexivity. Qed.

Lemma uniqueAlerts_nil (allMatches : list Alert.t) :
  uniqueAlerts allMatches = [] <-> allMatches = [].
Proof.
  unfold uniqueAlerts. rewrite dedupById_keepFirst.
  destruct allMatches as [|a r]; simpl; split; trivial; discriminate.
Qed.

(** Every run of the handler: where its response comes from. *)
Lemma POST_spec w :
  follows w (fst (POST env req w))
  /\ (isVerification (snd (POST env req w)) = false
      \/ exists raw session user,
           requestJson req = JsonShaped raw
           /\ verifyProductSchema raw = []
           /\ Js.isEmpty (Body.productName (sanitizeBody raw)) = false
           /\ authOutcome env = Resolves (Some session)
           /\ validatedUser session w user
           /\ 1 <= User.pointsBalance user
           /\ Db.users (db (fst (POST env req w))) !! Session.userId session
              = Some (User.decrement 1 user)
           /\ snd (POST env req w)
              = successResponse env
                  (decisionLogic (uniqueAlerts (matchesFound env raw w)) (elapsed env))
                  user).
Proof.
  rewrite POST_eq. pose proof (tryBlock_spec env req w) as H.
  destruct (tryBlock env req w) as [w1 [r|r|e]]; simpl; [contradiction| |].
  - destruct H as [F [[Hv _]|H]]; auto.
  - auto.
Qed.

Lemma POST_status_500 w :
  status (snd (POST env req w)) = 500
  <-> exists w1 e, tryBlock env req w = (w1, Thrown e).
Proof.
  rewrite POST_eq. pose proof (tryBlock_spec env req w) as H.
  destruct (tryBlock env req w) as [w1 [r|r|e]]; simpl; [contradiction| |].
  - split.
    + intros Hs. exfalso. destruct H as [_ [[_ Hne]|H]]; [auto|].
      destruct H as (raw & session & user & _ & _ & _ & _ & _ & _ & _ & ->).
      discriminate.
    + intros (w2 & e & [=]).
  - split; [eauto|reflexivity].
Qed.

End Whole.

(** C1.  For a request with body [raw] that is answered with a
    verification response, the response says [isCounterfeit = true] exactly
    when the search found at least one alert ([matchesFound], the
    concatenated results of the strategies, or equally its deduplication);
    when the search found none it says [isCounterfeit = false]. *)
Theorem counterfeit_iff_alert_found (env : Env) (req : Request) (w : World)
    (raw : Body.t) :
  requestJson req = JsonShaped raw ->
  isVerification (snd (POST env req w)) = true ->
  let found := matchesFound env raw w in
  let verdict := payloadIsCounterfeit (payload (snd (POST env req w))) in
  (verdict = Some true <-> found <> [])
  /\ (verdict = Some true <-> uniqueAlerts found <> [])
  /\ (found = [] -> verdict = Some false)
  /\ (verdict = Some true \/ verdict = Some false).
Proof.
  intros Hjson Hver. cbv zeta.
  destruct (POST_spec env req w) as [_ [Hno|H]]; [congruence|].
  destruct H as (raw' & session & user & Hjson' & _ & _ & _ & _ & _ & _ & ->).
  assert (raw' = raw) as -> by congruence.
  unfold successResponse. simpl.
  pose proof (uniqueAlerts_nil (matchesFound env raw w)) as Hnil.
  destruct (uniqueAlerts (matchesFound env raw w)) as [|a r] eqn:E; simpl.
  - apply proj1 in Hnil. rewrite (Hnil eq_refl).
    repeat split; try discriminate; try congruence. right. reflexivity.
  - assert (Hne : matchesFound env raw w <> []).
    { intros Hm. apply Hnil in Hm. discriminate. }
    repeat split; try discriminate; try congruence; auto.
Qed.

(** C5.  In every run of the handler no call to the ensemble analysis is
    issued, and a verification response is never the object of the
    [confidence === 0] branch: it is the general response, built from the
    decision on the deduplicated matches.  Its confidence is 100 with
    [isCounterfeit = false] when nothing matched, and one of 75, 80, 85,
    90, 95 when something did. *)
Theorem confidence_branches_unreachable (env : Env) (req : Request) (w : World) :
  let w' := fst (POST env req w) in
  let r := snd (POST env req w) in
  (exists more, calls w' = calls w ++ more
                /\ Forall (fun c => isEnsembleCall c = false) more)
  /\ (forall resultId newBalance timestamp,
        payload r <> SafePayload resultId newBalance timestamp)
  /\ (isVerification r = true ->
      exists raw result newBalance,
        requestJson req = JsonShaped raw
        /\ payload r = ResultPayload (freshId env) result newBalance (isoNow env)
        /\ result = decisionLogic (uniqueAlerts (matchesFound env raw w)) (elapsed env)
        /\ (Result.confidence result = 100
            \/ In (Result.confidence result) confidenceValues)
        /\ (matchesFound env raw w = [] ->
            Result.isCounterfeit result = false /\ Result.confidence result = 100)
        /\ (matchesFound env raw w <> [] ->
            In (Result.confidence result) confidenceValues)).
Proof.
  cbv zeta. destruct (POST_spec env req w) as [F H]. split; [exact F|].
  split.
  - intros resultId newBalance timestamp Hp. destruct H as [Hno|H].
    + unfold isVerification in Hno. rewrite Hp in Hno. discriminate.
    + destruct H as (raw & session & user & _ & _ & _ & _ & _ & _ & _ & Hr).
      rewrite Hr in Hp. discriminate.
  - intros Hver. destruct H as [Hno|H]; [congruence|].
    destruct H as (raw & session & user & Hjson & _ & _ & _ & _ & _ & _ & ->).
    exists raw, (decisionLogic (uniqueAlerts (matchesFound env raw w)) (elapsed env)),
           (User.pointsBalance user - 1).
    split; [exact Hjson|]. split; [reflexivity|]. split; [reflexivity|].
    pose proof (uniqueAlerts_nil (matchesFound env raw w)) as Hnil.
    rewrite decisionLogic_confidence.
    destruct (uniqueAlerts (matchesFound env raw w)) as [|a l] eqn:E.
    + split; [left; reflexivity|]. split; [intros _; split; reflexivity|].
      intros Hne. exfalso. apply Hne, Hnil. reflexivity.
    + assert (Hv : In (dynamicConfidence (a :: l)) confidenceValues)
        by (apply dynamicConfidence_values; discriminate).
      split; [right; exact Hv|]. split; [|intros _; exact Hv].
      intros Hm. apply Hnil in Hm. discriminate.
Qed.

Section Forward.

Variable env : Env.
Variable req : Request.

Implicit Types (w : World).

Lemma step2_valid (raw : Body.t) w :
  requestJson req = JsonShaped raw -> verifyProductSchema raw = [] ->
  step2Validation req w = (w, Val (sanitizeBody raw)).
Proof.
  intros Hjson Hvalid. unfold step2Validation, tryCatch.
  rewrite Hjson, Hvalid. reflexivity.
Qed.

Lemma step3_session (session : Session.t) w :
  authOutcome env = Resolves (Some session) ->
  step3Authentication env w = (logged CallAuth w, Val session).
Proof.
  intros Hauth. unfold step3Authentication, bind, logCall, await.
  rewrite Hauth. reflexivity.
Qed.

Lemma step3_rejects (e : string) w :
  authOutcome env = Rejects e ->
  step3Authentication env w = (logged CallAuth w, Thrown e).
Proof.
  intros Hauth. unfold step3Authentication, bind, logCall, await.
  rewrite Hauth. reflexivity.
Qed.

Lemma step4_insufficient (session : Session.t) (stored : User.t) w :
  dbRejects env (CallUserFindUnique (Session.userId session)) = false ->
  Db.users (db w) !! Session.userId session = Some stored ->
  User.pointsBalance stored < 1 ->
  step4UserValidation env session w
  = (logged (CallUserFindUnique (Session.userId session)) w, Ret insufficientPoints).
Proof.
  intros Hdb Hu Hlow. unfold step4UserValidation, tryCatch.
  rewrite bind_eq, dbCall_eq, Hdb. simpl. rewrite Hu, bind_eq. simpl.
  destruct (Z.ltb_spec (User.pointsBalance stored) 1); [|lia].
  destruct w; reflexivity.
Qed.

(** A request that passes the limiter and validation and whose session
    belongs to a stored user without points. *)
Lemma POST_insufficient (raw : Body.t) (session : Session.t) (stored : User.t) w :
  fst (checkRateLimit (now env) (clientIP req) (rateLimitStore w)) = true ->
  requestJson req = JsonShaped raw -> verifyProductSchema raw = [] ->
  authOutcome env = Resolves (Some session) ->
  dbRejects env (CallUserFindUnique (Session.userId session)) = false ->
  Db.users (db w) !! Session.userId session = Some stored ->
  User.pointsBalance stored < 1 ->
  POST env req w
  = (mkWorld (snd (checkRateLimit (now env) (clientIP req) (rateLimitStore w)))
             (db w)
             (calls w ++ [CallAuth; CallUserFindUnique (Session.userId session)]),
     insufficientPoints).
Proof.
  intros Hrate Hjson Hvalid Hauth Hdb Hu Hlow.
  rewrite POST_eq. unfold tryBlock.
  rewrite bind_eq, step1_eq, Hrate.
  rewrite bind_eq, (step2_valid raw) by assumption.
  rewrite bind_eq, (step3_session session) by assumption.
  rewrite bind_eq, (step4_insufficient session stored) by assumption.
  unfold logged. simpl. rewrite <- app_assoc. reflexivity.
Qed.

(** A rejection of [auth()] is not handled before the outer [catch]. *)
Lemma POST_auth_rejects (raw : Body.t) (e : string) w :
  fst (checkRateLimit (now env) (clientIP req) (rateLimitStore w)) = true ->
  requestJson req = JsonShaped raw -> verifyProductSchema raw = [] ->
  authOutcome env = Rejects e ->
  snd (POST env req w) = verificationFailed.
Proof.
  intros Hrate Hjson Hvalid Hauth.
  rewrite POST_eq. unfold tryBlock.
  rewrite bind_eq, step1_eq, Hrate.
  rewrite bind_eq, (step2_valid raw) by assumption.
  rewrite bind_eq, (step3_rejects e) by assumption.
  reflexivity.
Qed.

(** A rejection of [request.json()] is handled by the inner [catch]. *)
Lemma POST_json_rejects (e : string) w :
  fst (checkRateLimit (now env) (clientIP req) (rateLimitStore w)) = true ->
  requestJson req = JsonRejects e ->
  status (snd (POST env req w)) = 400.
Proof.
  intros Hrate Hjson.
  rewrite POST_eq. unfold tryBlock.
  rewrite bind_eq, step1_eq, Hrate.
  rewrite bind_eq. unfold step2Validation, tryCatch. rewrite Hjson. reflexivity.
Qed.

(** A rejection of the user lookup is handled by the inner [catch]. *)
Lemma POST_lookup_rejects (raw : Body.t) (session : Session.t) w :
  fst (checkRateLimit (now env) (clientIP req) (rateLimitStore w)) = true ->
  requestJson req = JsonShaped raw -> verifyProductSchema raw = [] ->
  authOutcome env = Resolves (Some session) ->
  dbRejects env (CallUserFindUnique (Session.userId session)) = true ->
  status (snd (POST env req w)) = 503.
Proof.
  intros Hrate Hjson Hvalid Hauth Hdb.
  rewrite POST_eq. unfold tryBlock.
  rewrite bind_eq, step1_eq, Hrate.
  rewrite bind_eq, (step2_valid raw) by assumption.
  rewrite bind_eq, (step3_session session) by assumption.
  rewrite bind_eq. unfold step4UserValidation, tryCatch.
  rewrite bind_eq, dbCall_eq, Hdb. reflexivity.
Qed.

End Forward.

(** C6.  An error that reaches the outer [catch] is answered with the
    response [verificationFailed]: status 500 and the message
    [Verification failed].  This is the only way in which the handler
    answers 500: its response has status 500 exactly when the body of the
    outer [try] threw.  A rejection of [auth()] is such an error; a
    rejection of [request.json()] or of the user lookup is not, since an
    inner [catch] answers it with 400 or 503. *)
Theorem errors_caught_as_500 (env : Env) (req : Request) (w : World) :
  (forall w1 e, tryBlock env req w = (w1, Thrown e) ->
                POST env req w = (w1, verificationFailed))
  /\ status verificationFailed = 500
  /\ payload verificationFailed
     = ErrorPayload "Verification failed"
         (Some "An error occurred during product verification. Please try again.")
  /\ (status (snd (POST env req w)) = 500
      <-> exists w1 e, tryBlock env req w = (w1, Thrown e))
  /\ (fst (checkRateLimit (now env) (clientIP req) (rateLimitStore w)) = true ->
      (forall raw e,
          requestJson req = JsonShaped raw -> verifyProductSchema raw = [] ->
          authOutcome env = Rejects e ->
          snd (POST env req w) = verificationFailed)
      /\ (forall e, requestJson req = JsonRejects e ->
                    status (snd (POST env req w)) = 400)
      /\ (forall raw session,
            requestJson req = JsonShaped raw -> verifyProductSchema raw = [] ->
            authOutcome env = Resolves (Some session) ->
            dbRejects env (CallUserFindUnique (Session.userId session)) = true ->
            status (snd (POST env req w)) = 503)).
Proof.
  split; [|split; [reflexivity|split; [reflexivity|split; [apply POST_status_500|]]]].
  - intros w1 e H. rewrite POST_eq, H. reflexivity.
  - intros Hrate. split; [|split].
    + intros raw e Hjson Hvalid Hauth. eapply POST_auth_rejects; eassumption.
    + intros e Hjson. eapply POST_json_rejects; eassumption.
    + intros raw session Hjson Hvalid Hauth Hdb. eapply POST_lookup_rejects; eassumption.
Qed.

(** C9, as the code has it.  Every verification costs exactly 1 point.
    - A request that has passed the rate limiter, validation and
      authentication, from a stored user whose balance is below 1, is
      answered 400 [Insufficient points]; the database is as it was and
      the only calls issued are the authentication and the user lookup,
      so no search has run.  The one state that has changed is the rate
      limiter's entry for the client, in step 1.
    - A request answered with a verification response leaves the user's
      stored balance at the validated balance minus 1 and reports that
      number as [newBalance]; the validated balance is the stored balance
      for a user who was stored, and the default 5 for a user created by
      this request. *)
Theorem one_point_per_verification (env : Env) (req : Request) (w : World) :
  (forall raw session stored,
      fst (checkRateLimit (now env) (clientIP req) (rateLimitStore w)) = true ->
      requestJson req = JsonShaped raw -> verifyProductSchema raw = [] ->
      authOutcome env = Resolves (Some session) ->
      dbRejects env (CallUserFindUnique (Session.userId session)) = false ->
      Db.users (db w) !! Session.userId session = Some stored ->
      User.pointsBalance stored < 1 ->
      snd (POST env req w) = insufficientPoints
      /\ status insufficientPoints = 400
      /\ db (fst (POST env req w)) = db w
      /\ calls (fst (POST env req w))
         = calls w ++ [CallAuth; CallUserFindUnique (Session.userId session)]
      /\ rateLimitStore (fst (POST env req w))
         = snd (checkRateLimit (now env) (clientIP req) (rateLimitStore w)))
  /\ (isVerification (snd (POST env req w)) = true ->
      exists session user,
        authOutcome env = Resolves (Some session)
        /\ validatedUser session w user
        /\ 1 <= User.pointsBalance user
        /\ (Db.users (db (fst (POST env req w))) !! Session.userId session)
           = Some (User.decrement 1 user)
        /\ User.pointsBalance (User.decrement 1 user) = User.pointsBalance user - 1
        /\ payloadNewBalance (payload (snd (POST env req w)))
           = Some (User.pointsBalance user - 1)).
Proof.
  split.
  - intros raw session stored Hrate Hjson Hvalid Hauth Hdb Hu Hlow.
    rewrite (POST_insufficient env req raw session stored) by assumption.
    repeat split.
  - intros Hver. destruct (POST_spec env req w) as [_ [Hno|H]]; [congruence|].
    destruct H as (raw & session & user & _ & _ & _ & Hauth & Hu & Hp & Hdb & Hr).
    exists session, user. rewrite Hr. repeat split; assumption.
Qed.

Section Strategies.

Lemma find_app (p : Alert.t -> bool) (l1 l2 : list Alert.t) :
  List.find p (l1 ++ l2) = orFound (List.find p l1) (List.find p l2).
Proof.
  induction l1 as [|a r IH]; simpl; [reflexivity|].
  destruct (p a); [reflexivity|exact IH].
Qed.

Lemma resultsOf_at_most_one (table : AlertTable.t) (qs : list AlertWhere) :
  (length qs <= 1)%nat ->
  (length (resultsOf table qs) <= 5)%nat
  /\ StronglySorted newerFirst (resultsOf table qs).
Proof.
  unfold resultsOf. destruct qs as [|q [|q' r]]; simpl; intros H.
  - split; [lia|constructor].
  - rewrite app_nil_r. split; [apply length_findMany|apply findMany_sorted].
  - lia.
Qed.

Lemma resultsOf_app (table : AlertTable.t) (qs1 qs2 : list AlertWhere) :
  resultsOf table (qs1 ++ qs2) = resultsOf table qs1 ++ resultsOf table qs2.
Proof. unfold resultsOf. rewrite map_app, concat_app. reflexivity. Qed.

Lemma batchQuery_length (b : Body.t) : (length (batchQuery b) <= 1)%nat.
Proof. unfold batchQuery. destruct (Js.truthy _); simpl; lia. Qed.

Lemma productQuery_length (b : Body.t) : (length (productQuery b) <= 1)%nat.
Proof. unfold productQuery. destruct (_ && _); simpl; lia. Qed.

Lemma contentQuery_length (b : Body.t) (ocrText : string) :
  (length (contentQuery b ocrText) <= 1)%nat.
Proof. unfold contentQuery. destruct (_ && _); simpl; lia. Qed.

Lemma batchQuery_guard (b : Body.t) :
  batchQuery b = [] <-> Js.truthy (Body.userBatchNumber b) = false.
Proof. unfold batchQuery. destruct (Js.truthy _); split; congruence. Qed.

Lemma productQuery_guard (b : Body.t) :
  productQuery b = [] <-> strlen (Body.productName b) <= 3.
Proof.
  unfold productQuery.
  replace (negb (Js.isEmpty (Body.productName b)) && (strlen (Body.productName b) >? 3))
    with (strlen (Body.productName b) >? 3)
    by (destruct (Body.productName b); reflexivity).
  rewrite Z.gtb_ltb. destruct (Z.ltb_spec 3 (strlen (Body.productName b)));
    split; try congruence; lia.
Qed.

Lemma contentQuery_guard (b : Body.t) (ocrText : string) :
  contentQuery b ocrText = []
  <-> strlen (searchTextOf (Body.productName b) (Body.productDescription b)
                           (Body.userBatchNumber b) ocrText) <= 5.
Proof.
  unfold contentQuery. rewrite strategy3_guard.
  set (searchText := searchTextOf _ _ _ _).
  rewrite Z.gtb_ltb. destruct (Z.ltb_spec 5 (strlen searchText));
    split; try congruence; lia.
Qed.

End Strategies.

(** C2, as the code has it.  The matching engine runs its three strategies
    in a fixed order, and each strategy issues its query only when its
    guard holds: the batch query when a batch number is given, the title
    query when the name is longer than 3 characters, the content query
    when the combined text is longer than 5 characters.  When no query
    rejects, the queries issued are these, in this order, and nothing
    else; what each strategy finds is at most 5 alerts, most recently
    scraped first; the matches are concatenated batch, then product, then
    content; and for every id the deduplication keeps the alert of the
    earliest strategy that found it. *)
Theorem strategies_in_order (env : Env) (b : Body.t) (ocrText : string) (w : World) :
  Forall (fun q => dbRejects env (CallFindMany q) = false) (searchQueries b ocrText) ->
  let table := Db.nafdacAlerts (db w) in
  let batchMatches := resultsOf table (batchQuery b) in
  let productMatches := resultsOf table (productQuery b) in
  let contentMatches := resultsOf table (contentQuery b ocrText) in
  allMatchesOf env b ocrText w
  = (mkWorld (rateLimitStore w) (db w)
             (calls w ++ map CallFindMany
                           (batchQuery b ++ productQuery b ++ contentQuery b ocrText)),
     Val (batchMatches ++ productMatches ++ contentMatches))
  /\ (batchQuery b = [] <-> Js.truthy (Body.userBatchNumber b) = false)
  /\ (productQuery b = [] <-> strlen (Body.productName b) <= 3)
  /\ (contentQuery b ocrText = []
      <-> strlen (searchTextOf (Body.productName b) (Body.productDescription b)
                               (Body.userBatchNumber b) ocrText) <= 5)
  /\ Forall (fun found => (length found <= 5)%nat /\ StronglySorted newerFirst found)
            [batchMatches; productMatches; contentMatches]
  /\ (forall x,
        List.find (hasId x) (dedupById (batchMatches ++ productMatches ++ contentMatches))
        = orFound (List.find (hasId x) batchMatches)
            (orFound (List.find (hasId x) productMatches)
                     (List.find (hasId x) contentMatches))).
Proof.
  intros Hok. cbv zeta.
  split; [|split; [apply batchQuery_guard|split; [apply productQuery_guard|
           split; [apply contentQuery_guard|split]]]].
  - rewrite allMatchesOf_issue.
    pose proof (issueAll_spec env (searchQueries b ocrText) w) as H.
    destruct (issueAll env _ w) as [w1 [found|r|e]]; [|contradiction|].
    + destruct H as (-> & _ & ->). unfold searchQueries.
      rewrite !resultsOf_app. reflexivity.
    + destruct H as (Hex & _). exfalso.
      apply Exists_exists in Hex as (q & Hq & Hrej).
      rewrite Forall_forall in Hok. rewrite (Hok q Hq) in Hrej. discriminate.
  - repeat apply Forall_cons_2; [..|apply Forall_nil_2];
      apply resultsOf_at_most_one.
    + apply batchQuery_length.
    + apply productQuery_length.
    + apply contentQuery_length.
  - intros x. rewrite dedupById_keepFirst, keepFirst_find. simpl.
    rewrite !find_app. reflexivity.
Qed.

(** ** The properties at work on the sample data *)

Lemma counterfeit_iff_alert_found_witness :
  isVerification (snd Sample.paracetamolRun) = true
  /\ matchesFound (Sample.environment "u1") Sample.paracetamol Sample.world <> []
  /\ payloadIsCounterfeit (payload (snd Sample.paracetamolRun)) = Some true.
Proof.
  assert (Hver : isVerification (snd Sample.paracetamolRun) = true)
    by (vm_compute; reflexivity).
  assert (Hne : matchesFound (Sample.environment "u1") Sample.paracetamol Sample.world <> [])
    by (vm_compute; discriminate).
  split; [exact Hver|]. split; [exact Hne|].
  destruct (counterfeit_iff_alert_found (Sample.environment "u1")
              (Sample.requestOf Sample.paracetamol) Sample.world Sample.paracetamol
              eq_refl Hver) as [H _].
  apply H. exact Hne.
Defined.

(** A verification request without a batch number issues two queries, not
    three. *)
Lemma three_queries_counterexample :
  isVerification (snd Sample.aspirinRun) = true
  /\ List.filter isFindMany (calls (fst Sample.aspirinRun))
     = [CallFindMany (TitleContains "aspirin");
        CallFindMany (ContentContains (Some "aspirin"))]
  /\ ~ threeQueries (List.filter isFindMany (calls (fst Sample.aspirinRun))).
Proof.
  assert (Hcalls : List.filter isFindMany (calls (fst Sample.aspirinRun))
                   = [CallFindMany (TitleContains "aspirin");
                      CallFindMany (ContentContains (Some "aspirin"))])
    by (vm_compute; reflexivity).
  split; [vm_compute; reflexivity|]. split; [exact Hcalls|].
  rewrite Hcalls. intros (batch & needle & content & H). discriminate.
Qed.

Lemma strategies_in_order_witness :
  fst (allMatchesOf (Sample.environment "u1") Sample.paracetamol "" Sample.world)
  = mkWorld ∅ Sample.database
      [CallFindMany (BatchHas "PC2024001");
       CallFindMany (TitleContains "paracetamol");
       CallFindMany (ContentContains (Some "paracetamol"))].
Proof.
  destruct (strategies_in_order (Sample.environment "u1") Sample.paracetamol ""
              Sample.world) as [H _].
  - apply Forall_forall. intros q _. reflexivity.
  - rewrite H. vm_compute. reflexivity.
Defined.

Lemma confidence_branches_unreachable_witness :
  isVerification (snd Sample.aspirinRun) = true
  /\ payloadConfidence (payload (snd Sample.aspirinRun)) = Some 100.
Proof.
  assert (Hver : isVerification (snd Sample.aspirinRun) = true)
    by (vm_compute; reflexivity).
  split; [exact Hver|].
  destruct (confidence_branches_unreachable (Sample.environment "u1")
              (Sample.requestOf Sample.aspirin) Sample.world) as (_ & _ & H).
  destruct (H Hver) as (raw & result & newBalance & Hjson & Hp & _ & _ & Hnone & _).
  change (payload (snd Sample.aspirinRun)
          = ResultPayload "scan1" result newBalance "2025-01-01T00:00:00.000Z") in Hp.
  rewrite Hp. simpl. f_equal. apply Hnone.
  injection Hjson as <-. vm_compute. reflexivity.
Defined.

Lemma errors_caught_as_500_witness :
  snd (POST Sample.searchDown (Sample.requestOf Sample.aspirin) Sample.world)
  = verificationFailed.
Proof.
  destruct (errors_caught_as_500 Sample.searchDown (Sample.requestOf Sample.aspirin)
              Sample.world) as [H _].
  rewrite (H (fst (tryBlock Sample.searchDown (Sample.requestOf Sample.aspirin)
                            Sample.world))
             "database error").
  - reflexivity.
  - vm_compute. reflexivity.
Defined.


(** Bob is refused for his points, and the limiter's store is not what it
    was before his request. *)
Lemma rejected_after_state_change_counterexample :
  snd Sample.bobRun = insufficientPoints
  /\ rateLimitStore (fst Sample.bobRun) <> rateLimitStore Sample.world.
Proof.
  split; [vm_compute; reflexivity|].
  intros H. apply (f_equal (fun store => store !! "10.0.0.1")) in H.
  vm_compute in H. discriminate.
Qed.

Lemma one_point_per_verification_witness :
  db (fst Sample.bobRun) = db Sample.world
  /\ payloadNewBalance (payload (snd Sample.paracetamolRun)) = Some 2.
Proof.
  split.
  - destruct (one_point_per_verification (Sample.environment "u2")
                (Sample.requestOf Sample.aspirin) Sample.world) as [H _].
    apply (H Sample.aspirin (Sample.session "u2") Sample.bob);
      first [reflexivity | vm_compute; reflexivity | simpl; lia].
  - destruct (one_point_per_verification (Sample.environment "u1")
                (Sample.requestOf Sample.paracetamol) Sample.world) as [_ H].
    destruct H as (session & user & Hauth & Hu & _ & _ & _ & Hnb);
      [vm_compute; reflexivity|].
    change (payloadNewBalance (payload (snd Sample.paracetamolRun))
            = Some (User.pointsBalance user - 1)) in Hnb.
    rewrite Hnb. injection Hauth as <-. vm_compute in Hu. rewrite Hu. reflexivity.
Defined.

(** * Further properties of the code *)

(** ** The rate limiter: isolation of clients and exact quota *)

Section RateLimitMore.

Implicit Types (store : gmap string RateEntry) (ip : string) (now : Z).

(** What [checkRateLimit] does for a client depends on the entry of that
    client only. *)
Lemma checkRateLimit_local now ip store store' :
  store !! ip = store' !! ip ->
  fst (checkRateLimit now ip store) = fst (checkRateLimit now ip store')
  /\ snd (checkRateLimit now ip store) !! ip = snd (checkRateLimit now ip store') !! ip.
Proof.
  intros H. unfold checkRateLimit. rewrite <- H.
  destruct (store !! ip) as [e|] eqn:E; simpl;
    repeat match goal with |- context [if ?b then _ else _] => destruct b; simpl end;
    rewrite ?lookup_insert_eq; split; congruence.
Qed.

Lemma accepted_local ip (reqs : list (string * Z)) store store' :
  store !! ip = store' !! ip ->
  accepted ip reqs store = accepted ip reqs store'.
Proof.
  revert store store'. induction reqs as [|[ip' now] rest IH]; intros store store' H; simpl.
  - reflexivity.
  - destruct (checkRateLimit now ip' store) as [ok s1] eqn:E1.
    destruct (checkRateLimit now ip' store') as [ok' s1'] eqn:E1'.
    destruct (String.eqb_spec ip' ip) as [->|Hne].
    + destruct (checkRateLimit_local now ip store store' H) as [Hf Hs].
      rewrite E1, E1' in Hf, Hs. simpl in Hf, Hs. subst ok'.
      rewrite (IH s1 s1' Hs). reflexivity.
    + rewrite !andb_false_r. apply IH.
      replace s1 with (snd (checkRateLimit now ip' store)) by (rewrite E1; reflexivity).
      replace s1' with (snd (checkRateLimit now ip' store')) by (rewrite E1'; reflexivity).
      rewrite !checkRateLimit_other by assumption. exact H.
Qed.

Lemma entryOnly_lookup ip store : entryOnly ip store !! ip = store !! ip.
Proof.
  unfold entryOnly. destruct (store !! ip) as [e|] eqn:E.
  - apply lookup_singleton_eq.
  - apply lookup_empty.
Qed.

Lemma accepted_requestsOf ip (reqs : list (string * Z)) store :
  accepted ip reqs store = accepted ip (requestsOf ip reqs) store.
Proof.
  unfold requestsOf.
  revert store. induction reqs as [|[ip' now] rest IH]; intros store; simpl.
  - reflexivity.
  - destruct (checkRateLimit now ip' store) as [ok s1] eqn:E1.
    destruct (String.eqb_spec ip' ip) as [->|Hne]; simpl.
    + rewrite E1, String.eqb_refl. rewrite (IH s1). reflexivity.
    + rewrite andb_false_r, Z.add_0_l, <- IH. apply accepted_local.
      replace s1 with (snd (checkRateLimit now ip' store)) by (rewrite E1; reflexivity).
      apply checkRateLimit_other. exact Hne.
Qed.

(** Inside a window the limiter refuses nothing while the counter has
    room: the number accepted is the number asked, capped by the room. *)
Lemma accepted_in_window_exact ip (reqs : list (string * Z)) store e :
  store !! ip = Some e ->
  1 <= count e <= RATE_LIMIT_MAX_REQUESTS ->
  Forall (fun r => fst r = ip -> snd r <= resetTime e) reqs ->
  accepted ip reqs store
  = Z.min (RATE_LIMIT_MAX_REQUESTS - count e) (Z.of_nat (length (requestsOf ip reqs))).
Proof.
  revert store e. induction reqs as [|[ip' now] rest IH]; intros store e He Hc Hall; simpl.
  - lia.
  - apply Forall_cons in Hall as [Hhd Hall]. simpl in Hhd.
    destruct (checkRateLimit now ip' store) as [ok store'] eqn:Hstep.
    unfold requestsOf in *. simpl.
    destruct (String.eqb_spec ip' ip) as [->|Hne]; simpl.
    + specialize (Hhd eq_refl).
      destruct (Z.lt_ge_cases (count e) RATE_LIMIT_MAX_REQUESTS) as [Hroom|Hfull].
      * rewrite (checkRateLimit_room _ _ _ e) in Hstep by assumption.
        injection Hstep as <- <-. simpl.
        rewrite (IH (<[ip := mkRateEntry (count e + 1) (resetTime e)]> store)
                    (mkRateEntry (count e + 1) (resetTime e)));
          [simpl; lia|apply lookup_insert_eq|simpl; lia|exact Hall].
      * rewrite (checkRateLimit_full _ _ _ e) in Hstep by assumption.
        injection Hstep as <- <-. simpl.
        rewrite (IH store e He Hc Hall). lia.
    + rewrite andb_false_r.
      assert (Hkeep : store' !! ip = Some e).
      { replace store' with (snd (checkRateLimit now ip' store)) by (rewrite Hstep; reflexivity).
        rewrite checkRateLimit_other by assumption. exact He. }
      rewrite (IH store' e Hkeep Hc Hall). lia.
Qed.

(** A client without an entry: the first of its requests opens a window
    that outlasts the interval, so at most ten are accepted. *)
Lemma accepted_from_no_entry ip t0 (reqs : list (string * Z)) store :
  store !! ip = None ->
  Forall (fun r => fst r = ip -> t0 <= snd r <= t0 + RATE_LIMIT_WINDOW) reqs ->
  accepted ip reqs store <= RATE_LIMIT_MAX_REQUESTS.
Proof.
  revert store. induction reqs as [|[ip' now] rest IH]; intros store Hnone Hall; simpl.
  - unfold RATE_LIMIT_MAX_REQUESTS. lia.
  - apply Forall_cons in Hall as [Hhd Hall]. simpl in Hhd.
    destruct (checkRateLimit now ip' store) as [ok store'] eqn:Hstep.
    destruct (String.eqb_spec ip' ip) as [->|Hne].
    + specialize (Hhd eq_refl).
      rewrite checkRateLimit_fresh in Hstep by (unfold opensWindow; rewrite Hnone; exact I).
      injection Hstep as <- <-. simpl.
      assert (Hle := accepted_in_window ip rest
                       (<[ip := mkRateEntry 1 (now + RATE_LIMIT_WINDOW)]> store)
                       (mkRateEntry 1 (now + RATE_LIMIT_WINDOW))
                       (lookup_insert_eq _ _ _)).
      simpl in Hle. unfold RATE_LIMIT_MAX_REQUESTS in *.
      assert (Hin : Forall (fun r => fst r = ip -> snd r <= now + RATE_LIMIT_WINDOW) rest).
      { eapply Forall_impl; [exact Hall|]. simpl. intros r Hr Hip.
        specialize (Hr Hip). lia. }
      specialize (Hle ltac:(lia) Hin). lia.
    + rewrite andb_false_r. apply IH; [|exact Hall].
      replace store' with (snd (checkRateLimit now ip' store)) by (rewrite Hstep; reflexivity).
      rewrite checkRateLimit_other by assumption. exact Hnone.
Qed.

(** A client with an entry: what is left of the entry's window, and then
    at most one further window, which outlasts the interval. *)
Lemma accepted_from_entry ip t0 (reqs : list (string * Z)) store e :
  store !! ip = Some e ->
  1 <= count e <= RATE_LIMIT_MAX_REQUESTS ->
  Forall (fun r => fst r = ip -> t0 <= snd r <= t0 + RATE_LIMIT_WINDOW) reqs ->
  accepted ip reqs store
  <= (RATE_LIMIT_MAX_REQUESTS - count e) + RATE_LIMIT_MAX_REQUESTS.
Proof.
  revert store e. induction reqs as [|[ip' now] rest IH]; intros store e He Hc Hall; simpl.
  - lia.
  - apply Forall_cons in Hall as [Hhd Hall]. simpl in Hhd.
    destruct (checkRateLimit now ip' store) as [ok store'] eqn:Hstep.
    destruct (String.eqb_spec ip' ip) as [->|Hne].
    + specialize (Hhd eq_refl).
      destruct (Z.lt_ge_cases (resetTime e) now) as [Hlate|Hin].
      * rewrite checkRateLimit_fresh in Hstep by (unfold opensWindow; rewrite He; exact Hlate).
        injection Hstep as <- <-. simpl.
        assert (Hle := accepted_in_window ip rest
                         (<[ip := mkRateEntry 1 (now + RATE_LIMIT_WINDOW)]> store)
                         (mkRateEntry 1 (now + RATE_LIMIT_WINDOW))
                         (lookup_insert_eq _ _ _)).
        simpl in Hle. unfold RATE_LIMIT_MAX_REQUESTS in *.
        assert (Hrest : Forall (fun r => fst r = ip -> snd r <= now + RATE_LIMIT_WINDOW) rest).
        { eapply Forall_impl; [exact Hall|]. simpl. intros r Hr Hip.
          specialize (Hr Hip). lia. }
        specialize (Hle ltac:(lia) Hrest). lia.
      * destruct (Z.lt_ge_cases (count e) RATE_LIMIT_MAX_REQUESTS) as [Hroom|Hfull].
        -- rewrite (checkRateLimit_room _ _ _ e) in Hstep by assumption.
           injection Hstep as <- <-. simpl.
           assert (Hle := IH (<[ip := mkRateEntry (count e + 1) (resetTime e)]> store)
                             (mkRateEntry (count e + 1) (resetTime e))
                             (lookup_insert_eq _ _ _)).
           simpl in Hle. specialize (Hle ltac:(lia) Hall). lia.
        -- rewrite (checkRateLimit_full _ _ _ e) in Hstep by assumption.
           injection Hstep as <- <-. simpl.
           specialize (IH store e He Hc Hall). lia.
    + rewrite andb_false_r.
      assert (Hkeep : store' !! ip = Some e).
      { replace store' with (snd (checkRateLimit now ip' store)) by (rewrite Hstep; reflexivity).
        rewrite checkRateLimit_other by assumption. exact He. }
      specialize (IH store' e Hkeep Hc Hall). lia.
Qed.

(** In any interval of 60 seconds at most nineteen requests of a client
    are accepted. *)
Lemma accepted_in_interval ip t0 (reqs : list (string * Z)) store :
  countsBounded store ->
  Forall (fun r => fst r = ip -> t0 <= snd r <= t0 + RATE_LIMIT_WINDOW) reqs ->
  accepted ip reqs store <= 19.
Proof.
  intros Hb Hall. destruct (store !! ip) as [e|] eqn:He.
  - pose proof (Hb _ _ He) as Hc.
    pose proof (accepted_from_entry ip t0 reqs store e He Hc Hall) as Hle.
    unfold RATE_LIMIT_MAX_REQUESTS in *. lia.
  - pose proof (accepted_from_no_entry ip t0 reqs store He Hall) as Hle.
    unfold RATE_LIMIT_MAX_REQUESTS in *. lia.
Qed.

End RateLimitMore.

(** C8, as the code has it.  The limiter counts in fixed windows.  A
    window is the life of one store entry: it is opened by the request
    that creates the entry or replaces an expired one, and it lasts
    until the entry's [resetTime], 60 seconds later.  For any client IP:
    - in a store the handler can reach, the stored counter lies between
      1 and 10;
    - a request that arrives inside the window when the counter has
      reached 10 is refused, the store is left as it was, and the
      handler answers 429 and leaves the database alone;
    - a request that arrives inside the window when the counter is below
      10 is accepted and adds 1 to the counter;
    - a request of a client without an entry, or the first one after
      [resetTime], is accepted and starts a fresh window with count 1;
    - of the client's requests of one window (the one that opens it and
      the later ones up to its [resetTime], mixed with requests of other
      clients) exactly the first 10 are accepted;
    - of the client's requests in any interval of 60 seconds at most 19
      are accepted: the interval can lie across two windows. *)
Theorem rate_limit_per_window (store : gmap string RateEntry) (ip : string) (clock : Z) :
  (reachable store -> forall e, store !! ip = Some e -> 1 <= count e <= 10)
  /\ (forall e, store !! ip = Some e -> 10 <= count e -> clock <= resetTime e ->
        checkRateLimit clock ip store = (false, store)
        /\ forall env req w,
             now env = clock -> clientIP req = ip -> rateLimitStore w = store ->
             status (snd (POST env req w)) = 429
             /\ rateLimitStore (fst (POST env req w)) = store
             /\ db (fst (POST env req w)) = db w)
  /\ (forall e, store !! ip = Some e -> count e < 10 -> clock <= resetTime e ->
        checkRateLimit clock ip store
        = (true, <[ip := mkRateEntry (count e + 1) (resetTime e)]> store))
  /\ (opensWindow clock ip store ->
        checkRateLimit clock ip store
        = (true, <[ip := mkRateEntry 1 (clock + 60000)]> store))
  /\ (forall reqs : list (string * Z),
        opensWindow clock ip store ->
        Forall (fun r => fst r = ip -> snd r <= clock + 60000) reqs ->
        accepted ip ((ip, clock) :: reqs) store
        = Z.min 10 (1 + Z.of_nat (length (requestsOf ip reqs))))
  /\ (forall reqs : list (string * Z),
        reachable store ->
        Forall (fun r => fst r = ip -> clock <= snd r <= clock + 60000) reqs ->
        accepted ip reqs store <= 19).
Proof.
  split; [|split; [|split; [|split; [|split]]]].
  - intros Hreach e He. apply (reachable_bounded _ Hreach _ _ He).
  - intros e He Hc Hnow.
    assert (Hfull : checkRateLimit clock ip store = (false, store))
      by (apply (checkRateLimit_full _ _ _ e); assumption).
    split; [exact Hfull|].
    intros env req w <- <- <-. rewrite POST_rate_limited by exact Hfull.
    repeat split.
  - intros e He Hc Hnow. apply (checkRateLimit_room _ _ _ e); assumption.
  - intros Hopen. apply checkRateLimit_fresh. exact Hopen.
  - intros reqs Hopen Hall. simpl. rewrite checkRateLimit_fresh by assumption.
    rewrite String.eqb_refl. simpl.
    rewrite (accepted_in_window_exact ip reqs _ (mkRateEntry 1 (clock + RATE_LIMIT_WINDOW)));
      [|apply lookup_insert_eq|simpl; unfold RATE_LIMIT_MAX_REQUESTS; lia|exact Hall].
    simpl. unfold RATE_LIMIT_MAX_REQUESTS. lia.
  - intros reqs Hreach Hall.
    apply (accepted_in_interval ip clock); [apply reachable_bounded, Hreach|exact Hall].
Qed.

Lemma rate_limit_per_window_witness :
  checkRateLimit 5 "10.0.0.1" Sample.fullStore = (false, Sample.fullStore)
  /\ accepted "10.0.0.1" (("10.0.0.1", 60001) :: repeat ("10.0.0.1", 60002) 12)
               Sample.fullStore = 10
  /\ accepted "10.0.0.1" (repeat ("10.0.0.1", 59000) 30) Sample.fullStore <= 19.
Proof.
  assert (Hreach : reachable Sample.fullStore).
  { unfold Sample.fullStore. cbv [Nat.iter nat_rect].
    repeat apply reachable_step. apply reachable_empty. }
  split; [|split].
  - destruct (rate_limit_per_window Sample.fullStore "10.0.0.1" 5) as (_ & H & _).
    apply (H (mkRateEntry 10 60000)); [vm_compute; reflexivity|simpl; lia|simpl; lia].
  - destruct (rate_limit_per_window Sample.fullStore "10.0.0.1" 60001)
      as (_ & _ & _ & _ & H & _).
    rewrite H.
    + reflexivity.
    + vm_compute. reflexivity.
    + simpl. repeat constructor; simpl; lia.
  - destruct (rate_limit_per_window Sample.fullStore "10.0.0.1" 59000)
      as (_ & _ & _ & _ & _ & H).
    apply H; [exact Hreach|].
    simpl. repeat constructor; simpl; lia.
Defined.

(** C8 as it was stated fails.  After one request at time 0, nine requests
    at the last instant of its window and ten right after it are all
    accepted: nineteen requests of one client within two milliseconds. *)
Lemma sliding_window_counterexample :
  let store := snd (checkRateLimit 0 "10.0.0.1" ∅) in
  let reqs := repeat ("10.0.0.1", 60000) 9 ++ repeat ("10.0.0.1", 60001) 10 in
  reachable store
  /\ Forall (fun r => fst r = "10.0.0.1" /\ 60000 <= snd r <= 60001) reqs
  /\ accepted "10.0.0.1" reqs store = 19
  /\ accepted "10.0.0.1" Sample.burst ∅ = 20.
Proof.
  cbv zeta. split; [apply reachable_step, reachable_empty|].
  split; [simpl; repeat constructor; simpl; lia|].
  split; vm_compute; reflexivity.
Qed.

(** X1.  Clients do not share quota: the number of requests of a client
    that the limiter accepts is the same when the requests of all other
    clients are taken out of the sequence, and when all other entries are
    taken out of the store. *)
Theorem accepted_ignores_other_clients (ip : string) (reqs : list (string * Z))
    (store : gmap string RateEntry) :
  accepted ip reqs store = accepted ip (requestsOf ip reqs) (entryOnly ip store).
Proof.
  rewrite accepted_requestsOf. apply accepted_local. symmetry. apply entryOnly_lookup.
Qed.

(** X2.  The quota is exact.  Of the requests of one window (the request
    that opens it and the later requests of the client up to its
    [resetTime]) the limiter accepts the first ten and no fewer: the
    number accepted is the number of the client's requests, capped at 10. *)
Theorem accepted_fills_window (ip : string) (clock : Z) (reqs : list (string * Z))
    (store : gmap string RateEntry) :
  opensWindow clock ip store ->
  Forall (fun r => fst r = ip -> snd r <= clock + 60000) reqs ->
  accepted ip ((ip, clock) :: reqs) store
  = Z.min 10 (1 + Z.of_nat (length (requestsOf ip reqs))).
Proof.
  intros Hopen Hall. simpl. rewrite checkRateLimit_fresh by assumption.
  rewrite String.eqb_refl. simpl.
  rewrite (accepted_in_window_exact ip reqs _ (mkRateEntry 1 (clock + RATE_LIMIT_WINDOW)));
    [|apply lookup_insert_eq|simpl; unfold RATE_LIMIT_MAX_REQUESTS; lia|exact Hall].
  simpl. unfold RATE_LIMIT_MAX_REQUESTS. lia.
Qed.

Lemma accepted_fills_window_witness :
  accepted "10.0.0.1"
    (("10.0.0.1", 0) :: [("10.0.0.2", 5); ("10.0.0.1", 7); ("10.0.0.1", 60000)]) ∅
  = 3.
Proof.
  rewrite (accepted_fills_window "10.0.0.1" 0
             [("10.0.0.2", 5); ("10.0.0.1", 7); ("10.0.0.1", 60000)] ∅).
  - reflexivity.
  - vm_compute. exact I.
  - repeat constructor; simpl; intros; lia.
Defined.

(** ** Sanitised input *)

Section Sanitise.

Implicit Types (s r u : string) (c : ascii) (p : ascii -> bool) (b : bool).

Lemma isWhitespace_space : Js.isWhitespace " " = true.
Proof. reflexivity. Qed.

Lemma filterChars_allChars p s : Js.allChars p (Js.filterChars p s) = true.
Proof.
  induction s as [|c s IH]; simpl; [reflexivity|].
  destruct (p c) eqn:Hc; simpl; [rewrite Hc|]; exact IH.
Qed.

Lemma allChars_filterChars p q s :
  Js.allChars p s = true -> Js.allChars p (Js.filterChars q s) = true.
Proof.
  induction s as [|c s IH]; simpl; [reflexivity|].
  intros [Hc Hs]%andb_true_iff. destruct (q c); simpl; [rewrite Hc|]; auto.
Qed.

Lemma allChars_collapseFrom p b s :
  p " "%char = true -> Js.allChars p s = true ->
  Js.allChars p (Js.collapseFrom b s) = true.
Proof.
  intros Hsp. revert b. induction s as [|c s IH]; intros b; simpl; [reflexivity|].
  intros [Hc Hs]%andb_true_iff.
  destruct (Js.isWhitespace c); [destruct b|]; simpl; rewrite ?Hsp, ?Hc; simpl; auto.
Qed.

Lemma noWhitespaceRun_collapseFrom b s : noWhitespaceRun b (Js.collapseFrom b s) = true.
Proof.
  revert b. induction s as [|c s IH]; intros b; simpl; [reflexivity|].
  destruct (Js.isWhitespace c) eqn:Hc.
  - destruct b; [apply IH|].
    cbn [noWhitespaceRun]. rewrite isWhitespace_space. simpl. apply IH.
  - cbn [noWhitespaceRun]. rewrite Hc. apply IH.
Qed.

Lemma noWhitespaceRun_weaken b s :
  noWhitespaceRun b s = true -> noWhitespaceRun false s = true.
Proof.
  destruct s as [|c s]; simpl; [trivial|].
  destruct (Js.isWhitespace c); [|trivial].
  destruct b; simpl; [discriminate|trivial].
Qed.

Lemma noWhitespaceRun_substring0 b n s :
  noWhitespaceRun b s = true -> noWhitespaceRun b (Js.substring0 n s) = true.
Proof.
  unfold Js.substring0. revert b s. induction n as [|n IH]; intros b [|c s]; simpl; trivial.
  destruct (Js.isWhitespace c).
  - intros [Hb Hs]%andb_true_iff. rewrite Hb. simpl. auto.
  - auto.
Qed.

(** *** Lengths *)

Lemma length_filterChars p s :
  (String.length (Js.filterChars p s) <= String.length s)%nat.
Proof.
  induction s as [|c s IH]; simpl; [lia|]. destruct (p c); simpl; lia.
Qed.

Lemma length_trimStart s : (String.length (Js.trimStart s) <= String.length s)%nat.
Proof.
  induction s as [|c s IH]; simpl; [lia|]. destruct (Js.isWhitespace c); simpl; lia.
Qed.

Lemma length_trimEnd s : (String.length (Js.trimEnd s) <= String.length s)%nat.
Proof.
  induction s as [|c s IH]; simpl; [lia|].
  destruct (Js.isWhitespace c && Js.isEmpty (Js.trimEnd s)); simpl; lia.
Qed.

Lemma length_trim s : (String.length (Js.trim s) <= String.length s)%nat.
Proof.
  unfold Js.trim. pose proof (length_trimEnd (Js.trimStart s)).
  pose proof (length_trimStart s). lia.
Qed.

Lemma length_collapseFrom b s :
  (String.length (Js.collapseFrom b s) <= String.length s)%nat.
Proof.
  revert b. induction s as [|c s IH]; intros b; simpl; [lia|].
  destruct (Js.isWhitespace c); [destruct b|]; simpl.
  - specialize (IH true). lia.
  - specialize (IH true). lia.
  - specialize (IH false). lia.
Qed.

Lemma length_substring0 n s :
  String.length (Js.substring0 n s) = Nat.min n (String.length s).
Proof.
  unfold Js.substring0. revert s. induction n as [|n IH]; intros [|c s]; simpl; auto.
Qed.

Lemma substring0_all n s : (String.length s <= n)%nat -> Js.substring0 n s = s.
Proof.
  unfold Js.substring0. revert s. induction n as [|n IH]; intros [|c s]; simpl; trivial.
  - lia.
  - intros H. f_equal. apply IH. lia.
Qed.

Lemma length_sanitizeInput s :
  (String.length (sanitizeInput s) <= Nat.min 1000 (String.length s))%nat.
Proof.
  unfold sanitizeInput. rewrite length_substring0.
  pose proof (length_collapseFrom false
                (Js.filterChars (fun c => negb (isMarkupChar c)) (Js.trim s))) as H1.
  pose proof (length_filterChars (fun c => negb (isMarkupChar c)) (Js.trim s)) as H2.
  pose proof (length_trim s) as H3. unfold Js.collapseWhitespace. lia.
Qed.

(** *** Fixed points *)

Lemma collapseFrom_fixed b u :
  Js.allChars whitespaceIsSpace u = true -> noWhitespaceRun b u = true ->
  Js.collapseFrom b u = u.
Proof.
  revert b. induction u as [|c u IH]; intros b; simpl; [reflexivity|].
  intros [Hc Hu]%andb_true_iff. destruct (Js.isWhitespace c) eqn:Hw.
  - intros [Hb Hr]%andb_true_iff. apply negb_true_iff in Hb. subst b.
    rewrite (whitespaceIsSpace_space c Hc Hw). f_equal. apply IH; assumption.
  - intros Hr. f_equal. apply IH; assumption.
Qed.

Lemma trimEnd_idempotent s : Js.trimEnd (Js.trimEnd s) = Js.trimEnd s.
Proof.
  induction s as [|c s IH]; simpl; [reflexivity|].
  destruct (Js.isWhitespace c && Js.isEmpty (Js.trimEnd s)) eqn:E; [reflexivity|].
  simpl. rewrite IH, E. reflexivity.
Qed.

Lemma trimStart_fixed s :
  Js.isEmpty s = true \/ headNotWhitespace s = true -> Js.trimStart s = s.
Proof.
  intros [H|H]; [destruct s; [reflexivity|discriminate]|apply trimStart_head, H].
Qed.

Lemma trimStart_shape s :
  Js.isEmpty (Js.trimStart s) = true \/ headNotWhitespace (Js.trimStart s) = true.
Proof.
  destruct (Js.isEmpty (Js.trimStart s)) eqn:E; [left; reflexivity|].
  right. apply trimStart_headNotWhitespace, E.
Qed.

Lemma trimEnd_shape s :
  Js.isEmpty s = true \/ headNotWhitespace s = true ->
  Js.isEmpty (Js.trimEnd s) = true \/ headNotWhitespace (Js.trimEnd s) = true.
Proof.
  intros [H|H]; [left; apply trimEnd_isEmpty, H|right; apply trimEnd_headNotWhitespace, H].
Qed.

Lemma trim_idempotent s : Js.trim (Js.trim s) = Js.trim s.
Proof.
  unfold Js.trim.
  rewrite (trimStart_fixed (Js.trimEnd (Js.trimStart s)))
    by apply trimEnd_shape, trimStart_shape.
  apply trimEnd_idempotent.
Qed.

Lemma collapseFrom_true_empty s :
  Js.isEmpty (Js.collapseFrom true s) = true -> Js.allChars Js.isWhitespace s = true.
Proof.
  induction s as [|c s IH]; simpl; [reflexivity|].
  destruct (Js.isWhitespace c); simpl; [exact IH|discriminate].
Qed.

Lemma trimEnd_collapseFrom b u :
  Js.trimEnd u = u -> Js.trimEnd (Js.collapseFrom b u) = Js.collapseFrom b u.
Proof.
  revert b. induction u as [|c u IH]; intros b; [reflexivity|].
  intros H. cbn [Js.trimEnd] in H. cbn [Js.collapseFrom].
  destruct (Js.isWhitespace c) eqn:Hw; simpl in H.
  - destruct (Js.isEmpty (Js.trimEnd u)) eqn:E; [discriminate|].
    injection H as Hu. destruct b; [apply IH, Hu|].
    cbn [Js.trimEnd]. rewrite (IH true Hu).
    destruct (Js.isEmpty (Js.collapseFrom true u)) eqn:Ec.
    + apply collapseFrom_true_empty, trimEnd_whitespace in Ec.
      rewrite Ec in E. discriminate.
    + rewrite andb_false_r. reflexivity.
  - injection H as Hu. cbn [Js.trimEnd]. rewrite Hw. simpl. rewrite (IH false Hu).
    reflexivity.
Qed.

Lemma collapseWhitespace_shape s :
  Js.isEmpty s = true \/ headNotWhitespace s = true ->
  Js.isEmpty (Js.collapseWhitespace s) = true
  \/ headNotWhitespace (Js.collapseWhitespace s) = true.
Proof.
  intros [H|H]; [left; apply collapseWhitespace_isEmpty, H
                |right; apply collapseWhitespace_head, H].
Qed.

(** Collapsing the whitespace of a trimmed text leaves it trimmed. *)
Lemma trim_collapse_trim s :
  Js.trim (Js.collapseWhitespace (Js.trim s)) = Js.collapseWhitespace (Js.trim s).
Proof.
  unfold Js.trim at 1.
  rewrite trimStart_fixed.
  - apply trimEnd_collapseFrom. unfold Js.trim. apply trimEnd_idempotent.
  - apply collapseWhitespace_shape. unfold Js.trim. apply trimEnd_shape, trimStart_shape.
Qed.

Lemma sanitizeInput_clean s :
  Js.allChars isNotMarkup s = true -> (String.length s <= 1000)%nat ->
  sanitizeInput s = Js.collapseWhitespace (Js.trim s).
Proof.
  intros Hclean Hlen. unfold sanitizeInput.
  rewrite filterChars_all by (apply allChars_trim, Hclean).
  apply substring0_all.
  pose proof (length_collapseFrom false (Js.trim s)). pose proof (length_trim s).
  unfold Js.collapseWhitespace. lia.
Qed.

End Sanitise.

(** X3.  Whatever the input, the sanitised text holds none of the six
    markup characters, its only whitespace is the single space, no two
    spaces follow each other, and it is no longer than the input and no
    longer than 1000 characters. *)
Theorem sanitizeInput_shape (input : string) :
  Js.allChars isNotMarkup (sanitizeInput input) = true
  /\ Js.allChars whitespaceIsSpace (sanitizeInput input) = true
  /\ noWhitespaceRun false (sanitizeInput input) = true
  /\ strlen (sanitizeInput input) <= Z.min 1000 (strlen input).
Proof.
  split; [|split; [apply sanitizeInput_whitespaceIsSpace|split]].
  - unfold sanitizeInput. apply allChars_substring0, allChars_collapseFrom;
      [reflexivity|apply filterChars_allChars].
  - unfold sanitizeInput. apply noWhitespaceRun_substring0, noWhitespaceRun_collapseFrom.
  - unfold strlen. pose proof (length_sanitizeInput input). lia.
Qed.

(** X4.  On an input without markup characters and of at most 1000
    characters, sanitising is trimming followed by collapsing the runs of
    whitespace; the result is itself trimmed, and sanitising it again
    changes nothing. *)
Theorem sanitizeInput_idempotent (input : string) :
  Js.allChars isNotMarkup input = true ->
  strlen input <= 1000 ->
  sanitizeInput input = Js.collapseWhitespace (Js.trim input)
  /\ Js.trim (sanitizeInput input) = sanitizeInput input
  /\ sanitizeInput (sanitizeInput input) = sanitizeInput input.
Proof.
  intros Hclean Hlen. unfold strlen in Hlen.
  assert (Hs : sanitizeInput input = Js.collapseWhitespace (Js.trim input))
    by (apply sanitizeInput_clean; [exact Hclean|lia]).
  split; [exact Hs|]. rewrite Hs. split; [apply trim_collapse_trim|].
  set (t := Js.collapseWhitespace (Js.trim input)).
  assert (Hlen' : (String.length t <= 1000)%nat).
  { subst t. pose proof (length_collapseFrom false (Js.trim input)).
    pose proof (length_trim input). unfold Js.collapseWhitespace. lia. }
  assert (Hclean' : Js.allChars isNotMarkup t = true).
  { subst t. apply allChars_collapseFrom; [reflexivity|apply allChars_trim, Hclean]. }
  rewrite (sanitizeInput_clean t Hclean' Hlen').
  subst t. rewrite trim_collapse_trim.
  apply collapseFrom_fixed;
    [apply collapseFrom_whitespaceIsSpace|apply noWhitespaceRun_collapseFrom].
Qed.

Lemma sanitizeInput_idempotent_witness :
  sanitizeInput (sanitizeInput "  Para   cetamol  ") = "Para cetamol".
Proof.
  destruct (sanitizeInput_idempotent "  Para   cetamol  ") as (_ & _ & H).
  - reflexivity.
  - vm_compute. discriminate.
  - rewrite H. reflexivity.
Defined.

(** ** Validated bodies *)

Section Validated.

Implicit Types (b raw : Body.t) (s : string) (c : ascii).

Lemma issueIf_nil_iff (failed : bool) (message : string) :
  issueIf failed message = [] <-> failed = false.
Proof. destruct failed; simpl; split; congruence. Qed.

(** What the schema accepts. *)
Lemma verifyProductSchema_accepts raw :
  verifyProductSchema raw = [] <->
  (2 <= strlen (Body.productName raw) <= 200
   /\ Js.allChars isNotMarkup (Body.productName raw) = true)
  /\ (5 <= strlen (Body.productDescription raw) <= 1000
      /\ Js.allChars isNotMarkup (Body.productDescription raw) = true)
  /\ match Body.userBatchNumber raw with
     | None => True
     | Some bn => strlen bn <= 50 /\ Js.allChars isBatchChar bn = true
     end
  /\ match Body.images raw with
     | None => True
     | Some imgs => (length imgs <= 3)%nat
     end.
Proof.
  unfold verifyProductSchema.
  rewrite !app_nil, !issueIf_nil_iff, !negb_false_iff.
  rewrite Z.ltb_ge, Z.ltb_ge, !Z.gtb_ltb, !Z.ltb_ge.
  change (fun c => negb (isMarkupChar c)) with isNotMarkup.
  assert (Hb : match Body.userBatchNumber raw with
               | None => []
               | Some bn =>
                   issueIf (strlen bn >? 50) "Batch number must not exceed 50 characters"
                   ++ issueIf (negb (Js.allChars isBatchChar bn))
                        "Batch number contains invalid characters"
               end = []
               <-> match Body.userBatchNumber raw with
                   | None => True
                   | Some bn => strlen bn <= 50 /\ Js.allChars isBatchChar bn = true
                   end).
  { destruct (Body.userBatchNumber raw) as [bn|]; [|tauto].
    rewrite app_nil, !issueIf_nil_iff, negb_false_iff, Z.gtb_ltb, Z.ltb_ge. tauto. }
  assert (Hi : match Body.images raw with
               | None => []
               | Some imgs => issueIf (Z.of_nat (length imgs) >? 3) "Maximum 3 images allowed"
               end = []
               <-> match Body.images raw with
                   | None => True
                   | Some imgs => (length imgs <= 3)%nat
                   end).
  { destruct (Body.images raw) as [imgs|]; [|tauto].
    rewrite issueIf_nil_iff, Z.gtb_ltb, Z.ltb_ge. lia. }
  rewrite Hb, Hi. tauto.
Qed.

Lemma upperChar_batch c : isBatchChar c = true -> Js.upperChar c = c.
Proof.
  destruct c as [[] [] [] [] [] [] [] []]; intros H;
    first [reflexivity | vm_compute in H; discriminate H].
Qed.

Lemma isBatchChar_space : isBatchChar " " = true.
Proof. reflexivity. Qed.

Lemma sanitizeInput_batch s :
  Js.allChars isBatchChar s = true -> Js.allChars isBatchChar (sanitizeInput s) = true.
Proof.
  intros H. unfold sanitizeInput.
  apply allChars_substring0, allChars_collapseFrom; [reflexivity|].
  apply allChars_filterChars, allChars_trim, H.
Qed.

Lemma toUpperCase_batch s :
  Js.allChars isBatchChar s = true -> Js.toUpperCase s = s.
Proof.
  intros H. apply mapChars_fixed. eapply allChars_impl; [|exact H].
  intros c Hc. rewrite (upperChar_batch c Hc). apply Ascii.eqb_refl.
Qed.

Lemma strlen_sanitizeInput s : strlen (sanitizeInput s) <= strlen s.
Proof. unfold strlen. pose proof (length_sanitizeInput s). lia. Qed.

End Validated.

(** X5.  For a body that the schema accepts, the markup filter and the
    1000-character cut of the sanitiser do nothing: the sanitised name and
    description are the trimmed texts with their whitespace collapsed.
    They stay within the maxima of the schema (200 and 1000), and the
    sanitised batch number stays within 50 characters of the batch class,
    so that the upper-casing of strategy 1 leaves it as it is. *)
Theorem validated_body_sanitised (raw : Body.t) :
  verifyProductSchema raw = [] ->
  let b := sanitizeBody raw in
  Body.productName b = Js.collapseWhitespace (Js.trim (Body.productName raw))
  /\ strlen (Body.productName b) <= 200
  /\ Body.productDescription b
     = Js.collapseWhitespace (Js.trim (Body.productDescription raw))
  /\ strlen (Body.productDescription b) <= 1000
  /\ (forall bn, Body.userBatchNumber b = Some bn ->
        strlen bn <= 50
        /\ Js.allChars isBatchChar bn = true
        /\ Js.toUpperCase bn = bn)
  /\ Body.images b = Body.images raw.
Proof.
  intros Hvalid. apply verifyProductSchema_accepts in Hvalid
    as ((Hn & Hnc) & (Hd & Hdc) & Hb & _).
  cbv zeta. unfold sanitizeBody. cbn [Body.productName Body.productDescription
                                     Body.userBatchNumber Body.images].
  unfold strlen in Hn, Hd.
  split; [apply sanitizeInput_clean; [exact Hnc|lia]|].
  split; [pose proof (strlen_sanitizeInput (Body.productName raw)); unfold strlen in *; lia|].
  split; [apply sanitizeInput_clean; [exact Hdc|lia]|].
  split; [pose proof (strlen_sanitizeInput (Body.productDescription raw));
          unfold strlen in *; lia|].
  split; [|reflexivity].
  intros bn Hbn. destruct (Body.userBatchNumber raw) as [raw_bn|] eqn:E.
  - destruct Hb as [Hlen Hcls].
    assert (Hcases : bn = sanitizeInput raw_bn \/ bn = raw_bn).
    { destruct (Js.truthy (Some raw_bn)); simpl in Hbn; injection Hbn as <-; auto. }
    destruct Hcases as [->| ->].
    + pose proof (strlen_sanitizeInput raw_bn).
      pose proof (sanitizeInput_batch raw_bn Hcls) as Hcls'.
      repeat split; [lia|exact Hcls'|apply toUpperCase_batch, Hcls'].
    + repeat split; [exact Hlen|exact Hcls|apply toUpperCase_batch, Hcls].
  - simpl in Hbn. discriminate.
Qed.

Lemma validated_body_sanitised_witness :
  Body.productName (sanitizeBody Sample.paracetamol) = "Paracetamol"
  /\ Js.toUpperCase "PC2024001" = "PC2024001".
Proof.
  destruct (validated_body_sanitised Sample.paracetamol eq_refl)
    as (Hn & _ & _ & _ & Hb & _).
  split.
  - rewrite Hn. reflexivity.
  - apply (Hb "PC2024001"). reflexivity.
Defined.

(** ** A closer look at the steps: exact exits and what they touch *)

Section Run.

Variable env : Env.
Variable req : Request.

Implicit Types (w : World) (b : Body.t).

Lemma sameButUser_refl id w : sameButUser id w w.
Proof. repeat split; auto. apply follows_refl. Qed.

Lemma sameButUser_trans id w1 w2 w3 :
  sameButUser id w1 w2 -> sameButUser id w2 w3 -> sameButUser id w1 w3.
Proof.
  intros (A1 & A2 & A3 & A4 & A5 & A6) (B1 & B2 & B3 & B4 & B5 & B6).
  repeat split; try congruence.
  - intros id' Hne. rewrite (B5 id' Hne). apply A5, Hne.
  - eapply follows_trans; eassumption.
Qed.

(** A step that leaves the store and the database alone. *)
Lemma sameButUser_quiet id w w1 :
  rateLimitStore w1 = rateLimitStore w -> db w1 = db w -> follows w w1 ->
  sameButUser id w w1.
Proof. intros Hs Hd Hf. unfold sameButUser. rewrite Hs, Hd. auto 10. Qed.

Lemma step2_run w :
  match step2Validation req w with
  | (w1, Val b) =>
      w1 = w /\ exists raw, requestJson req = JsonShaped raw
                            /\ verifyProductSchema raw = []
                            /\ b = sanitizeBody raw
  | (w1, Ret r) => w1 = w /\ ((exists message, r = invalidInput message) \/ r = invalidJson)
  | (w1, Thrown _) => False
  end.
Proof.
  unfold step2Validation, tryCatch.
  destruct (requestJson req) as [e|m|raw]; simpl.
  - split; [reflexivity|]. right. reflexivity.
  - split; [reflexivity|]. left. eexists. reflexivity.
  - destruct (verifyProductSchema raw) eqn:E; simpl.
    + split; [reflexivity|]. exists raw. auto.
    + split; [reflexivity|]. left. eexists. reflexivity.
Qed.

Lemma step3_run w :
  match step3Authentication env w with
  | (w1, Val session) =>
      w1 = logged CallAuth w /\ authOutcome env = Resolves (Some session)
  | (w1, Ret r) =>
      w1 = logged CallAuth w /\ r = authenticationRequired
      /\ authOutcome env = Resolves None
  | (w1, Thrown e) => w1 = logged CallAuth w /\ authOutcome env = Rejects e
  end.
Proof.
  unfold step3Authentication, bind, logCall, await. simpl.
  destruct (authOutcome env) as [[session|]|e]; simpl; repeat split.
Qed.

Lemma step4_run (session : Session.t) w :
  match step4UserValidation env session w with
  | (w1, Val u) =>
      sameButUser (Session.userId session) w w1
      /\ validatedUser session w u
      /\ Db.users (db w1) !! Session.userId session = Some u
      /\ 1 <= User.pointsBalance u
  | (w1, Ret r) =>
      sameButUser (Session.userId session) w w1
      /\ (r = insufficientPoints \/ r = serviceUnavailable)
  | (w1, Thrown _) => False
  end.
Proof.
  unfold step4UserValidation, tryCatch, validatedUser.
  rewrite bind_eq, dbCall_eq.
  set (id := Session.userId session).
  assert (F1 : sameButUser id w (logged (CallUserFindUnique id) w)).
  { apply sameButUser_quiet; try reflexivity. apply follows_logged. reflexivity. }
  destruct (dbRejects env (CallUserFindUnique id)); simpl.
  { split; [exact F1|]. right. reflexivity. }
  destruct (Db.users (db w) !! id) as [u|] eqn:Hu.
  - rewrite bind_eq. simpl.
    destruct (Z.ltb_spec (User.pointsBalance u) 1); simpl.
    + split; [exact F1|]. left. reflexivity.
    + repeat split; trivial; try apply F1.
  - destruct (Js.truthy (Session.userEmail session)); simpl.
    + rewrite bind_eq, bind_eq, dbCall_eq. simpl.
      assert (F2 : sameButUser id w
                     (logged (CallUserCreate id)
                        (withDb (db w) (logged (CallUserFindUnique id) w)))).
      { apply sameButUser_quiet; try reflexivity.
        exists [CallUserFindUnique id; CallUserCreate id]. simpl.
        rewrite <- app_assoc. split; [reflexivity|repeat constructor]. }
      destruct (dbRejects env (CallUserCreate id)); simpl.
      { split; [exact F2|]. right. reflexivity. }
      unfold Prisma.userCreate. simpl. fold id. rewrite Hu. simpl.
      split; [|repeat split; trivial; [apply lookup_insert_eq|lia]].
      repeat split; trivial.
      * intros id' Hne. apply lookup_insert_ne. congruence.
      * apply F2.
    + split; [exact F1|]. left. reflexivity.
Qed.

Lemma requireProductInformation_run b w :
  match requireProductInformation b w with
  | (w1, Val _) =>
      w1 = w /\ Js.isEmpty (Body.productName b) = false
      /\ Js.isEmpty (Body.productDescription b) = false
  | (w1, Ret r) => w1 = w /\ r = missingProductInformation
  | (w1, Thrown _) => False
  end.
Proof.
  unfold requireProductInformation.
  destruct (Js.isEmpty (Body.productName b)); simpl; [auto|].
  destruct (Js.isEmpty (Body.productDescription b)); simpl; auto.
Qed.

(** The deduction and the two rows: the outcome and everything touched. *)
Lemma saveAndRespond_run (session : Session.t) (user : User.t) b
    (result : Result.t) w :
  Result.confidence result <> 0 ->
  match saveAndRespond env session user b result w with
  | (w1, Val _) => False
  | (w1, Ret r) =>
      r = successResponse env result user
      /\ rateLimitStore w1 = rateLimitStore w
      /\ Db.nafdacAlerts (db w1) = Db.nafdacAlerts (db w)
      /\ (exists stored,
            Db.users (db w) !! Session.userId session = Some stored
            /\ Db.users (db w1)
               = <[Session.userId session := User.decrement 1 stored]> (Db.users (db w)))
      /\ Db.productChecks (db w1) = Db.productChecks (db w) ++ [savedCheck env session b]
      /\ Db.checkResults (db w1)
         = Db.checkResults (db w) ++ [savedResult env session result]
      /\ follows w w1
  | (w1, Thrown _) =>
      rateLimitStore w1 = rateLimitStore w
      /\ Db.nafdacAlerts (db w1) = Db.nafdacAlerts (db w)
      /\ (forall id', id' <> Session.userId session ->
            Db.users (db w1) !! id' = Db.users (db w) !! id')
      /\ Db.productChecks (db w) `prefix_of` Db.productChecks (db w1)
      /\ Db.checkResults (db w1) = Db.checkResults (db w)
      /\ follows w w1
  end.
Proof.
  intros Hconf. apply Z.eqb_neq in Hconf.
  unfold saveAndRespond. rewrite Hconf. set (id := Session.userId session).
  rewrite bind_eq, dbCall_eq.
  assert (F1 : follows w (logged (CallUserUpdate id) w))
    by (apply follows_logged; reflexivity).
  destruct (dbRejects env (CallUserUpdate id)); [repeat split; trivial|].
  unfold Prisma.userDecrement.
  destruct (Db.users (db w) !! id) as [stored|] eqn:Hu; [|repeat split; trivial].
  rewrite bind_eq, dbCall_eq.
  set (w1 := withDb _ (logged (CallUserUpdate id) w)).
  assert (F2 : follows w (logged CallProductCheckCreate w1)).
  { eapply follows_trans; [exact F1|]. apply (follows_logged w1). reflexivity. }
  assert (Hothers : forall id', id' <> id ->
            <[id := User.decrement 1 stored]> (Db.users (db w)) !! id'
            = Db.users (db w) !! id').
  { intros id' Hne. apply lookup_insert_ne. congruence. }
  destruct (dbRejects env CallProductCheckCreate); [repeat split; trivial|].
  unfold Prisma.productCheckCreate.
  set (w2 := withDb _ (logged CallProductCheckCreate w1)).
  assert (F3 : follows w (logged CallCheckResultCreate w2)).
  { eapply follows_trans; [exact F2|]. apply (follows_logged w2). reflexivity. }
  rewrite bind_eq, dbCall_eq.
  destruct (dbRejects env CallCheckResultCreate).
  - repeat split; trivial. simpl. apply prefix_app_r. reflexivity.
  - simpl. repeat split; trivial. exists stored. split; reflexivity.
Qed.

End Run.

Section RunWhole.

Variable env : Env.
Variable req : Request.

Implicit Types (w : World) (b : Body.t).

Lemma follows_prefix w w1 : follows w w1 -> calls w `prefix_of` calls w1.
Proof. intros (more & H & _). exists more. exact H. Qed.

Lemma touchesOnly_quiet ip owner w wk :
  (forall ip', ip' <> ip -> rateLimitStore wk !! ip' = rateLimitStore w !! ip') ->
  db wk = db w -> follows w wk ->
  touchesOnly ip owner w wk.
Proof.
  intros Hrl Hdb Hf. unfold touchesOnly. rewrite Hdb.
  repeat split; auto. apply follows_prefix, Hf.
Qed.

Lemma touchesOnly_user ip id w w1 wk :
  (forall ip', ip' <> ip -> rateLimitStore w1 !! ip' = rateLimitStore w !! ip') ->
  db w1 = db w -> follows w w1 ->
  sameButUser id w1 wk ->
  touchesOnly ip (Some id) w wk.
Proof.
  intros Hrl Hdb Hf (S1 & S2 & S3 & S4 & S5 & S6). unfold touchesOnly.
  rewrite S1, S2, S3, S4, Hdb. repeat split; auto.
  - intros id' Hne. rewrite S5 by congruence. rewrite Hdb. reflexivity.
  - apply follows_prefix. eapply follows_trans; eassumption.
Qed.

(** Every run of the body of the outer [try]: the response it ends with
    and everything it has touched. *)
Lemma tryBlock_run w :
  match tryBlock env req w with
  | (w1, Val _) => False
  | (w1, Ret r) =>
      touchesOnly (clientIP req) (ownerOf env) w w1
      /\ (ownerOf env = None -> db w1 = db w)
      /\ ((isErrorExit r
           /\ Db.productChecks (db w1) = Db.productChecks (db w)
           /\ Db.checkResults (db w1) = Db.checkResults (db w))
          \/ exists raw session result user,
               requestJson req = JsonShaped raw
               /\ authOutcome env = Resolves (Some session)
               /\ r = successResponse env result user
               /\ result = decisionLogic (uniqueAlerts (matchesFound env raw w))
                                         (elapsed env)
               /\ Db.productChecks (db w1)
                  = Db.productChecks (db w) ++ [savedCheck env session (sanitizeBody raw)]
               /\ Db.checkResults (db w1)
                  = Db.checkResults (db w) ++ [savedResult env session result])
  | (w1, Thrown _) =>
      touchesOnly (clientIP req) (ownerOf env) w w1
      /\ (ownerOf env = None -> db w1 = db w)
      /\ Db.checkResults (db w1) = Db.checkResults (db w)
  end.
Proof.
  unfold tryBlock.
  (* step 1 *)
  rewrite bind_eq, step1_eq.
  set (w1 := mkWorld _ (db w) (calls w)).
  assert (Hrl : forall ip', ip' <> clientIP req ->
            rateLimitStore w1 !! ip' = rateLimitStore w !! ip').
  { intros ip' Hne. apply checkRateLimit_other. congruence. }
  assert (F1 : follows w w1) by (apply follows_same_calls; reflexivity).
  assert (Q1 : forall owner, touchesOnly (clientIP req) owner w w1)
    by (intros owner; apply touchesOnly_quiet; trivial).
  destruct (fst (checkRateLimit _ _ _)).
  2:{ split; [apply Q1|]. split; [reflexivity|]. left. unfold isErrorExit. auto. }
  (* step 2 *)
  rewrite bind_eq. pose proof (step2_run req w1) as H2.
  destruct (step2Validation req w1) as [w2 [b|r|e]]; [| |contradiction].
  2:{ destruct H2 as [-> H2]. split; [apply Q1|]. split; [reflexivity|].
      left. unfold isErrorExit. destruct H2; auto. }
  destruct H2 as (-> & raw & Hjson & Hvalid & ->).
  (* step 3 *)
  rewrite bind_eq. pose proof (step3_run env w1) as H3.
  assert (F3 : follows w (logged CallAuth w1))
    by (eapply follows_trans; [exact F1|apply follows_logged; reflexivity]).
  assert (Q3 : forall owner, touchesOnly (clientIP req) owner w (logged CallAuth w1))
    by (intros owner; apply touchesOnly_quiet; trivial).
  destruct (step3Authentication env w1) as [w3 [session|r|e]].
  2:{ destruct H3 as (-> & -> & _). split; [apply Q3|]. split; [reflexivity|].
      left. unfold isErrorExit. auto 10. }
  2:{ destruct H3 as (-> & _). split; [apply Q3|]. split; reflexivity. }
  destruct H3 as [-> Hauth].
  assert (Howner : ownerOf env = Some (Session.userId session))
    by (unfold ownerOf; rewrite Hauth; reflexivity).
  rewrite Howner.
  set (id := Session.userId session) in *.
  assert (T : forall wk, sameButUser id (logged CallAuth w1) wk ->
                         touchesOnly (clientIP req) (Some id) w wk).
  { intros wk. apply touchesOnly_user; trivial. }
  (* step 4 *)
  rewrite bind_eq. pose proof (step4_run env session (logged CallAuth w1)) as H4.
  destruct (step4UserValidation env session _) as [w4 [user|r|e]]; [| |contradiction].
  2:{ destruct H4 as [S4 H4]. split; [apply T, S4|]. split; [discriminate|].
      left. split; [unfold isErrorExit; destruct H4; auto 10|].
      destruct S4 as (_ & _ & -> & -> & _). split; reflexivity. }
  destruct H4 as (S4 & Hu4 & Hl4 & Hp4).
  (* product information *)
  rewrite bind_eq. pose proof (requireProductInformation_run (sanitizeBody raw) w4) as H5.
  destruct (requireProductInformation _ w4) as [w5 [[]|r|e]]; [| |contradiction].
  2:{ destruct H5 as [-> ->]. split; [apply T, S4|]. split; [discriminate|].
      left. split; [unfold isErrorExit; auto 10|].
      destruct S4 as (_ & _ & -> & -> & _). split; reflexivity. }
  destruct H5 as (-> & Hname & Hdesc).
  (* OCR *)
  rewrite bind_eq.
  destruct (extractOcrText_spec env (sanitizeBody raw) w4) as (w6 & -> & Hs6 & Hd6 & F6).
  assert (S6 : sameButUser id (logged CallAuth w1) w6).
  { eapply sameButUser_trans; [exact S4|]. apply sameButUser_quiet; assumption. }
  (* search *)
  rewrite bind_eq, allMatchesOf_issue.
  pose proof (issueAll_spec env (searchQueries (sanitizeBody raw)
                                   (ocrTextOf env (sanitizeBody raw))) w6) as H7.
  destruct (issueAll env _ w6) as [w7 [allMatches|r|e]]; [|contradiction|].
  2:{ destruct H7 as (_ & Hs7 & Hd7 & F7).
      assert (S7 : sameButUser id (logged CallAuth w1) w7).
      { eapply sameButUser_trans; [exact S6|]. apply sameButUser_quiet; assumption. }
      split; [apply T, S7|]. split; [discriminate|].
      destruct S7 as (_ & _ & _ & -> & _). reflexivity. }
  destruct H7 as (-> & Hall & ->).
  set (w7 := mkWorld _ _ _).
  assert (S7 : sameButUser id (logged CallAuth w1) w7).
  { eapply sameButUser_trans; [exact S6|]. apply sameButUser_quiet; try reflexivity.
    eexists. split; [reflexivity|].
    apply Forall_forall. intros c [q [-> _]]%list_elem_of_fmap. reflexivity. }
  (* decision and stage 3 *)
  rewrite bind_eq, stage3_skipped
    by (match goal with
        | |- _ <= Result.confidence (decisionLogic ?l ?t) =>
            pose proof (decisionLogic_range l t); lia
        end).
  set (result := decisionLogic _ _).
  assert (Hconf : Result.confidence result <> 0).
  { subst result.
    match goal with
    | |- Result.confidence (decisionLogic ?l ?t) <> 0 =>
        pose proof (decisionLogic_range l t); lia
    end. }
  (* point deduction, rows, response *)
  pose proof (saveAndRespond_run env session user (sanitizeBody raw) result w7 Hconf) as H8.
  destruct (saveAndRespond env session user _ result w7) as [w8 [r|r|e]];
    [contradiction| |].
  - destruct H8 as (-> & Hs8 & Ha8 & (stored & Hst & Hus) & Hp8 & Hc8 & F8).
    destruct S7 as (S71 & S72 & S73 & S74 & S75 & S76).
    assert (Hdb1 : db w1 = db w) by reflexivity.
    split; [|split; [discriminate|]].
    + unfold touchesOnly. rewrite Hs8, Ha8, Hp8, Hc8, Hus, S71, S72, S73, S74.
      repeat split; trivial.
      * intros id' Hne.
        assert (Hne' : id' <> Session.userId session)
          by (intros ->; apply Hne; reflexivity).
        rewrite lookup_insert_ne by congruence. apply S75, Hne'.
      * apply prefix_app_r. reflexivity.
      * apply prefix_app_r. reflexivity.
      * apply follows_prefix.
        eapply follows_trans; [exact F3|]. eapply follows_trans; eassumption.
    + right. exists raw, session, result, user.
      rewrite Hp8, Hc8, S73, S74. repeat split; trivial.
      subst result. unfold matchesFound.
      destruct S4 as (_ & Ha4 & _). rewrite Hd6, Ha4. reflexivity.
  - destruct H8 as (Hs8 & Ha8 & Hus & Hp8 & Hc8 & F8).
    destruct S7 as (S71 & S72 & S73 & S74 & S75 & S76).
    split; [|split; [discriminate|rewrite Hc8, S74; reflexivity]].
    unfold touchesOnly. rewrite Hs8, Ha8, Hc8, S71, S72, S74.
    repeat split; trivial.
    + intros id' Hne.
      assert (Hne' : id' <> Session.userId session)
        by (intros ->; apply Hne; reflexivity).
      rewrite Hus by exact Hne'. apply S75, Hne'.
    + rewrite S73 in Hp8. exact Hp8.
    + apply follows_prefix.
      eapply follows_trans; [exact F3|]. eapply follows_trans; eassumption.
Qed.

End RunWhole.

(** ** Runs in which nothing goes wrong before the rows are saved *)

Section Served.

Variable env : Env.
Variable req : Request.

Implicit Types (w : World) (b : Body.t).

Lemma step4_passes (session : Session.t) (user : User.t) w :
  dbRejects env (CallUserFindUnique (Session.userId session)) = false ->
  validatedUser session w user ->
  1 <= User.pointsBalance user ->
  (Db.users (db w) !! Session.userId session = None ->
   Js.truthy (Session.userEmail session) = true
   /\ dbRejects env (CallUserCreate (Session.userId session)) = false) ->
  exists w4,
    step4UserValidation env session w = (w4, Val user)
    /\ Db.nafdacAlerts (db w4) = Db.nafdacAlerts (db w)
    /\ Db.users (db w4) !! Session.userId session = Some user.
Proof.
  intros Hfind Hu Hp Hnew. unfold validatedUser in Hu.
  unfold step4UserValidation, tryCatch.
  rewrite bind_eq, dbCall_eq, Hfind. simpl.
  destruct (Db.users (db w) !! Session.userId session) as [stored|] eqn:E.
  - subst user. rewrite bind_eq. simpl.
    destruct (Z.ltb_spec (User.pointsBalance stored) 1); [lia|].
    eexists. split; [reflexivity|]. split; [reflexivity|exact E].
  - destruct (Hnew eq_refl) as [Hmail Hcreate]. rewrite Hmail.
    rewrite bind_eq, bind_eq, dbCall_eq, Hcreate. simpl.
    unfold Prisma.userCreate. simpl. rewrite E. subst user. simpl.
    eexists. split; [reflexivity|]. split; [reflexivity|apply lookup_insert_eq].
Qed.

Lemma requireProductInformation_passes b w :
  Js.isEmpty (Body.productName b) = false ->
  Js.isEmpty (Body.productDescription b) = false ->
  requireProductInformation b w = (w, Val tt).
Proof. intros Hn Hd. unfold requireProductInformation. rewrite Hn, Hd. reflexivity. Qed.

Lemma issueAll_resolves (qs : list AlertWhere) w :
  Forall (fun q => dbRejects env (CallFindMany q) = false) qs ->
  issueAll env qs w
  = (mkWorld (rateLimitStore w) (db w) (calls w ++ map CallFindMany qs),
     Val (resultsOf (Db.nafdacAlerts (db w)) qs)).
Proof.
  intros Hok. pose proof (issueAll_spec env qs w) as H.
  destruct (issueAll env qs w) as [w1 [found|r|e]]; [|contradiction|].
  - destruct H as (-> & _ & ->). reflexivity.
  - destruct H as (Hex & _). exfalso.
    apply Exists_exists in Hex as (q & Hq & Hrej).
    rewrite Forall_forall in Hok. rewrite (Hok q Hq) in Hrej. discriminate.
Qed.

(** A validated request of a user who can pay reaches the deduction, with
    the decision made on what the search found. *)
Lemma tryBlock_until_save (raw : Body.t) (session : Session.t) (user : User.t) w :
  fst (checkRateLimit (now env) (clientIP req) (rateLimitStore w)) = true ->
  requestJson req = JsonShaped raw -> verifyProductSchema raw = [] ->
  Js.isEmpty (Body.productName (sanitizeBody raw)) = false ->
  Js.isEmpty (Body.productDescription (sanitizeBody raw)) = false ->
  authOutcome env = Resolves (Some session) ->
  dbRejects env (CallUserFindUnique (Session.userId session)) = false ->
  (forall q, dbRejects env (CallFindMany q) = false) ->
  validatedUser session w user ->
  1 <= User.pointsBalance user ->
  (Db.users (db w) !! Session.userId session = None ->
   Js.truthy (Session.userEmail session) = true
   /\ dbRejects env (CallUserCreate (Session.userId session)) = false) ->
  exists w7,
    tryBlock env req w
    = saveAndRespond env session user (sanitizeBody raw)
        (decisionLogic (uniqueAlerts (matchesFound env raw w)) (elapsed env)) w7
    /\ Db.users (db w7) !! Session.userId session = Some user.
Proof.
  intros Hrate Hjson Hvalid Hname Hdesc Hauth Hfind Hquery Hu Hp Hnew.
  unfold tryBlock.
  rewrite bind_eq, step1_eq, Hrate.
  rewrite bind_eq, (step2_valid req raw) by assumption.
  rewrite bind_eq, (step3_session env session) by assumption.
  rewrite bind_eq.
  match goal with
  | |- context [step4UserValidation env session ?w3] =>
      destruct (step4_passes session user w3 Hfind Hu Hp Hnew) as (w4 & -> & Ha4 & Hl4)
  end.
  rewrite bind_eq, requireProductInformation_passes by assumption.
  rewrite bind_eq.
  destruct (extractOcrText_spec env (sanitizeBody raw) w4) as (w6 & -> & Hs6 & Hd6 & F6).
  rewrite bind_eq, allMatchesOf_issue, issueAll_resolves
    by (apply Forall_forall; intros q _; apply Hquery).
  rewrite bind_eq, stage3_skipped
    by (match goal with
        | |- _ <= Result.confidence (decisionLogic ?l ?t) =>
            pose proof (decisionLogic_range l t); lia
        end).
  simpl in Ha4. unfold matchesFound. rewrite <- Ha4, <- Hd6.
  eexists. split; [reflexivity|]. simpl. rewrite Hd6. exact Hl4.
Qed.

Lemma saveAndRespond_succeeds (session : Session.t) (user stored : User.t) b
    (result : Result.t) w :
  Result.confidence result <> 0 ->
  dbRejects env (CallUserUpdate (Session.userId session)) = false ->
  dbRejects env CallProductCheckCreate = false ->
  dbRejects env CallCheckResultCreate = false ->
  Db.users (db w) !! Session.userId session = Some stored ->
  exists w1,
    saveAndRespond env session user b result w
    = (w1, Ret (successResponse env result user)).
Proof.
  intros Hconf H1 H2 H3 Hu. apply Z.eqb_neq in Hconf.
  unfold saveAndRespond. rewrite Hconf.
  rewrite bind_eq, dbCall_eq, H1. unfold Prisma.userDecrement. rewrite Hu.
  rewrite bind_eq, dbCall_eq, H2. unfold Prisma.productCheckCreate.
  rewrite bind_eq, dbCall_eq, H3. simpl. eexists. reflexivity.
Qed.

(** The deduction comes first: when one of the two row creations rejects,
    the handler throws with the user's balance already lowered. *)
Lemma saveAndRespond_charged (session : Session.t) (user stored : User.t) b
    (result : Result.t) w :
  dbRejects env (CallUserUpdate (Session.userId session)) = false ->
  dbRejects env CallProductCheckCreate = true
  \/ dbRejects env CallCheckResultCreate = true ->
  Db.users (db w) !! Session.userId session = Some stored ->
  exists w1 e,
    saveAndRespond env session user b result w = (w1, Thrown e)
    /\ Db.users (db w1) !! Session.userId session = Some (User.decrement 1 stored).
Proof.
  intros H1 Hrej Hu.
  unfold saveAndRespond.
  rewrite bind_eq, dbCall_eq, H1. unfold Prisma.userDecrement. rewrite Hu.
  rewrite bind_eq, dbCall_eq.
  destruct (dbRejects env CallProductCheckCreate) eqn:H2.
  - simpl. do 2 eexists. split; [reflexivity|]. simpl. apply lookup_insert_eq.
  - destruct Hrej as [Hrej|H3]; [discriminate|].
    unfold Prisma.productCheckCreate.
    destruct (Result.confidence result =? 0);
      rewrite bind_eq, dbCall_eq, H3; simpl;
      (do 2 eexists; split; [reflexivity|]; simpl; apply lookup_insert_eq).
Qed.

End Served.

(** X6.  The responses of the handler.  Every response is one of the
    seven handled error responses, the 500 of the outer [catch], or a
    verification response.  Its status is one of 200, 400, 401, 429, 500
    and 503, and it is 200 exactly for a verification response.  Every
    response carries the security headers but one: the 400 for missing
    product information. *)
Theorem every_response_classified (env : Env) (req : Request) (w : World) :
  let r := snd (POST env req w) in
  (isErrorExit r \/ r = verificationFailed
   \/ exists result user, r = successResponse env result user)
  /\ In (status r) [200; 400; 401; 429; 500; 503]
  /\ (status r = 200 <-> isVerification r = true)
  /\ (securityHeaders r = false <-> r = missingProductInformation).
Proof.
  cbv zeta. rewrite POST_eq. pose proof (tryBlock_run env req w) as Hrun.
  destruct (tryBlock env req w) as [w1 [r|r|e]]; [contradiction| |].
  - destruct Hrun as (_ & _ & [(Hexit & _)|Hrun]); cbn [snd].
    + split; [left; exact Hexit|].
      destruct Hexit as [->|[[m ->]|[->|[->|[->|[->| ->]]]]]];
        (split; [simpl; tauto|]); (split; split; intros H; try discriminate H;
                                   try reflexivity).
    + destruct Hrun as (raw & session & result & user & _ & _ & -> & _).
      split; [right; right; eauto|].
      split; [simpl; tauto|]. split; split; intros H; try discriminate H; reflexivity.
  - cbn [snd]. split; [right; left; reflexivity|].
    split; [simpl; tauto|]. split; split; intros H; try discriminate H; reflexivity.
Qed.

(** X7.  What a run may touch.  Whatever the request and the environment,
    a run of the handler changes at most the limiter's entry of the
    client's IP, the row of the session's user, the ends of the two scan
    tables (rows are only added) and the calls issued.  The alert table is
    never written, and without a session the database stays as it was. *)
Theorem run_touches_only (env : Env) (req : Request) (w : World) :
  touchesOnly (clientIP req) (ownerOf env) w (fst (POST env req w))
  /\ (ownerOf env = None -> db (fst (POST env req w)) = db w).
Proof.
  rewrite POST_eq. pose proof (tryBlock_run env req w) as H.
  destruct (tryBlock env req w) as [w1 [r|r|e]]; [contradiction| |]; cbn [fst].
  - destruct H as (H1 & H2 & _). auto.
  - destruct H as (H1 & H2 & _). auto.
Qed.

Lemma run_touches_only_witness :
  db (fst (POST (mkEnv 1000 (Resolves None) (fun _ => false) (Resolves "")
                       (Resolves (mkEnsemble 0 false)) 7 "scan1" "t")
                (Sample.requestOf Sample.aspirin) Sample.world))
  = db Sample.world.
Proof.
  apply (run_touches_only
           (mkEnv 1000 (Resolves None) (fun _ => false) (Resolves "")
                  (Resolves (mkEnsemble 0 false)) 7 "scan1" "t")
           (Sample.requestOf Sample.aspirin) Sample.world).
  reflexivity.
Defined.

Lemma snoc_neq {A} (l : list A) (x : A) : l ++ [x] <> l.
Proof.
  intros H. apply (f_equal (@length A)) in H. rewrite length_app in H. simpl in H. lia.
Qed.

(** X8.  Answers and rows go together.  A verification response comes
    with exactly one new scan row and one new result row, at the end of
    their tables: the scan row carries the response's [resultId], the
    session's user, the sanitised name and description and 1 point used;
    the result row carries the verdict, confidence, summary, source and
    batch number of the response.  Any other response leaves the result
    table as it was. *)
Theorem verification_is_saved (env : Env) (req : Request) (w : World) :
  let w' := fst (POST env req w) in
  let r := snd (POST env req w) in
  (isVerification r = true ->
   exists raw session result newBalance,
     requestJson req = JsonShaped raw
     /\ authOutcome env = Resolves (Some session)
     /\ payload r = ResultPayload (freshId env) result newBalance (isoNow env)
     /\ Db.productChecks (db w')
        = Db.productChecks (db w) ++ [savedCheck env session (sanitizeBody raw)]
     /\ Db.checkResults (db w')
        = Db.checkResults (db w) ++ [savedResult env session result])
  /\ (isVerification r = true <-> Db.checkResults (db w') <> Db.checkResults (db w)).
Proof.
  cbv zeta. rewrite POST_eq. pose proof (tryBlock_run env req w) as H.
  destruct (tryBlock env req w) as [w1 [r|r|e]]; [contradiction| |]; cbn [fst snd].
  - destruct H as (_ & _ & [(Hexit & Hp & Hc)|H]).
    + assert (Hno : isVerification r = false).
      { destruct Hexit as [->|[[m ->]|[->|[->|[->|[->| ->]]]]]]; reflexivity. }
      rewrite Hno, Hc. split; [discriminate|]. split; [discriminate|congruence].
    + destruct H as (raw & session & result & user & Hjson & Hauth & -> & _ & Hp & Hc).
      split.
      * intros _. exists raw, session, result, (User.pointsBalance user - 1). auto.
      * rewrite Hc. split; [intros _; apply snoc_neq|reflexivity].
  - destruct H as (_ & _ & Hc). rewrite Hc.
    split; [discriminate|]. split; [discriminate|congruence].
Qed.

Lemma verification_is_saved_witness :
  Db.checkResults (db (fst Sample.paracetamolRun)) <> Db.checkResults (db Sample.world).
Proof.
  apply (verification_is_saved (Sample.environment "u1")
           (Sample.requestOf Sample.paracetamol) Sample.world).
  vm_compute. reflexivity.
Defined.

(** X9.  A good request is served.  If the limiter admits the request,
    its body passes the schema and keeps a non-empty name and description
    after sanitising, the session resolves, no database call rejects, and
    the user has at least 1 point (a user not yet stored is created with
    5, provided the session has an email), then the handler answers with
    the verification response for what the search found. *)
Theorem valid_request_is_served (env : Env) (req : Request) (w : World)
    (raw : Body.t) (session : Session.t) (user : User.t) :
  fst (checkRateLimit (now env) (clientIP req) (rateLimitStore w)) = true ->
  requestJson req = JsonShaped raw -> verifyProductSchema raw = [] ->
  Js.isEmpty (Body.productName (sanitizeBody raw)) = false ->
  Js.isEmpty (Body.productDescription (sanitizeBody raw)) = false ->
  authOutcome env = Resolves (Some session) ->
  (forall c, dbRejects env c = false) ->
  validatedUser session w user ->
  1 <= User.pointsBalance user ->
  (Db.users (db w) !! Session.userId session = None ->
   Js.truthy (Session.userEmail session) = true) ->
  snd (POST env req w)
  = successResponse env
      (decisionLogic (uniqueAlerts (matchesFound env raw w)) (elapsed env)) user.
Proof.
  intros Hrate Hjson Hvalid Hname Hdesc Hauth Hdb Hu Hp Hnew.
  destruct (tryBlock_until_save env req raw session user w) as (w7 & Ht & Hl7);
    auto.
  destruct (saveAndRespond_succeeds env session user user (sanitizeBody raw)
              (decisionLogic (uniqueAlerts (matchesFound env raw w)) (elapsed env)) w7)
    as (w8 & Hs); auto.
  { pose proof (decisionLogic_range (uniqueAlerts (matchesFound env raw w)) (elapsed env)).
    lia. }
  rewrite POST_eq, Ht, Hs. reflexivity.
Qed.

Lemma valid_request_is_served_witness :
  status (snd Sample.aspirinRun) = 200.
Proof.
  unfold Sample.aspirinRun.
  rewrite (valid_request_is_served (Sample.environment "u1")
             (Sample.requestOf Sample.aspirin) Sample.world Sample.aspirin
             (Sample.session "u1") Sample.alice);
    first [reflexivity | vm_compute; reflexivity | vm_compute; discriminate
          | intros; reflexivity].
Defined.

(** X10.  The point is taken before the rows are written.  In the
    situation of a good request, if the creation of the scan row or of the
    result row rejects (and nothing before it does), the handler answers
    500 [Verification failed] and the user's stored balance is 1 lower
    all the same. *)
Theorem point_charged_when_saving_fails (env : Env) (req : Request) (w : World)
    (raw : Body.t) (session : Session.t) (user : User.t) :
  fst (checkRateLimit (now env) (clientIP req) (rateLimitStore w)) = true ->
  requestJson req = JsonShaped raw -> verifyProductSchema raw = [] ->
  Js.isEmpty (Body.productName (sanitizeBody raw)) = false ->
  Js.isEmpty (Body.productDescription (sanitizeBody raw)) = false ->
  authOutcome env = Resolves (Some session) ->
  dbRejects env (CallUserFindUnique (Session.userId session)) = false ->
  dbRejects env (CallUserCreate (Session.userId session)) = false ->
  (forall q, dbRejects env (CallFindMany q) = false) ->
  dbRejects env (CallUserUpdate (Session.userId session)) = false ->
  dbRejects env CallProductCheckCreate = true
  \/ dbRejects env CallCheckResultCreate = true ->
  validatedUser session w user ->
  1 <= User.pointsBalance user ->
  (Db.users (db w) !! Session.userId session = None ->
   Js.truthy (Session.userEmail session) = true) ->
  snd (POST env req w) = verificationFailed
  /\ Db.users (db (fst (POST env req w))) !! Session.userId session
     = Some (User.decrement 1 user).
Proof.
  intros Hrate Hjson Hvalid Hname Hdesc Hauth Hfind Hcreate Hquery Hupd Hrej Hu Hp Hnew.
  destruct (tryBlock_until_save env req raw session user w) as (w7 & Ht & Hl7);
    auto.
  destruct (saveAndRespond_charged env session user user (sanitizeBody raw)
              (decisionLogic (uniqueAlerts (matchesFound env raw w)) (elapsed env)) w7)
    as (w8 & e & Hs & Hl8); auto.
  rewrite POST_eq, Ht, Hs. split; [reflexivity|exact Hl8].
Qed.

Lemma point_charged_when_saving_fails_witness :
  let env := mkEnv 1000 (Resolves (Some (Sample.session "u1")))
               (fun c => match c with CallCheckResultCreate => true | _ => false end)
               (Resolves "") (Resolves (mkEnsemble 0 false)) 7 "scan1" "t" in
  let run := POST env (Sample.requestOf Sample.aspirin) Sample.world in
  status (snd run) = 500
  /\ option_map User.pointsBalance (Db.users (db (fst run)) !! "u1") = Some 2.
Proof.
  cbv zeta.
  destruct (point_charged_when_saving_fails
              (mkEnv 1000 (Resolves (Some (Sample.session "u1")))
                 (fun c => match c with CallCheckResultCreate => true | _ => false end)
                 (Resolves "") (Resolves (mkEnsemble 0 false)) 7 "scan1" "t")
              (Sample.requestOf Sample.aspirin) Sample.world Sample.aspirin
              (Sample.session "u1") Sample.alice) as [Hr Hu];
    try first [reflexivity | vm_compute; reflexivity | vm_compute; discriminate
              | intros; reflexivity | right; reflexivity].
  change (Session.userId (Sample.session "u1")) with "u1" in Hu.
  rewrite Hr, Hu. split; reflexivity.
Defined.

(** ** The search: what is found, what is not lost *)

Section SearchMore.

Implicit Types (table : AlertTable.t) (q : AlertWhere) (a : Alert.t).

Lemma insertDesc_perm a (l : list Alert.t) : insertDesc a l ≡ₚ a :: l.
Proof.
  induction l as [|b r IH]; simpl; [reflexivity|].
  destruct (Alert.scrapedAt b <=? Alert.scrapedAt a); [reflexivity|].
  rewrite IH. apply Permutation_swap.
Qed.

Lemma orderBy_perm (l : list Alert.t) : orderByScrapedAtDesc l ≡ₚ l.
Proof.
  unfold orderByScrapedAtDesc. induction l as [|b r IH]; simpl; [reflexivity|].
  rewrite insertDesc_perm, IH. reflexivity.
Qed.

Lemma elem_of_filter_matches q table a :
  a ∈ List.filter (matchesWhere table q) (AlertTable.rows table)
  <-> a ∈ AlertTable.rows table /\ matchesWhere table q a = true.
Proof. rewrite !list_elem_of_In. apply filter_In. Qed.

Lemma length_findMany_exact q table :
  length (findMany q table)
  = Nat.min 5 (length (List.filter (matchesWhere table q) (AlertTable.rows table))).
Proof.
  unfold findMany. rewrite length_take.
  rewrite (Permutation_length (orderBy_perm _)). reflexivity.
Qed.

(** A query finds something exactly when some row of the table satisfies
    it. *)
Lemma findMany_nonempty q table :
  findMany q table <> []
  <-> exists a, a ∈ AlertTable.rows table /\ matchesWhere table q a = true.
Proof.
  split.
  - intros Hne. destruct (findMany q table) as [|a r] eqn:E; [congruence|].
    exists a. apply (elem_of_findMany q). rewrite E. apply list_elem_of_here.
  - intros (a & Ha & Hm) E.
    assert (Hin : a ∈ List.filter (matchesWhere table q) (AlertTable.rows table))
      by (apply elem_of_filter_matches; auto).
    pose proof (length_findMany_exact q table) as Hlen. rewrite E in Hlen.
    destruct (List.filter (matchesWhere table q) (AlertTable.rows table));
      [inversion Hin|].
    simpl in Hlen. lia.
Qed.

Lemma elem_of_resultsOf table (qs : list AlertWhere) a :
  a ∈ resultsOf table qs <-> exists q, q ∈ qs /\ a ∈ findMany q table.
Proof.
  unfold resultsOf. induction qs as [|q r IH]; simpl.
  - split; [intros H; inversion H|intros (q & H & _); inversion H].
  - rewrite elem_of_app, IH. split.
    + intros [H|(q' & Hq & H)]; [exists q|exists q']; split; trivial.
      * apply list_elem_of_here.
      * apply list_elem_of_further, Hq.
    + intros (q' & Hq & H). apply elem_of_cons in Hq as [->|Hq]; [left|right]; eauto.
Qed.

Lemma resultsOf_nonempty table (qs : list AlertWhere) :
  resultsOf table qs <> []
  <-> exists a q, a ∈ AlertTable.rows table /\ q ∈ qs /\ matchesWhere table q a = true.
Proof.
  split.
  - intros Hne. destruct (resultsOf table qs) as [|a r] eqn:E; [congruence|].
    assert (Ha : a ∈ resultsOf table qs) by (rewrite E; apply list_elem_of_here).
    apply elem_of_resultsOf in Ha as (q & Hq & Ha).
    apply elem_of_findMany in Ha as [Ha Hm]. eauto.
  - intros (a & q & Ha & Hq & Hm) E.
    assert (Hf : findMany q table <> []) by (apply findMany_nonempty; eauto).
    destruct (findMany q table) as [|x r] eqn:Ef; [congruence|].
    assert (Hx : x ∈ resultsOf table qs).
    { apply elem_of_resultsOf. exists q. split; [exact Hq|].
      rewrite Ef. apply list_elem_of_here. }
    rewrite E in Hx. inversion Hx.
Qed.

End SearchMore.

(** X12.  The verdict, in terms of the alert table.  A verification
    response says [isCounterfeit = true] exactly when some row of the
    alert table satisfies one of the queries that the request gives rise
    to: it is active and, by the kind of the query, holds the batch
    number, or has a title or a content in which the database's own
    case-insensitive comparison finds the needle.  So neither the limit
    of five rows per query nor the deduplication ever hides the last
    match.  Every alert the response reports is such a row. *)
Theorem verdict_characterised (env : Env) (req : Request) (w : World) (raw : Body.t) :
  requestJson req = JsonShaped raw ->
  isVerification (snd (POST env req w)) = true ->
  let table := Db.nafdacAlerts (db w) in
  let queries := searchQueries (sanitizeBody raw) (ocrTextOf env (sanitizeBody raw)) in
  (payloadIsCounterfeit (payload (snd (POST env req w))) = Some true
   <-> exists a q, a ∈ AlertTable.rows table /\ q ∈ queries
                   /\ matchesWhere table q a = true)
  /\ Forall (fun a => a ∈ AlertTable.rows table
                      /\ Alert.active a = true
                      /\ exists q, q ∈ queries /\ matchesWhere table q a = true)
            (uniqueAlerts (matchesFound env raw w)).
Proof.
  intros Hjson Hver. cbv zeta.
  destruct (POST_spec env req w) as [_ [Hno|H]]; [congruence|].
  destruct H as (raw' & session & user & Hjson' & _ & _ & _ & _ & _ & _ & ->).
  assert (raw' = raw) as -> by congruence.
  split.
  - rewrite <- resultsOf_nonempty. fold (matchesFound env raw w).
    unfold successResponse. simpl.
    pose proof (uniqueAlerts_nil (matchesFound env raw w)) as Hnil.
    destruct (uniqueAlerts (matchesFound env raw w)) as [|a r] eqn:E; simpl.
    + split; [discriminate|]. intros Hne. exfalso. apply Hne, Hnil. reflexivity.
    + split; [|reflexivity]. intros _ Hm. apply Hnil in Hm. discriminate.
  - apply Forall_forall. intros a Ha.
    assert (Hin : a ∈ matchesFound env raw w).
    { eapply sublist_subseteq; [|exact Ha].
      unfold uniqueAlerts. etransitivity; [apply sublist_take|].
      rewrite dedupById_keepFirst. apply keepFirst_sublist. }
    apply elem_of_resultsOf in Hin as (q & Hq & Hin).
    apply elem_of_findMany in Hin as [Hin Hm].
    split; [exact Hin|]. split; [|eauto].
    unfold matchesWhere in Hm. apply andb_true_iff in Hm as [Hm _]. exact Hm.
Qed.

Lemma verdict_characterised_witness :
  payloadIsCounterfeit (payload (snd Sample.paracetamolRun)) = Some true.
Proof.
  destruct (verdict_characterised (Sample.environment "u1")
              (Sample.requestOf Sample.paracetamol) Sample.world Sample.paracetamol)
    as [H _]; [reflexivity|vm_compute; reflexivity|].
  apply H. exists Sample.alertA, (BatchHas "PC2024001").
  split; [apply list_elem_of_further, list_elem_of_here|].
  split; [vm_compute; apply list_elem_of_here|reflexivity].
Defined.

Section NeedleAndHeadline.



Lemma keepFirst_fixed (seen l : list Alert.t) :
  NoDup (Alert.id <$> (seen ++ l)) -> keepFirst seen l = l.
Proof.
  revert seen. induction l as [|a r IH]; intros seen Hnd; simpl; [reflexivity|].
  assert (Hfresh : existsb (fun a' => String.eqb (Alert.id a') (Alert.id a)) seen = false).
  { destruct (existsb _ seen) eqn:E; [|reflexivity].
    apply existsb_hasId in E. rewrite fmap_app in Hnd.
    apply NoDup_app in Hnd as (_ & Hdis & _). exfalso.
    apply (Hdis _ E). simpl. apply list_elem_of_here. }
  rewrite Hfresh. f_equal. apply IH.
  rewrite <- app_assoc. exact Hnd.
Qed.

Lemma dedupById_fixed (l : list Alert.t) :
  NoDup (Alert.id <$> l) -> dedupById l = l.
Proof. intros H. rewrite dedupById_keepFirst. apply keepFirst_fixed. exact H. Qed.

Lemma dedupById_NoDup (l : list Alert.t) : NoDup (Alert.id <$> dedupById l).
Proof. rewrite dedupById_keepFirst. apply keepFirst_NoDup. Qed.

Lemma uniqueAlerts_NoDup (l : list Alert.t) : NoDup (Alert.id <$> uniqueAlerts l).
Proof.
  unfold uniqueAlerts. eapply sublist_NoDup; [apply dedupById_NoDup|].
  apply fmap_sublist, sublist_take.
Qed.

Lemma uniqueAlerts_head (a : Alert.t) (r : list Alert.t) :
  exists rest, uniqueAlerts (a :: r) = a :: rest.
Proof.
  unfold uniqueAlerts. rewrite dedupById_keepFirst. simpl. eexists. reflexivity.
Qed.

End NeedleAndHeadline.



(** The needles of a name with a Latin-1 capital: E acute (201) is
    lower-cased to e acute (233), in the title query and in the content
    query. *)
Example needles_of_a_latin1_name :
  searchQueries (sanitizeBody Sample.cafe) ""
  = [TitleContains ("caf" +:+ String (ascii_of_nat 233) " forte");
     ContentContains (Some ("caf" +:+ String (ascii_of_nat 233) ""))].
Proof. vm_compute. reflexivity. Qed.

(** X14.  Deduplicating twice.  The deduplicated list has distinct ids,
    before and after the cut to ten; a list with distinct ids is left as
    it is; so deduplicating, with or without the cut to ten, is
    idempotent. *)
Theorem dedup_idempotent (allMatches : list Alert.t) :
  NoDup (Alert.id <$> dedupById allMatches)
  /\ NoDup (Alert.id <$> uniqueAlerts allMatches)
  /\ (NoDup (Alert.id <$> allMatches) -> dedupById allMatches = allMatches)
  /\ dedupById (dedupById allMatches) = dedupById allMatches
  /\ uniqueAlerts (uniqueAlerts allMatches) = uniqueAlerts allMatches.
Proof.
  split; [apply dedupById_NoDup|]. split; [apply uniqueAlerts_NoDup|].
  split; [apply dedupById_fixed|]. split.
  - apply dedupById_fixed, dedupById_NoDup.
  - unfold uniqueAlerts at 1.
    rewrite (dedupById_fixed (uniqueAlerts allMatches)) by apply uniqueAlerts_NoDup.
    unfold uniqueAlerts. apply take_idemp.
Qed.

Lemma dedup_idempotent_witness :
  dedupById [Sample.alertA; Sample.alertB] = [Sample.alertA; Sample.alertB].
Proof.
  destruct (dedup_idempotent [Sample.alertA; Sample.alertB]) as (_ & _ & Hfixed & _).
  apply Hfixed. vm_compute. apply NoDup_cons. split.
  - intros H. apply list_elem_of_singleton in H. discriminate H.
  - apply NoDup_singleton.
Defined.

(** X15.  The headline of a positive result.  When the search found
    something, the alert type, the source URL and the batch numbers of
    the result are those of the very first match in strategy order, the
    details are present, and the number of alerts reported is the number
    of deduplicated matches, between 1 and 10. *)
Theorem headline_is_first_match (first : Alert.t) (rest : list Alert.t)
    (searchTime : Z) :
  let result := decisionLogic (uniqueAlerts (first :: rest)) searchTime in
  Result.isCounterfeit result = true
  /\ Result.alertType result = Alert.alertType first
  /\ Result.sourceUrl result = Alert.url first
  /\ Result.batchNumber result
     = (if Js.isEmpty (Js.join ", " (Alert.batchNumbers first)) then None
        else Some (Js.join ", " (Alert.batchNumbers first)))
  /\ Result.detectedAlertDetails result <> None
  /\ Result.alertsFound result = Z.of_nat (length (uniqueAlerts (first :: rest)))
  /\ 1 <= Result.alertsFound result <= 10.
Proof.
  cbv zeta. destruct (uniqueAlerts_head first rest) as [more E].
  assert (Hlen : (length (uniqueAlerts (first :: rest)) <= 10)%nat)
    by (unfold uniqueAlerts; rewrite length_take; lia).
  rewrite E in *. simpl in *. repeat split; try discriminate; lia.
Qed.

(** X16.  The OCR service cannot fail a request.  A run in which the OCR
    request rejects is, in its response and in everything it leaves
    behind, the run in which the OCR found no text.  And for a body
    without images the OCR outcome plays no part at all. *)
Theorem ocr_failure_is_no_text (clock : Z) (auth : Outcome (option Session.t))
    (rejects : Call -> bool) (ensemble : Outcome EnsembleResult) (elapsed : Z)
    (freshId isoNow : string) (req : Request) (w : World) :
  (forall e,
      POST (mkEnv clock auth rejects (Rejects e) ensemble elapsed freshId isoNow) req w
      = POST (mkEnv clock auth rejects (Resolves "") ensemble elapsed freshId isoNow) req w)
  /\ (forall raw ocr ocr',
        requestJson req = JsonShaped raw ->
        Body.images raw = None \/ Body.images raw = Some [] ->
        POST (mkEnv clock auth rejects ocr ensemble elapsed freshId isoNow) req w
        = POST (mkEnv clock auth rejects ocr' ensemble elapsed freshId isoNow) req w).
Proof.
  split.
  - intros e. reflexivity.
  - intros raw ocr ocr' Hjson Himages.
    unfold POST, tryBlock. rewrite !bind_eq, !step1_eq. cbn [now].
    destruct (fst (checkRateLimit clock (clientIP req) (rateLimitStore w)));
      [|reflexivity].
    rewrite !bind_eq. unfold step2Validation, tryCatch. rewrite Hjson.
    destruct (verifyProductSchema raw); [|reflexivity].
    destruct raw as [name description batch images]. simpl in Himages.
    destruct Himages as [-> | ->]; reflexivity.
Qed.

Lemma ocr_failure_is_no_text_witness :
  POST (mkEnv 1000 (Resolves (Some (Sample.session "u1"))) (fun _ => false)
              (Rejects "OCR down") (Resolves (mkEnsemble 0 false)) 7 "scan1" "t")
       (Sample.requestOf Sample.aspirin) Sample.world
  = POST (mkEnv 1000 (Resolves (Some (Sample.session "u1"))) (fun _ => false)
                (Resolves "some text") (Resolves (mkEnsemble 0 false)) 7 "scan1" "t")
         (Sample.requestOf Sample.aspirin) Sample.world.
Proof.
  apply (ocr_failure_is_no_text 1000 (Resolves (Some (Sample.session "u1")))
           (fun _ => false) (Resolves (mkEnsemble 0 false)) 7 "scan1" "t"
           (Sample.requestOf Sample.aspirin) Sample.world)
    with (raw := Sample.aspirin); [reflexivity|left; reflexivity].
Defined.

(** ** The order of the rejections *)

Section Rejections.

Variable env : Env.
Variable req : Request.

Implicit Types (w : World).

(** A refusal leaves the limiter's store as it was. *)
Lemma checkRateLimit_refuses (clock : Z) (ip : string) (store : gmap string RateEntry) :
  fst (checkRateLimit clock ip store) = false ->
  checkRateLimit clock ip store = (false, store).
Proof.
  unfold checkRateLimit. destruct (store !! ip) as [e|]; simpl; [|discriminate].
  destruct (clock >? resetTime e); simpl; [discriminate|].
  destruct (count e >=? RATE_LIMIT_MAX_REQUESTS); simpl; [reflexivity|discriminate].
Qed.

Lemma POST_limited w :
  fst (checkRateLimit (now env) (clientIP req) (rateLimitStore w)) = false ->
  snd (POST env req w) = tooManyRequests.
Proof.
  intros H. rewrite POST_eq. unfold tryBlock. rewrite bind_eq, step1_eq, H. reflexivity.
Qed.

Lemma POST_bad_body w :
  fst (checkRateLimit (now env) (clientIP req) (rateLimitStore w)) = true ->
  match requestJson req with
  | JsonRejects _ => snd (POST env req w) = invalidJson
  | JsonMisshapen first =>
      snd (POST env req w) = invalidInput (Js.orStr first "Invalid request format")
  | JsonShaped raw =>
      match verifyProductSchema raw with
      | [] => True
      | issue :: _ =>
          snd (POST env req w)
          = invalidInput (Js.orStr (Some issue) "Invalid request format")
      end
  end
  /\ ((forall raw, requestJson req = JsonShaped raw -> verifyProductSchema raw <> []) ->
      calls (fst (POST env req w)) = calls w /\ db (fst (POST env req w)) = db w).
Proof.
  intros H. rewrite POST_eq. unfold tryBlock. rewrite bind_eq, step1_eq, H.
  rewrite bind_eq. unfold step2Validation, tryCatch.
  destruct (requestJson req) as [e|m|raw]; simpl; [auto..|].
  destruct (verifyProductSchema raw) eqn:E; simpl; [|auto].
  split; [exact I|]. intros Hbad. exfalso. apply (Hbad raw eq_refl E).
Qed.

Lemma POST_no_session (raw : Body.t) w :
  fst (checkRateLimit (now env) (clientIP req) (rateLimitStore w)) = true ->
  requestJson req = JsonShaped raw -> verifyProductSchema raw = [] ->
  authOutcome env = Resolves None ->
  snd (POST env req w) = authenticationRequired
  /\ calls (fst (POST env req w)) = calls w ++ [CallAuth]
  /\ db (fst (POST env req w)) = db w.
Proof.
  intros Hrate Hjson Hvalid Hauth. rewrite POST_eq. unfold tryBlock.
  rewrite bind_eq, step1_eq, Hrate.
  rewrite bind_eq, (step2_valid req raw) by assumption.
  rewrite bind_eq. unfold step3Authentication, bind, logCall, await.
  rewrite Hauth. simpl. auto.
Qed.

Lemma POST_unknown_user_without_email (raw : Body.t) (session : Session.t) w :
  fst (checkRateLimit (now env) (clientIP req) (rateLimitStore w)) = true ->
  requestJson req = JsonShaped raw -> verifyProductSchema raw = [] ->
  authOutcome env = Resolves (Some session) ->
  dbRejects env (CallUserFindUnique (Session.userId session)) = false ->
  Db.users (db w) !! Session.userId session = None ->
  Js.truthy (Session.userEmail session) = false ->
  snd (POST env req w) = insufficientPoints
  /\ db (fst (POST env req w)) = db w.
Proof.
  intros Hrate Hjson Hvalid Hauth Hfind Hu Hmail. rewrite POST_eq. unfold tryBlock.
  rewrite bind_eq, step1_eq, Hrate.
  rewrite bind_eq, (step2_valid req raw) by assumption.
  rewrite bind_eq, (step3_session env session) by assumption.
  rewrite bind_eq. unfold step4UserValidation, tryCatch.
  rewrite bind_eq, dbCall_eq, Hfind. simpl. rewrite Hu, Hmail.
  rewrite bind_eq. simpl. auto.
Qed.

(** A body whose name is nothing but whitespace passes the schema, and is
    refused only after step 4: a user unknown so far has been created. *)
Lemma POST_blank_name_creates_user (raw : Body.t) (session : Session.t) w :
  fst (checkRateLimit (now env) (clientIP req) (rateLimitStore w)) = true ->
  requestJson req = JsonShaped raw -> verifyProductSchema raw = [] ->
  Js.isEmpty (Body.productName (sanitizeBody raw)) = true ->
  authOutcome env = Resolves (Some session) ->
  dbRejects env (CallUserFindUnique (Session.userId session)) = false ->
  dbRejects env (CallUserCreate (Session.userId session)) = false ->
  Db.users (db w) !! Session.userId session = None ->
  Js.truthy (Session.userEmail session) = true ->
  snd (POST env req w) = missingProductInformation
  /\ Db.users (db (fst (POST env req w))) !! Session.userId session
     = Some (User.mk (Session.userId session) (Session.userEmail session)
                     (Js.orStr (Session.userName session) "Unknown") 5).
Proof.
  intros Hrate Hjson Hvalid Hname Hauth Hfind Hcreate Hu Hmail.
  rewrite POST_eq. unfold tryBlock.
  rewrite bind_eq, step1_eq, Hrate.
  rewrite bind_eq, (step2_valid req raw) by assumption.
  rewrite bind_eq, (step3_session env session) by assumption.
  rewrite bind_eq.
  match goal with
  | |- context [step4UserValidation env session ?w3] =>
      destruct (step4_passes env session
                  (User.mk (Session.userId session) (Session.userEmail session)
                           (Js.orStr (Session.userName session) "Unknown") 5) w3)
        as (w4 & -> & _ & Hl4)
  end.
  - exact Hfind.
  - unfold validatedUser. simpl. rewrite Hu. reflexivity.
  - simpl. lia.
  - auto.
  - rewrite bind_eq. unfold requireProductInformation. rewrite Hname. simpl.
    split; [reflexivity|exact Hl4].
Qed.

End Rejections.

(** X17.  The order of the rejections.  The limiter is asked first: when
    it refuses, the answer is 429 whatever the body and the session, and
    the world is left as it was.  The body comes second: a body that is
    not JSON, has the wrong shape or fails the schema is answered 400
    (for the last two with the message of the first issue); in each of
    the three cases no call has been issued and the database is as it
    was, so the refusal comes before authentication.  The session comes
    third: without one the answer is 401 and the only call is the
    authentication.  A session of a user who is not stored and has no
    email is answered 400 [Insufficient points]; nothing is created. *)
Theorem rejections_in_order (env : Env) (req : Request) (w : World) :
  let admitted := fst (checkRateLimit (now env) (clientIP req) (rateLimitStore w)) in
  (admitted = false ->
     snd (POST env req w) = tooManyRequests
     /\ rateLimitStore (fst (POST env req w)) = rateLimitStore w
     /\ calls (fst (POST env req w)) = calls w
     /\ db (fst (POST env req w)) = db w)
  /\ (admitted = true ->
      (forall e, requestJson req = JsonRejects e ->
         snd (POST env req w) = invalidJson
         /\ calls (fst (POST env req w)) = calls w
         /\ db (fst (POST env req w)) = db w)
      /\ (forall first, requestJson req = JsonMisshapen first ->
            snd (POST env req w)
            = invalidInput (Js.orStr first "Invalid request format")
            /\ calls (fst (POST env req w)) = calls w
            /\ db (fst (POST env req w)) = db w)
      /\ (forall raw issue rest,
            requestJson req = JsonShaped raw ->
            verifyProductSchema raw = issue :: rest ->
            snd (POST env req w)
            = invalidInput (Js.orStr (Some issue) "Invalid request format")
            /\ calls (fst (POST env req w)) = calls w
            /\ db (fst (POST env req w)) = db w)
      /\ (forall raw,
            requestJson req = JsonShaped raw -> verifyProductSchema raw = [] ->
            authOutcome env = Resolves None ->
            snd (POST env req w) = authenticationRequired
            /\ calls (fst (POST env req w)) = calls w ++ [CallAuth]
            /\ db (fst (POST env req w)) = db w)
      /\ (forall raw session,
            requestJson req = JsonShaped raw -> verifyProductSchema raw = [] ->
            authOutcome env = Resolves (Some session) ->
            dbRejects env (CallUserFindUnique (Session.userId session)) = false ->
            Db.users (db w) !! Session.userId session = None ->
            Js.truthy (Session.userEmail session) = false ->
            snd (POST env req w) = insufficientPoints
            /\ db (fst (POST env req w)) = db w)).
Proof.
  cbv zeta. split.
  { intros Hrate. split; [apply POST_limited; exact Hrate|].
    rewrite (POST_rate_limited env req w) by (apply checkRateLimit_refuses; exact Hrate).
    repeat split. }
  intros Hrate.
  pose proof (POST_bad_body env req w Hrate) as [Hbody Hquiet].
  split; [|split; [|split; [|split]]].
  - intros e Hjson. rewrite Hjson in Hbody. split; [exact Hbody|].
    apply Hquiet. intros raw Hjson'. congruence.
  - intros first Hjson. rewrite Hjson in Hbody. split; [exact Hbody|].
    apply Hquiet. intros raw Hjson'. congruence.
  - intros raw issue rest Hjson Hissue. rewrite Hjson, Hissue in Hbody.
    split; [exact Hbody|]. apply Hquiet. intros raw' Hjson'.
    assert (raw' = raw) as -> by congruence. rewrite Hissue. discriminate.
  - intros raw Hjson Hvalid Hauth. apply (POST_no_session env req raw); assumption.
  - intros raw session Hjson Hvalid Hauth Hfind Hu Hmail.
    apply (POST_unknown_user_without_email env req raw session); assumption.
Qed.

Lemma rejections_in_order_witness :
  snd (POST (Sample.environment "u1")
            (Sample.requestOf (Body.mk "P" "Pain relief medication" None None))
            Sample.world)
  = invalidInput "Product name must be at least 2 characters".
Proof.
  destruct (rejections_in_order (Sample.environment "u1")
              (Sample.requestOf (Body.mk "P" "Pain relief medication" None None))
              Sample.world) as [_ H].
  destruct (H ltac:(vm_compute; reflexivity)) as (_ & _ & Hschema & _).
  destruct (Hschema (Body.mk "P" "Pain relief medication" None None)
              "Product name must be at least 2 characters" [] eq_refl eq_refl)
    as [Hr _].
  rewrite Hr. reflexivity.
Defined.

(** X18.  A refusal that leaves an account behind.  A name made of
    whitespace only passes the schema and is refused, after sanitising,
    with 400 [Missing product information]; this happens after step 4,
    so a user who was not stored (and whose session has an email) has by
    then been created with the default 5 points. *)
Theorem blank_name_is_refused_after_user_creation (env : Env) (req : Request)
    (w : World) (raw : Body.t) (session : Session.t) :
  fst (checkRateLimit (now env) (clientIP req) (rateLimitStore w)) = true ->
  requestJson req = JsonShaped raw -> verifyProductSchema raw = [] ->
  Js.isEmpty (Body.productName (sanitizeBody raw)) = true ->
  authOutcome env = Resolves (Some session) ->
  dbRejects env (CallUserFindUnique (Session.userId session)) = false ->
  dbRejects env (CallUserCreate (Session.userId session)) = false ->
  Db.users (db w) !! Session.userId session = None ->
  Js.truthy (Session.userEmail session) = true ->
  snd (POST env req w) = missingProductInformation
  /\ Db.users (db (fst (POST env req w))) !! Session.userId session
     = Some (User.mk (Session.userId session) (Session.userEmail session)
                     (Js.orStr (Session.userName session) "Unknown") 5).
Proof. apply POST_blank_name_creates_user. Qed.

Lemma blank_name_is_refused_after_user_creation_witness :
  let env := mkEnv 1000 (Resolves (Some (Session.mk "u9" (Some "z@example.com") None)))
               (fun _ => false) (Resolves "") (Resolves (mkEnsemble 0 false))
               7 "scan1" "t" in
  let run := POST env (Sample.requestOf (Body.mk "   " "Pain relief" None None))
               Sample.world in
  status (snd run) = 400
  /\ option_map User.pointsBalance (Db.users (db (fst run)) !! "u9") = Some 5.
Proof.
  cbv zeta.
  destruct (blank_name_is_refused_after_user_creation
              (mkEnv 1000 (Resolves (Some (Session.mk "u9" (Some "z@example.com") None)))
                 (fun _ => false) (Resolves "") (Resolves (mkEnsemble 0 false))
                 7 "scan1" "t")
              (Sample.requestOf (Body.mk "   " "Pain relief" None None))
              Sample.world (Body.mk "   " "Pain relief" None None)
              (Session.mk "u9" (Some "z@example.com") None)) as [Hr Hu];
    try first [reflexivity | vm_compute; reflexivity].
  change (Session.userId (Session.mk "u9" (Some "z@example.com") None)) with "u9" in Hu.
  rewrite Hr, Hu. split; reflexivity.
Defined.

(** * The other handlers *)

(** ** Substrings *)

Section Includes.

Lemma prefix_append (n post : string) : String.prefix n (n +:+ post) = true.
Proof.
  induction n as [|c n IH]; simpl; [destruct post; reflexivity|].
  destruct (ascii_dec c c); [exact IH|congruence].
Qed.

Lemma prefix_iff (n h : string) :
  String.prefix n h = true <-> exists post, h = n +:+ post.
Proof.
  split.
  - revert h. induction n as [|c n IH]; intros h H.
    + exists h. reflexivity.
    + destruct h as [|d h]; simpl in H; [discriminate|].
      destruct (ascii_dec c d) as [->|]; [|discriminate].
      destruct (IH h H) as [post ->]. exists post. reflexivity.
  - intros [post ->]. apply prefix_append.
Qed.

Lemma includes_iff (n h : string) :
  Js.includes n h = true <-> exists pre post, h = pre +:+ n +:+ post.
Proof.
  assert (Heq : forall hay, Js.includes n hay
                = String.prefix n hay
                  || match hay with
                     | EmptyString => false
                     | String _ r => Js.includes n r
                     end) by (intros [|? ?]; reflexivity).
  split.
  - induction h as [|c h IH]; intros H; rewrite Heq in H;
      apply orb_true_iff in H as [H|H].
    + apply prefix_iff in H as [post Hpost]. exists EmptyString, post. exact Hpost.
    + discriminate.
    + apply prefix_iff in H as [post Hpost]. exists EmptyString, post. exact Hpost.
    + destruct (IH H) as (pre & post & ->). exists (String c pre), post. reflexivity.
  - intros (pre & post & ->). induction pre as [|c pre IH].
    + rewrite Heq. change (EmptyString +:+ n +:+ post) with (n +:+ post).
      rewrite prefix_append. reflexivity.
    + change (String c pre +:+ n +:+ post) with (String c (pre +:+ n +:+ post)).
      rewrite Heq, IH. apply orb_true_r.
Qed.

Lemma isAdminOf_eq (id : string) (email : option string) :
  CheckAccess.isAdminOf id email
  = match email with
    | Some e => Js.includes "admin@" e
    | None => false
    end || String.eqb id "admin001".
Proof.
  unfold CheckAccess.isAdminOf. destruct email as [e|]; [|apply orb_false_r].
  destruct (String.eqb_spec e "admin@fakedetector.ng") as [->|]; [|apply orb_false_r].
  reflexivity.
Qed.

End Includes.

Ltac refute :=
  first [ discriminate
        | intros [? H]; discriminate H
        | intros (? & H & _); discriminate H
        | intros (? & ? & H & _); discriminate H ].

Ltac never := split; refute.

(** X19.  Who is an administrator.  [GET] of the check-access route
    answers 500 exactly when the authentication rejects and 401 exactly
    when the session carries no user id.  Otherwise it answers 200, and
    it reports an administrator exactly when the user id is [admin001]
    or the email contains [admin@] anywhere; the comparison with the
    full address [admin@fakedetector.ng] never decides.  The role is
    [admin] exactly for an administrator, and no error response reports
    one. *)
Theorem admin_is_decided_by_substring (auth : Outcome CheckAccess.AuthSession) :
  let r := CheckAccess.GET auth in
  (CheckAccess.status r = 500 <-> exists e, auth = Rejects e)
  /\ (CheckAccess.status r = 401 <->
      exists s, auth = Resolves s /\ Js.truthy (CheckAccess.userIdOf s) = false)
  /\ (CheckAccess.status r = 200 <->
      exists id email, auth = Resolves (CheckAccess.SessionOf (Some id) email)
                       /\ id <> EmptyString)
  /\ (CheckAccess.grantsAdmin r = true <->
      exists id email,
        auth = Resolves (CheckAccess.SessionOf (Some id) email)
        /\ id <> EmptyString
        /\ (id = "admin001"
            \/ exists pre post, email = Some (pre +:+ "admin@" +:+ post)))
  /\ (CheckAccess.roleOf r = Some "admin" <-> CheckAccess.grantsAdmin r = true).
Proof.
  cbv zeta. destruct auth as [[| |[[|c id]|] email]|e]; simpl.
  - split; [never|]. split; [split; eauto|]. split; [never|]. split; never.
  - split; [never|]. split; [split; eauto|]. split; [never|]. split; never.
  - split; [never|]. split; [split; eauto|].
    split; [split; [discriminate|intros (? & ? & H & Hne); injection H as <- <-; congruence]|].
    split; [|never].
    split; [discriminate|intros (? & ? & H & Hne & _); injection H as <- <-; congruence].
  - rewrite isAdminOf_eq. split; [never|].
    split; [split; [discriminate|intros (s & H & Hs); injection H as <-; discriminate]|].
    split.
    { split; [|reflexivity]. intros _. exists (String c id), email.
      split; [reflexivity|discriminate]. }
    split.
    + split.
      * intros H. exists (String c id), email. split; [reflexivity|].
        split; [discriminate|].
        apply orb_true_iff in H as [H|H].
        -- right. destruct email as [e|]; [|discriminate].
           apply includes_iff in H as (pre & post & ->). eauto.
        -- left. apply String.eqb_eq in H. exact H.
      * intros (id' & email' & H & _ & Hor). injection H as <- <-.
        apply orb_true_iff. destruct Hor as [->|(pre & post & ->)].
        -- right. reflexivity.
        -- left. apply includes_iff. eauto.
    + unfold CheckAccess.roleOf, CheckAccess.grantsAdmin. simpl.
      match goal with |- context [if ?b then _ else _] => destruct b end;
        split; intros H; try reflexivity; discriminate H.
  - split; [never|]. split; [split; eauto|]. split; [never|]. split; never.
  - split; [split; eauto|]. split; [never|]. split; [never|]. split; never.
Qed.

(** ** Patterns *)

Section Patterns.

Lemma append_is_empty (a b : string) :
  a +:+ b = EmptyString -> a = EmptyString /\ b = EmptyString.
Proof. destruct a; simpl; [auto|discriminate]. Qed.

Lemma nullable_spec (r : Regex.t) :
  Regex.nullable r = true <-> Matches r EmptyString.
Proof.
  induction r as [| |p|r1 IH1 r2 IH2|r1 IH1 r2 IH2|r IH]; simpl.
  - split; [discriminate|inversion 1].
  - split; [constructor|reflexivity].
  - split; [discriminate|inversion 1].
  - rewrite andb_true_iff, IH1, IH2. split.
    + intros [H1 H2]. apply (MatchesSeq _ _ EmptyString EmptyString); assumption.
    + inversion 1 as [| |? ? s1 s2 H1 H2 Heq| | | |]; subst.
      match goal with
      | E : _ +:+ _ = EmptyString |- _ => apply append_is_empty in E as [-> ->]
      end.
      auto.
  - rewrite orb_true_iff, IH1, IH2. split.
    + intros [H|H]; [apply MatchesOrLeft|apply MatchesOrRight]; exact H.
    + inversion 1; subst; auto.
  - split; [constructor|reflexivity].
Qed.

Lemma matches_star_cons (r : Regex.t) (c : ascii) (s : string) :
  Matches (Regex.Star r) (String c s) ->
  exists s1 s2, s = s1 +:+ s2 /\ Matches r (String c s1) /\ Matches (Regex.Star r) s2.
Proof.
  intros H. remember (Regex.Star r) as star eqn:Hr. remember (String c s) as cs eqn:Hs.
  revert Hr Hs.
  induction H as [| | | | | |r' s1 s2 H1 _ H2 IH2]; intros Hr Hs; try discriminate.
  injection Hr as ->. destruct s1 as [|d s1]; simpl in Hs.
  - apply IH2; [reflexivity|exact Hs].
  - injection Hs as -> <-. exists s1, s2. auto.
Qed.

Lemma derive_spec (r : Regex.t) (c : ascii) (s : string) :
  Matches (Regex.derive c r) s <-> Matches r (String c s).
Proof.
  revert s.
  induction r as [| |p|r1 IH1 r2 IH2|r1 IH1 r2 IH2|r IH]; intros s; simpl.
  - split; inversion 1.
  - split; inversion 1.
  - destruct (p c) eqn:Hp; split.
    + inversion 1; subst. constructor. exact Hp.
    + inversion 1; subst. constructor.
    + inversion 1.
    + inversion 1; subst. congruence.
  - assert (Hleft : forall t, Matches (Regex.Seq (Regex.derive c r1) r2) t ->
                              Matches (Regex.Seq r1 r2) (String c t)).
    { inversion 1 as [| |? ? s1 s2 H1 H2| | | |]; subst.
      apply IH1 in H1. apply (MatchesSeq _ _ (String c s1) s2); assumption. }
    assert (Hback : forall t, Matches (Regex.Seq r1 r2) (String c t) ->
                              Matches (Regex.Seq (Regex.derive c r1) r2) t
                              \/ (Regex.nullable r1 = true /\ Matches (Regex.derive c r2) t)).
    { inversion 1 as [| |? ? s1 s2 H1 H2 Heq| | | |]; subst.
      destruct s1 as [|d s1]; simpl in *.
      - right. split; [apply nullable_spec; exact H1|]. apply IH2.
        subst. exact H2.
      - match goal with E : String _ _ = String c t |- _ => injection E as -> <- end.
        left. apply MatchesSeq; [apply IH1; exact H1|exact H2]. }
    destruct (Regex.nullable r1) eqn:Hn; split.
    + inversion 1; subst; [auto|].
      apply (MatchesSeq _ _ EmptyString (String c s));
        [apply nullable_spec; exact Hn|apply IH2; assumption].
    + intros H. destruct (Hback s H) as [H'|[_ H']];
        [apply MatchesOrLeft|apply MatchesOrRight]; exact H'.
    + apply Hleft.
    + intros H. destruct (Hback s H) as [H'|[H' _]]; [exact H'|discriminate].
  - split.
    + inversion 1; subst; [apply MatchesOrLeft; apply IH1|apply MatchesOrRight; apply IH2];
        assumption.
    + inversion 1; subst; [apply MatchesOrLeft; apply IH1|apply MatchesOrRight; apply IH2];
        assumption.
  - split.
    + inversion 1 as [| |? ? s1 s2 H1 H2| | | |]; subst.
      apply IH in H1. apply (MatchesStarCons _ (String c s1) s2); assumption.
    + intros H. apply matches_star_cons in H as (s1 & s2 & -> & H1 & H2).
      apply MatchesSeq; [apply IH; exact H1|exact H2].
Qed.

Lemma test_spec (r : Regex.t) (s : string) :
  Regex.test r s = true <-> Matches r s.
Proof.
  revert r. induction s as [|c s IH]; intros r; simpl.
  - apply nullable_spec.
  - rewrite IH. apply derive_spec.
Qed.

Lemma matches_star_class (p : ascii -> bool) (s : string) :
  Matches (Regex.Star (Regex.Class p)) s <-> Js.allChars p s = true.
Proof.
  split.
  - intros H. remember (Regex.Star (Regex.Class p)) as star eqn:Hr. revert Hr.
    induction H as [| | | | | |r' s1 s2 H1 _ H2 IH2]; intros Hr; try discriminate.
    + reflexivity.
    + injection Hr as ->. inversion H1; subst. simpl.
      rewrite (IH2 eq_refl). rewrite andb_true_r. assumption.
  - induction s as [|c s IH]; simpl; intros H.
    + constructor.
    + apply andb_true_iff in H as [Hc Hs].
      apply (MatchesStarCons _ (String c EmptyString) s); [constructor; exact Hc|auto].
Qed.

Lemma matches_plus_class (p : ascii -> bool) (s : string) :
  Matches (Regex.Plus (Regex.Class p)) s
  <-> s <> EmptyString /\ Js.allChars p s = true.
Proof.
  unfold Regex.Plus. split.
  - inversion 1 as [| |? ? s1 s2 H1 H2| | | |]; subst. inversion H1; subst. simpl.
    apply matches_star_class in H2. rewrite H2. split; [discriminate|].
    rewrite andb_true_r. assumption.
  - intros [Hne H]. destruct s as [|c s]; [congruence|]. simpl in H.
    apply andb_true_iff in H as [Hc Hs].
    apply (MatchesSeq _ _ (String c EmptyString) s);
      [constructor; exact Hc|apply matches_star_class; exact Hs].
Qed.

Lemma matches_char (x : ascii) (s : string) :
  Matches (Regex.Class (Ascii.eqb x)) s <-> s = String x EmptyString.
Proof.
  split.
  - inversion 1 as [|? c Hc| | | | |]; subst. apply Ascii.eqb_eq in Hc. congruence.
  - intros ->. constructor. apply Ascii.eqb_refl.
Qed.

Lemma countChar_append (x : ascii) (a b : string) :
  countChar x (a +:+ b) = (countChar x a + countChar x b)%nat.
Proof. induction a as [|c a IH]; simpl; [reflexivity|]. rewrite IH. lia. Qed.

Lemma countChar_plain (a : string) :
  Js.allChars Contact.isPlain a = true -> countChar "@" a = 0%nat.
Proof.
  induction a as [|c a IH]; simpl; [reflexivity|]. intros H.
  apply andb_true_iff in H as [Hc Ha]. rewrite (IH Ha).
  unfold Contact.isPlain in Hc. apply negb_true_iff, orb_false_iff in Hc as [_ ->].
  reflexivity.
Qed.

Lemma plain_not_whitespace (a : string) :
  Js.allChars Contact.isPlain a = true ->
  Js.allChars (fun c => negb (Js.isWhitespace c)) a = true.
Proof.
  induction a as [|c a IH]; simpl; [reflexivity|]. intros H.
  apply andb_true_iff in H as [Hc Ha]. rewrite (IH Ha), andb_true_r.
  unfold Contact.isPlain in Hc. apply negb_true_iff, orb_false_iff in Hc as [-> _].
  reflexivity.
Qed.

Lemma length_append (a b : string) :
  String.length (a +:+ b) = (String.length a + String.length b)%nat.
Proof. induction a as [|c a IH]; simpl; [reflexivity|]. rewrite IH. reflexivity. Qed.

Lemma length_nonempty (a : string) : a <> EmptyString -> (1 <= String.length a)%nat.
Proof. destruct a; [congruence|simpl; lia]. Qed.

Lemma emailRegex_spec (s : string) :
  Regex.test Contact.emailRegex s = true <->
  exists a b c,
    s = a +:+ "@" +:+ b +:+ "." +:+ c
    /\ (a <> EmptyString /\ Js.allChars Contact.isPlain a = true)
    /\ (b <> EmptyString /\ Js.allChars Contact.isPlain b = true)
    /\ (c <> EmptyString /\ Js.allChars Contact.isPlain c = true).
Proof.
  rewrite test_spec. unfold Contact.emailRegex. split.
  - inversion 1 as [| |? ? a s1 Ha H1| | | |]; subst.
    inversion H1 as [| |? ? at' s2 Hat H2| | | |]; subst.
    inversion H2 as [| |? ? b s3 Hb H3| | | |]; subst.
    inversion H3 as [| |? ? dot c Hdot Hc| | | |]; subst.
    apply matches_char in Hat as ->. apply matches_char in Hdot as ->.
    apply matches_plus_class in Ha, Hb, Hc.
    exists a, b, c. auto.
  - intros (a & b & c & -> & Ha & Hb & Hc).
    apply matches_plus_class in Ha, Hb, Hc.
    apply MatchesSeq; [exact Ha|].
    apply (MatchesSeq _ _ "@"); [apply matches_char; reflexivity|].
    apply MatchesSeq; [exact Hb|].
    apply (MatchesSeq _ _ "."); [apply matches_char; reflexivity|exact Hc].
Qed.

End Patterns.

(** X20.  The addresses the contact form accepts.  The pattern
    [/^[^\s@]+@[^\s@]+\.[^\s@]+$/] accepts exactly the strings
    [a@b.c] whose three parts are non-empty and free of whitespace and
    of [@]; the parts [b] and [c] may contain further dots.  An accepted
    address therefore has no whitespace, exactly one [@], and at least
    five code units. *)
Theorem contact_email_pattern (s : string) :
  (Regex.test Contact.emailRegex s = true <->
   exists a b c,
     s = a +:+ "@" +:+ b +:+ "." +:+ c
     /\ (a <> EmptyString /\ Js.allChars Contact.isPlain a = true)
     /\ (b <> EmptyString /\ Js.allChars Contact.isPlain b = true)
     /\ (c <> EmptyString /\ Js.allChars Contact.isPlain c = true))
  /\ (Regex.test Contact.emailRegex s = true ->
      Js.allChars (fun c => negb (Js.isWhitespace c)) s = true
      /\ countChar "@" s = 1%nat
      /\ (5 <= String.length s)%nat).
Proof.
  split; [apply emailRegex_spec|].
  intros H. apply emailRegex_spec in H as (a & b & c & -> & [Hna Ha] & [Hnb Hb] & [Hnc Hc]).
  split; [|split].
  - rewrite !allChars_append, (plain_not_whitespace a), (plain_not_whitespace b),
      (plain_not_whitespace c) by assumption.
    reflexivity.
  - rewrite !countChar_append, (countChar_plain a), (countChar_plain b),
      (countChar_plain c) by assumption.
    reflexivity.
  - rewrite !length_append. apply length_nonempty in Hna, Hnb, Hnc. simpl. lia.
Qed.

Lemma contact_email_pattern_witness :
  Regex.test Contact.emailRegex "ada@mail.example.org" = true
  /\ countChar "@" "ada@mail.example.org" = 1%nat.
Proof.
  destruct (contact_email_pattern "ada@mail.example.org") as [_ H].
  destruct (H ltac:(vm_compute; reflexivity)) as (_ & Hcount & _).
  split; [vm_compute; reflexivity|exact Hcount].
Defined.

(** ** The contact form *)

Section ContactForm.

Variable env : Contact.Env.

Lemma compose_text (name email message : string) (phone : Contact.Field) :
  phone = Contact.Undefined \/ (exists p, phone = Contact.Text p) ->
  exists mail,
    Contact.compose env (Contact.Text name) (Contact.Text email) phone
      (Contact.Text message) = Some mail.
Proof.
  intros [->|[p ->]]; unfold Contact.compose; simpl; [eauto|].
  destruct (negb (Js.isEmpty p)); simpl; eauto.
Qed.

Lemma compose_to (name email phone message : Contact.Field) (mail : Contact.Email) :
  Contact.compose env name email phone message = Some mail ->
  Contact.to mail = "sampidia0@gmail.com".
Proof.
  unfold Contact.compose.
  destruct (Contact.toText name), (Contact.toText email), (Contact.toText message);
    try discriminate.
  destruct (if Contact.truthy phone then _ else _); [|discriminate].
  intros [= <-]. reflexivity.
Qed.

Lemma emailRegex_empty : Regex.test Contact.emailRegex EmptyString = false.
Proof. reflexivity. Qed.

(** The one path on which a message is handed to [sendEmail]. *)
Lemma POST_sends (name email phone message : Contact.Field) (address : string)
    (mail : Contact.Email) :
  Contact.truthy name = true -> Contact.truthy email = true ->
  Contact.truthy message = true ->
  Contact.toText email = Some address ->
  Regex.test Contact.emailRegex address = true ->
  Contact.compose env name email phone message = Some mail ->
  Contact.POST env (Contact.BodyOf name email phone message)
  = ([mail],
     match Contact.sendEmail env mail with
     | Resolves true => Contact.sent
     | Resolves false => Contact.notSent
     | Rejects _ => Contact.serverError
     end).
Proof.
  intros Hn He Hm Ht Hr Hc. unfold Contact.POST.
  rewrite Hn, He, Hm, Ht, Hr, Hc. simpl.
  destruct (Contact.sendEmail env mail) as [[|]|]; reflexivity.
Qed.

Lemma POST_sends_inv (body : Contact.Body) :
  fst (Contact.POST env body) <> [] ->
  exists name email phone message address mail,
    body = Contact.BodyOf name email phone message
    /\ Contact.truthy name = true /\ Contact.truthy email = true
    /\ Contact.truthy message = true
    /\ Contact.toText email = Some address
    /\ Regex.test Contact.emailRegex address = true
    /\ Contact.compose env name email phone message = Some mail.
Proof.
  destruct body as [e| |name email phone message]; simpl; [congruence..|].
  destruct (Contact.truthy name) eqn:Hn; simpl; [|congruence].
  destruct (Contact.truthy email) eqn:He; simpl; [|congruence].
  destruct (Contact.truthy message) eqn:Hm; simpl; [|congruence].
  destruct (Contact.toText email) as [address|] eqn:Ht; simpl; [|congruence].
  destruct (Regex.test Contact.emailRegex address) eqn:Hr; simpl; [|congruence].
  destruct (Contact.compose env name email phone message) as [mail|] eqn:Hc;
    simpl; [|congruence].
  intros _. exists name, email, phone, message, address, mail. auto 10.
Qed.

Lemma POST_quiet (body : Contact.Body) :
  fst (Contact.POST env body) = [] ->
  Contact.status (snd (Contact.POST env body)) = 400
  \/ Contact.status (snd (Contact.POST env body)) = 500.
Proof.
  destruct body as [e| |name email phone message]; simpl; auto.
  destruct (negb (Contact.truthy name) || negb (Contact.truthy email)
            || negb (Contact.truthy message)); simpl; auto.
  destruct (Contact.toText email) as [address|]; simpl; auto.
  destruct (negb (Regex.test Contact.emailRegex address)); simpl; auto.
  destruct (Contact.compose env name email phone message) as [mail|]; simpl; auto.
  destruct (Contact.sendEmail env mail) as [[|]|]; simpl; discriminate.
Qed.

End ContactForm.

(** X21.  When the contact form sends a message.  A message is handed to
    [sendEmail] exactly when the body carries truthy [name], [email] and
    [message], the email (as a string) matches the address pattern, and
    no property fails to convert to a string; then it is one message,
    addressed to the fixed recipient.  The answer is 200 exactly when
    that message was handed over and [sendEmail] resolved to a truthy
    value; a 400 answer never sends; no other status than 200, 400 and
    500 occurs.  For a body whose properties have the declared types, a
    message is sent exactly when name and message are non-empty and the
    email matches the pattern. *)
Theorem contact_sends_only_valid_messages (env : Contact.Env) (body : Contact.Body) :
  let mails := fst (Contact.POST env body) in
  let r := snd (Contact.POST env body) in
  (mails <> [] <->
   exists name email phone message address mail,
     body = Contact.BodyOf name email phone message
     /\ Contact.truthy name = true /\ Contact.truthy email = true
     /\ Contact.truthy message = true
     /\ Contact.toText email = Some address
     /\ Regex.test Contact.emailRegex address = true
     /\ Contact.compose env name email phone message = Some mail
     /\ mails = [mail])
  /\ (Contact.status r = 200 <->
      exists mail, mails = [mail] /\ Contact.sendEmail env mail = Resolves true)
  /\ (Contact.status r = 400 -> mails = [])
  /\ (Contact.status r = 200 \/ Contact.status r = 400 \/ Contact.status r = 500)
  /\ (forall mail, mail ∈ mails -> Contact.to mail = "sampidia0@gmail.com")
  /\ (wellTyped body ->
      (mails <> [] <->
       exists name email phone message,
         body = Contact.BodyOf (Contact.Text name) (Contact.Text email) phone
                  (Contact.Text message)
         /\ name <> EmptyString /\ message <> EmptyString
         /\ Regex.test Contact.emailRegex email = true)).
Proof.
  cbv zeta.
  assert (Hsent : fst (Contact.POST env body) <> [] ->
            exists name email phone message address mail,
              body = Contact.BodyOf name email phone message
              /\ Contact.truthy name = true /\ Contact.truthy email = true
              /\ Contact.truthy message = true
              /\ Contact.toText email = Some address
              /\ Regex.test Contact.emailRegex address = true
              /\ Contact.compose env name email phone message = Some mail
              /\ Contact.POST env body
                 = ([mail],
                    match Contact.sendEmail env mail with
                    | Resolves true => Contact.sent
                    | Resolves false => Contact.notSent
                    | Rejects _ => Contact.serverError
                    end)).
  { intros H.
    destruct (POST_sends_inv env body H)
      as (name & email & phone & message & address & mail
          & -> & Hn & He & Hm & Ht & Hr & Hc).
    exists name, email, phone, message, address, mail.
    rewrite (POST_sends env name email phone message address mail) by assumption.
    auto 10. }
  assert (Hdec : fst (Contact.POST env body) = [] \/ fst (Contact.POST env body) <> [])
    by (destruct (fst (Contact.POST env body)); [left; reflexivity|right; discriminate]).
  destruct Hdec as [Hnil|Hcons].
  - pose proof (POST_quiet env body Hnil) as Hstatus. rewrite Hnil.
    split; [split; [congruence|intros (? & ? & ? & ? & ? & ? & H); intuition discriminate]|].
    split; [split; [intros H; rewrite H in Hstatus; destruct Hstatus; discriminate
                   |intros (? & ? & _); discriminate]|].
    split; [reflexivity|]. split; [tauto|].
    split; [intros mail Hin; inversion Hin|].
    intros Htyped. split; [congruence|].
    intros (name & email & phone & message & -> & Hname & Hmessage & Hr).
    exfalso.
    destruct (compose_text env name email message phone) as [mail Hc].
    { destruct phone; simpl in Htyped; try contradiction; eauto. }
    assert (Hemail : email <> EmptyString).
    { intros ->. discriminate Hr. }
    rewrite (POST_sends env _ _ _ _ email mail) in Hnil;
      [discriminate| | | |reflexivity|exact Hr|exact Hc].
    + destruct name; [congruence|reflexivity].
    + destruct email; [congruence|reflexivity].
    + destruct message; [congruence|reflexivity].
  - destruct (Hsent Hcons)
      as (name & email & phone & message & address & mail
          & -> & Hn & He & Hm & Ht & Hr & Hc & Hrun).
    rewrite Hrun. simpl.
    split; [split; [intros _; exists name, email, phone, message, address, mail; auto 10
                   |discriminate]|].
    split.
    { destruct (Contact.sendEmail env mail) as [[|]|] eqn:Hs; simpl; split;
        try discriminate; eauto;
        intros (mail' & [= <-] & Hs'); congruence. }
    split.
    { destruct (Contact.sendEmail env mail) as [[|]|]; simpl; discriminate. }
    split.
    { destruct (Contact.sendEmail env mail) as [[|]|]; simpl; auto. }
    split.
    { intros mail' Hin. apply list_elem_of_singleton in Hin as ->.
      apply (compose_to env name email phone message). exact Hc. }
    intros Htyped. split; [|discriminate]. intros _.
    destruct name as [| |name|]; try contradiction.
    destruct email as [| |email|]; try contradiction.
    destruct message as [| |message|];
      try (destruct phone; contradiction).
    exists name, email, phone, message. simpl in *. injection Ht as <-.
    split; [reflexivity|].
    split; [destruct name; [discriminate|discriminate]|].
    split; [destruct message; [discriminate|discriminate]|exact Hr].
Qed.

Lemma contact_sends_only_valid_messages_witness :
  fst (Contact.POST (Contact.mkEnv (fun _ => Resolves true) "1/1/2025" "1/1/2025")
         (Contact.BodyOf (Contact.Text "Ada") (Contact.Text "ada@example.org")
            Contact.Undefined (Contact.Text "Hello"))) <> [].
Proof.
  destruct (contact_sends_only_valid_messages
              (Contact.mkEnv (fun _ => Resolves true) "1/1/2025" "1/1/2025")
              (Contact.BodyOf (Contact.Text "Ada") (Contact.Text "ada@example.org")
                 Contact.Undefined (Contact.Text "Hello")))
    as (_ & _ & _ & _ & _ & H).
  apply (H I).
  exists "Ada", "ada@example.org", Contact.Undefined, "Hello".
  split; [reflexivity|]. split; [discriminate|]. split; [discriminate|].
  vm_compute. reflexivity.
Defined.

(** ** The helpers of the admin statistics *)

Section Doubles.

Lemma roundNearestEven_cases (n d : Z) :
  0 < d ->
  (Double.roundNearestEven n d = n / d /\ 2 * (n mod d) <= d)
  \/ (Double.roundNearestEven n d = n / d + 1 /\ d <= 2 * (n mod d)).
Proof.
  intros Hd. unfold Double.roundNearestEven. cbv zeta.
  destruct (Z.ltb_spec (2 * (n mod d)) d); [left; split; [reflexivity|lia]|].
  destruct (Z.ltb_spec d (2 * (n mod d))); [right; split; [reflexivity|lia]|].
  destruct (Z.even (n / d)); [left|right]; split; try reflexivity; lia.
Qed.

Lemma roundNearestEven_nonneg (n d : Z) :
  0 <= n -> 0 < d -> 0 <= Double.roundNearestEven n d.
Proof.
  intros Hn Hd. pose proof (Z.div_pos n d Hn Hd).
  destruct (roundNearestEven_cases n d Hd) as [[-> _]|[-> _]]; lia.
Qed.

(** Rounding the scaled quotient never reaches the next integer. *)
Lemma roundNearestEven_floor (a d P : Z) :
  0 <= a -> 0 < d -> 0 < P -> d < 2 * P ->
  Double.roundNearestEven (a * P) d / P = a / d.
Proof.
  intros Ha Hd HP HdP.
  pose proof (Z.div_mod a d ltac:(lia)) as Ea.
  pose proof (Z.mod_pos_bound a d Hd) as Hr.
  pose proof (Z.div_mod (a * P) d ltac:(lia)) as EN.
  pose proof (Z.mod_pos_bound (a * P) d Hd) as Hrem.
  pose proof (roundNearestEven_cases (a * P) d Hd) as Hcases.
  set (k := a / d) in *. set (r := a mod d) in *.
  set (q0 := (a * P) / d) in *. set (rem := (a * P) mod d) in *.
  assert (Hlow : k * P <= q0).
  { assert (d * (k * P) <= d * q0 + rem) by nia.
    assert (d * (k * P - q0) < d * 1) by nia.
    apply Z.mul_lt_mono_pos_l in H0; lia. }
  assert (Hup : q0 < (k + 1) * P).
  { assert (d * q0 < d * ((k + 1) * P)) by nia.
    apply Z.mul_lt_mono_pos_l in H; lia. }
  symmetry.
  destruct Hcases as [[-> _]|[-> Hhalf]].
  - apply (Z.div_unique _ _ _ (q0 - P * k)); lia.
  - assert (Hstrict : q0 + 1 < (k + 1) * P).
    { destruct (Z.eq_dec (q0 + 1) ((k + 1) * P)) as [E|]; [|lia]. exfalso.
      assert (rem = d - (d - r) * P) by nia.
      nia. }
    apply (Z.div_unique _ _ _ (q0 + 1 - P * k)); lia.
Qed.

Lemma binade_le (n d : Z) : Double.binade n d <= Z.log2 n - Z.log2 d.
Proof.
  unfold Double.binade. cbv zeta.
  destruct (_ <? _); lia.
Qed.

Lemma pow2_nonneg (k : Z) : 0 <= k -> Double.pow2 k = 2 ^ k.
Proof. intros H. unfold Double.pow2. rewrite Z.max_r by lia. reflexivity. Qed.

Lemma pow2_nonpos (k : Z) : k <= 0 -> Double.pow2 k = 1.
Proof. intros H. unfold Double.pow2. rewrite Z.max_l by lia. reflexivity. Qed.

Lemma pow2_pos (k : Z) : 0 < Double.pow2 k.
Proof. unfold Double.pow2. apply Z.pow_pos_nonneg; lia. Qed.

(** Below 2^53 the floor of the rounded quotient is the integer quotient. *)
Lemma floorOfQuotient_exact (n d : Z) :
  0 <= n < 2 ^ 53 -> 0 < d -> Double.floorOfQuotient n d = n / d.
Proof.
  intros Hn Hd. unfold Double.floorOfQuotient.
  destruct (Z.eqb_spec n 0) as [->|Hne]; [rewrite Z.div_0_l by lia; reflexivity|].
  cbv zeta. rewrite Z.abs_eq, Z.sgn_pos by lia.
  pose proof (binade_le n d) as He.
  assert (Hlog : Z.log2 n <= 52).
  { assert (Z.log2 n < 53) by (apply Z.log2_lt_pow2; lia). lia. }
  pose proof (Z.log2_nonneg d) as Hld.
  set (s := 52 - Double.binade n d) in *.
  assert (Hs : Z.log2 d <= s) by (unfold s; lia).
  rewrite (pow2_nonneg s), (pow2_nonpos (- s)) by lia.
  rewrite Z.mul_1_l, !Z.mul_1_r.
  assert (Hpow : 0 < 2 ^ s) by (apply Z.pow_pos_nonneg; lia).
  assert (Hlt : d < 2 * 2 ^ s).
  { destruct (Z.log2_spec d Hd) as [_ Hlt].
    assert (Hmono : 2 ^ Z.succ (Z.log2 d) <= 2 ^ Z.succ s)
      by (apply Z.pow_le_mono_r; lia).
    rewrite (Z.pow_succ_r 2 s) in Hmono by lia. lia. }
  apply roundNearestEven_floor; lia.
Qed.

Lemma floorOfQuotient_nonpos (n d : Z) :
  n <= 0 -> 0 < d -> Double.floorOfQuotient n d <= 0.
Proof.
  intros Hn Hd. unfold Double.floorOfQuotient.
  destruct (Z.eqb_spec n 0) as [->|Hne]; [lia|].
  cbv zeta. rewrite Z.sgn_neg by lia.
  set (s := 52 - _).
  pose proof (pow2_pos s) as Hp. pose proof (pow2_pos (- s)) as Hq.
  assert (Hm : 0 <= Double.roundNearestEven (Z.abs n * Double.pow2 s) (d * Double.pow2 (- s))).
  { apply roundNearestEven_nonneg; nia. }
  apply Z.div_le_upper_bound; [exact Hp|]. nia.
Qed.

Lemma ofInteger_small (z : Z) : Z.abs z < 2 ^ 53 -> Double.ofInteger z = z.
Proof.
  intros H. unfold Double.ofInteger.
  destruct (Z.ltb_spec (Z.abs z) (2 ^ 53)); [reflexivity|lia].
Qed.

Lemma ofInteger_nonpos (z : Z) : z <= 0 -> Double.ofInteger z <= 0.
Proof.
  intros H. unfold Double.ofInteger.
  destruct (Z.ltb_spec (Z.abs z) (2 ^ 53)) as [|Hbig]; [exact H|].
  cbv zeta.
  assert (Hz : z < 0) by (change (2 ^ 53) with 9007199254740992 in Hbig; lia).
  rewrite Z.sgn_neg by lia.
  set (ulp := 2 ^ _).
  assert (0 <= ulp) by (apply Z.pow_nonneg; lia).
  destruct (Z.eq_dec ulp 0) as [E|Hnz].
  - rewrite E. lia.
  - assert (0 <= Double.roundNearestEven (Z.abs z) ulp)
      by (apply roundNearestEven_nonneg; lia).
    nia.
Qed.

End Doubles.

Section TimeAgo.

Variables now date : Z.

Hypothesis small : now - date < 2 ^ 53.

Lemma diffInHours_future : now - date <= 0 -> Stats.diffInHours now date <= 0.
Proof.
  intros H. unfold Stats.diffInHours.
  apply floorOfQuotient_nonpos; [apply ofInteger_nonpos; exact H|lia].
Qed.

Lemma diffInHours_past :
  0 <= now - date -> Stats.diffInHours now date = (now - date) / 3600000.
Proof.
  intros H. unfold Stats.diffInHours.
  rewrite ofInteger_small by lia.
  apply floorOfQuotient_exact; lia.
Qed.

Lemma diffInHours_bounds :
  0 <= now - date ->
  3600000 * Stats.diffInHours now date <= now - date
  < 3600000 * Stats.diffInHours now date + 3600000.
Proof.
  intros H. rewrite diffInHours_past by exact H.
  pose proof (Z.div_mod (now - date) 3600000 ltac:(lia)) as Hdm.
  pose proof (Z.mod_pos_bound (now - date) 3600000 ltac:(lia)) as Hm.
  lia.
Qed.

Lemma diffInDays_eq :
  0 <= now - date ->
  Double.floorOfQuotient (Stats.diffInHours now date) 24 = (now - date) / 86400000.
Proof.
  intros H. pose proof (diffInHours_bounds H) as Hb.
  rewrite floorOfQuotient_exact by (change (2 ^ 53) with 9007199254740992 in *; lia).
  rewrite diffInHours_past, Z.div_div by lia. reflexivity.
Qed.

End TimeAgo.

(** X22.  The time label by the elapsed milliseconds.  The handler
    subtracts and divides in doubles; as long as the elapsed time is
    below 2^53 milliseconds (some 285 000 years) nothing is lost to
    rounding, and the label goes by the elapsed time: under one hour
    (also for a date in the future, however far) the label is
    [Just now]; from one hour to under two it is [1 hour ago]; from two
    hours to under a day it is the number of whole hours, between 2 and
    23, followed by [hours ago]; from one day on it is the number of
    whole days, at least 1, followed by [days ago] (so [1 days ago] on
    the second day). *)
Theorem time_ago_by_elapsed_time (now date : Z) :
  now - date < 2 ^ 53 ->
  (now - date < 3600000 -> Stats.getTimeAgo now date = "Just now")
  /\ (3600000 <= now - date < 7200000 -> Stats.getTimeAgo now date = "1 hour ago")
  /\ (7200000 <= now - date < 86400000 ->
      Stats.getTimeAgo now date = pretty ((now - date) / 3600000) +:+ " hours ago"
      /\ 2 <= (now - date) / 3600000 <= 23)
  /\ (86400000 <= now - date ->
      Stats.getTimeAgo now date = pretty ((now - date) / 86400000) +:+ " days ago"
      /\ 1 <= (now - date) / 86400000).
Proof.
  intros Hsmall.
  pose proof (diffInHours_future now date) as Hfuture.
  pose proof (diffInHours_bounds now date Hsmall) as Hb.
  pose proof (diffInDays_eq now date Hsmall) as Hd.
  pose proof (diffInHours_past now date Hsmall) as Hh.
  unfold Stats.getTimeAgo. cbv zeta.
  split; [|split; [|split]]; intros H.
  - destruct (Z.ltb_spec (Stats.diffInHours now date) 1); [reflexivity|].
    destruct (Z.le_gt_cases (now - date) 0); [specialize (Hfuture ltac:(lia)); lia|].
    specialize (Hb ltac:(lia)). lia.
  - specialize (Hb ltac:(lia)).
    destruct (Z.ltb_spec (Stats.diffInHours now date) 1); [lia|].
    destruct (Z.eqb_spec (Stats.diffInHours now date) 1); [reflexivity|lia].
  - specialize (Hb ltac:(lia)).
    destruct (Z.ltb_spec (Stats.diffInHours now date) 1); [lia|].
    destruct (Z.eqb_spec (Stats.diffInHours now date) 1); [lia|].
    destruct (Z.ltb_spec (Stats.diffInHours now date) 24); [|lia].
    rewrite <- Hh by lia. split; [reflexivity|lia].
  - specialize (Hb ltac:(lia)).
    destruct (Z.ltb_spec (Stats.diffInHours now date) 1); [lia|].
    destruct (Z.eqb_spec (Stats.diffInHours now date) 1); [lia|].
    destruct (Z.ltb_spec (Stats.diffInHours now date) 24); [lia|].
    rewrite Hd by lia. split; [reflexivity|].
    apply Z.div_le_lower_bound; lia.
Qed.

Lemma time_ago_by_elapsed_time_witness :
  Stats.getTimeAgo 1700100000000 1700000000000 = "1 days ago"
  /\ Stats.getTimeAgo 1700000000000 1700000500000 = "Just now".
Proof.
  split.
  - destruct (time_ago_by_elapsed_time 1700100000000 1700000000000 ltac:(reflexivity))
      as (_ & _ & _ & H).
    destruct (H ltac:(lia)) as [-> _]. vm_compute. reflexivity.
  - destruct (time_ago_by_elapsed_time 1700000000000 1700000500000 ltac:(reflexivity))
      as (H & _).
    apply H. lia.
Defined.

(** Beyond 2^53 milliseconds the difference of two dates is rounded, and
    the label can be one more than the whole days elapsed. *)
Example time_ago_beyond_exact_doubles :
  Stats.getTimeAgo 7730941147200000 (-7730941147199999) = "178956971 days ago"
  /\ (7730941147200000 - -7730941147199999) / 86400000 = 178956970.
Proof. split; vm_compute; reflexivity. Qed.

Section RecentActivity.

Context {A : Type} (key : A -> Z).

Lemma insertDescBy_perm (x : A) (l : list A) : Stats.insertDescBy key x l ≡ₚ x :: l.
Proof.
  induction l as [|y r IH]; simpl; [reflexivity|].
  destruct (key y <=? key x); [reflexivity|].
  rewrite IH. apply Permutation_swap.
Qed.

Lemma sortDescBy_perm (l : list A) : Stats.sortDescBy key l ≡ₚ l.
Proof.
  unfold Stats.sortDescBy. induction l as [|y r IH]; simpl; [reflexivity|].
  rewrite insertDescBy_perm, IH. reflexivity.
Qed.

Lemma insertDescBy_sorted (x : A) (l : list A) :
  StronglySorted (keyDesc key) l ->
  StronglySorted (keyDesc key) (Stats.insertDescBy key x l).
Proof.
  induction l as [|y r IH]; simpl; intros Hs.
  - repeat constructor.
  - apply StronglySorted_cons in Hs as [Hy Hr].
    destruct (Z.leb_spec (key y) (key x)) as [Hle|Hgt].
    + apply StronglySorted_cons. split; [|apply StronglySorted_cons; auto].
      apply Forall_cons. split; [exact Hle|].
      eapply Forall_impl; [exact Hy|]. unfold keyDesc. intros; lia.
    + apply StronglySorted_cons. split; [|auto].
      apply Forall_forall. intros a Ha.
      rewrite insertDescBy_perm in Ha. apply elem_of_cons in Ha as [->|Ha].
      * unfold keyDesc. lia.
      * rewrite Forall_forall in Hy. auto.
Qed.

Lemma sortDescBy_sorted (l : list A) :
  StronglySorted (keyDesc key) (Stats.sortDescBy key l).
Proof.
  unfold Stats.sortDescBy. induction l as [|y r IH]; simpl.
  - constructor.
  - apply insertDescBy_sorted, IH.
Qed.

Lemma length_sortDescBy (l : list A) : length (Stats.sortDescBy key l) = length l.
Proof. apply Permutation_length, sortDescBy_perm. Qed.

Lemma elem_of_newest (n : nat) (l : list A) (a : A) :
  a ∈ take n (Stats.sortDescBy key l) -> a ∈ l.
Proof.
  intros H. apply (sublist_subseteq _ _ (sublist_take _ _)) in H.
  rewrite sortDescBy_perm in H. exact H.
Qed.

Lemma length_newest (n : nat) (l : list A) :
  length (take n (Stats.sortDescBy key l)) = Nat.min n (length l).
Proof. rewrite length_take, length_sortDescBy. reflexivity. Qed.

End RecentActivity.

Section RecentActivityMore.

Variables (subs : list Stats.Subscription) (ais : list Stats.AiUsage).

Lemma recentActivities_eq :
  Stats.recentActivities subs ais
  = take 5 (Stats.sortDescBy Stats.timestamp (candidateActivities subs ais)).
Proof. reflexivity. Qed.

Lemma length_candidates :
  length (candidateActivities subs ais)
  = (Nat.min 3 (length subs) + Nat.min 3 (length ais))%nat.
Proof.
  unfold candidateActivities.
  rewrite length_app, !length_map, !length_newest. reflexivity.
Qed.

Lemma candidates_split :
  exists dropped,
    candidateActivities subs ais ≡ₚ Stats.recentActivities subs ais ++ dropped
    /\ (length dropped <= 1)%nat
    /\ (forall a b, a ∈ Stats.recentActivities subs ais -> b ∈ dropped ->
                    Stats.timestamp b <= Stats.timestamp a).
Proof.
  exists (drop 5 (Stats.sortDescBy Stats.timestamp (candidateActivities subs ais))).
  rewrite recentActivities_eq. split; [|split].
  - rewrite take_drop, sortDescBy_perm. reflexivity.
  - rewrite length_drop, length_sortDescBy, length_candidates. lia.
  - intros a b Ha Hb.
    pose proof (sortDescBy_sorted Stats.timestamp (candidateActivities subs ais)) as Hs.
    rewrite <- (take_drop 5) in Hs.
    apply (StronglySorted_app_1_elem_of _ _ _ a b Hs Ha Hb).
Qed.

Lemma activities_of_type (t : string) :
  (length (filter (fun a => Stats.type a = t) (Stats.recentActivities subs ais))
   <= length (filter (fun a => Stats.type a = t) (candidateActivities subs ais)))%nat.
Proof.
  destruct candidates_split as (dropped & Hperm & _).
  rewrite Hperm, filter_app, length_app. lia.
Qed.

Lemma filter_other_type {B} (f : B -> Stats.Activity) (t : string) (l : list B) :
  (forall b, Stats.type (f b) <> t) ->
  filter (fun a => Stats.type a = t) (map f l) = [].
Proof.
  intros H. induction l as [|b l IH]; simpl; [reflexivity|].
  rewrite filter_cons. destruct (decide (Stats.type (f b) = t)) as [E|_]; [|exact IH].
  destruct (H b E).
Qed.

Lemma subscriptions_shown :
  (length (filter (fun a => Stats.type a = "subscription")
             (Stats.recentActivities subs ais)) <= 3)%nat.
Proof.
  etransitivity; [apply activities_of_type|].
  unfold candidateActivities. rewrite filter_app, length_app.
  rewrite (filter_other_type Stats.ofAiUsage) by (intros b; discriminate).
  pose proof (length_filter (fun a => Stats.type a = "subscription")
                (map Stats.ofSubscription
                   (take 3 (Stats.sortDescBy Stats.subCreatedAt subs)))) as Hl.
  rewrite length_map, length_newest in Hl. simpl. lia.
Qed.

Lemma aiUsage_shown :
  (length (filter (fun a => Stats.type a = "ai_usage")
             (Stats.recentActivities subs ais)) <= 3)%nat.
Proof.
  etransitivity; [apply activities_of_type|].
  unfold candidateActivities. rewrite filter_app, length_app.
  rewrite (filter_other_type Stats.ofSubscription) by (intros b; discriminate).
  pose proof (length_filter (fun a => Stats.type a = "ai_usage")
                (map Stats.ofAiUsage
                   (take 3 (Stats.sortDescBy Stats.aiCreatedAt ais)))) as Hl.
  rewrite length_map, length_newest in Hl. simpl. lia.
Qed.

Lemma activity_imap (g : nat -> Stats.Activity -> string) (l : list Stats.Activity) :
  map Stats.activity (imap (fun i a => Stats.mkEntry a (g i a)) l) = l.
Proof.
  revert g. induction l as [|a l IH]; intros g; [reflexivity|].
  rewrite imap_cons. simpl. f_equal. exact (IH (fun i => g (S i))).
Qed.

Lemma activities_of_entries (clock : nat -> Z) :
  map Stats.activity (Stats.getRecentActivity (Resolves subs) (Resolves ais) clock)
  = Stats.recentActivities subs ais.
Proof.
  unfold Stats.getRecentActivity.
  apply (activity_imap (fun i a => Stats.getTimeAgo (clock i) (Stats.timestamp a))).
Qed.

Lemma elem_of_candidates (a : Stats.Activity) :
  a ∈ candidateActivities subs ais ->
  (exists sub, sub ∈ subs /\ a = Stats.ofSubscription sub)
  \/ (exists ai, ai ∈ ais /\ a = Stats.ofAiUsage ai).
Proof.
  unfold candidateActivities. intros H. apply elem_of_app in H as [H|H];
    apply list_elem_of_fmap in H as (x & -> & Hx); apply elem_of_newest in Hx; eauto.
Qed.

End RecentActivityMore.

(** X23.  What the recent-activity list shows.  When both queries
    resolve, the list holds [min 5 (min 3 s + min 3 a)] entries for [s]
    subscriptions and [a] AI records, newest first, each made from a
    stored subscription or AI record.  At most three entries are
    subscriptions and at most three are AI requests, however recent the
    others are.  Of the up to six activities that enter the final sort at
    most one is dropped, and it is no newer than any entry shown.  When
    one of the queries rejects the list is empty. *)
Theorem recent_activity_shape (subs : list Stats.Subscription)
    (ais : list Stats.AiUsage) (clock : nat -> Z) :
  let entries := Stats.getRecentActivity (Resolves subs) (Resolves ais) clock in
  let shown := map Stats.activity entries in
  length entries = Nat.min 5 (Nat.min 3 (length subs) + Nat.min 3 (length ais))
  /\ StronglySorted (keyDesc Stats.timestamp) shown
  /\ Forall (fun a => (exists sub, sub ∈ subs /\ a = Stats.ofSubscription sub)
                      \/ (exists ai, ai ∈ ais /\ a = Stats.ofAiUsage ai)) shown
  /\ (length (filter (fun a => Stats.type a = "subscription") shown) <= 3)%nat
  /\ (length (filter (fun a => Stats.type a = "ai_usage") shown) <= 3)%nat
  /\ (exists dropped,
        candidateActivities subs ais ≡ₚ shown ++ dropped
        /\ (length dropped <= 1)%nat
        /\ Forall (fun b => Forall (fun a => Stats.timestamp b <= Stats.timestamp a) shown)
                  dropped)
  /\ (forall e, Stats.getRecentActivity (Rejects e) (Resolves ais) clock = []
                /\ Stats.getRecentActivity (Resolves subs) (Rejects e) clock = []).
Proof.
  cbv zeta. rewrite activities_of_entries.
  split; [|split; [|split; [|split; [|split; [|split]]]]].
  - rewrite <- (length_map Stats.activity), activities_of_entries.
    rewrite recentActivities_eq, length_newest, length_candidates. reflexivity.
  - rewrite recentActivities_eq.
    pose proof (sortDescBy_sorted Stats.timestamp (candidateActivities subs ais)) as Hs.
    rewrite <- (take_drop 5) in Hs. apply StronglySorted_app_1_l in Hs. exact Hs.
  - apply Forall_forall. intros a Ha. apply elem_of_candidates.
    rewrite recentActivities_eq in Ha. apply elem_of_newest in Ha. exact Ha.
  - apply subscriptions_shown.
  - apply aiUsage_shown.
  - destruct (candidates_split subs ais) as (dropped & Hperm & Hlen & Hle).
    exists dropped. split; [exact Hperm|]. split; [exact Hlen|].
    apply Forall_forall. intros b Hb. apply Forall_forall. intros a Ha. auto.
  - intros e. split; reflexivity.
Qed.

Section PlanDistribution.

Lemma planDistribution_snoc (stats : list (option string * Z)) (stat : option string * Z) :
  Stats.getPlanDistribution (Resolves (stats ++ [stat]))
  = Stats.setProperty (Stats.planNameOf stat) (snd stat)
      (Stats.getPlanDistribution (Resolves stats)).
Proof. unfold Stats.getPlanDistribution. rewrite fold_left_app. reflexivity. Qed.

Lemma planDistribution_lookup (stats : list (option string * Z)) (name : string) :
  Stats.getPlanDistribution (Resolves stats) !! name
  = if String.eqb name "__proto__" then None
    else snd <$> last (rowsNamed name stats).
Proof.
  induction stats as [|stat stats IH] using rev_ind.
  - simpl. rewrite lookup_empty. destruct (String.eqb name "__proto__"); reflexivity.
  - rewrite planDistribution_snoc. unfold rowsNamed in *. rewrite filter_app.
    unfold Stats.setProperty.
    destruct (String.eqb_spec (Stats.planNameOf stat) "__proto__") as [Hp|Hp].
    + rewrite IH. destruct (String.eqb_spec name "__proto__") as [Hn|Hn]; [reflexivity|].
      rewrite filter_cons, decide_False by congruence.
      rewrite filter_nil, app_nil_r. reflexivity.
    + destruct (decide (Stats.planNameOf stat = name)) as [<-|Hne].
      * rewrite lookup_insert_eq.
        destruct (String.eqb_spec (Stats.planNameOf stat) "__proto__"); [contradiction|].
        rewrite filter_cons, decide_True by reflexivity.
        rewrite filter_nil, last_snoc. reflexivity.
      * rewrite lookup_insert_ne by exact Hne. rewrite IH.
        rewrite filter_cons, decide_False by exact Hne.
        rewrite filter_nil, app_nil_r. reflexivity.
Qed.

Lemma rowsNamed_plain (name : string) (stats : list (option string * Z)) :
  name <> "free" -> name <> EmptyString ->
  rowsNamed name stats = filter (fun stat => fst stat = Some name) stats.
Proof.
  intros Hfree Hne. unfold rowsNamed. apply list_filter_iff. intros [[plan|] count];
    unfold Stats.planNameOf; simpl.
  - destruct plan as [|c plan]; simpl; split; intros H; try congruence.
  - split; intros H; congruence.
Qed.

Lemma filter_absent {B} `{EqDecision B} (l : list (B * Z)) (k : B) :
  k ∉ map fst l -> filter (fun stat => fst stat = k) l = [].
Proof.
  induction l as [|[k' c'] l IH]; intros H; [reflexivity|].
  simpl in H. apply not_elem_of_cons in H as [Hne Hl].
  rewrite filter_cons. simpl. rewrite decide_False by congruence. auto.
Qed.

Lemma elem_of_keys {B} (l : list (B * Z)) (k : B) (count : Z) :
  (k, count) ∈ l -> k ∈ map fst l.
Proof. intros H. apply (list_elem_of_fmap_2 fst) in H. exact H. Qed.

Lemma filter_unique {B} `{EqDecision B} (l : list (B * Z)) (k : B) (count : Z) :
  NoDup (map fst l) -> (k, count) ∈ l ->
  filter (fun stat => fst stat = k) l = [(k, count)].
Proof.
  induction l as [|[k' c'] l IH]; intros Hnd Hin; [inversion Hin|].
  simpl in Hnd. apply NoDup_cons in Hnd as [Hfresh Hnd].
  rewrite filter_cons. simpl.
  destruct (decide (k' = k)) as [->|Hne].
  - apply elem_of_cons in Hin as [[= <-]|Hin].
    + rewrite filter_absent by exact Hfresh. reflexivity.
    + destruct Hfresh. apply (elem_of_keys _ _ count). exact Hin.
  - apply elem_of_cons in Hin as [[= ? ?]|Hin]; [congruence|]. auto.
Qed.

End PlanDistribution.

(** X24.  What the plan distribution reports.  A user group is reported
    under its plan id, or under [free] when it has none or an empty
    one.  When several groups get the same name the last one
    overwrites the others, so each reported count is that of the last
    group of that name; the name [__proto__] is never reported.  When
    the groups have distinct plan ids, every plan id other than [free],
    the empty one and [__proto__] is reported with exactly its own
    count. *)
Theorem plan_distribution_last_group_wins (stats : list (option string * Z)) :
  (forall name, name <> "__proto__" ->
     Stats.getPlanDistribution (Resolves stats) !! name
     = snd <$> last (rowsNamed name stats))
  /\ Stats.getPlanDistribution (Resolves stats) !! "__proto__" = None
  /\ (NoDup (map fst stats) ->
      forall name count,
        name <> "free" -> name <> EmptyString -> name <> "__proto__" ->
        (Stats.getPlanDistribution (Resolves stats) !! name = Some count
         <-> (Some name, count) ∈ stats)).
Proof.
  split; [|split].
  - intros name Hname. rewrite planDistribution_lookup.
    destruct (String.eqb_spec name "__proto__"); [contradiction|reflexivity].
  - rewrite planDistribution_lookup. reflexivity.
  - intros Hnd name count Hfree Hne Hproto. rewrite planDistribution_lookup.
    destruct (String.eqb_spec name "__proto__"); [contradiction|].
    rewrite rowsNamed_plain by assumption. split.
    + intros H. destruct (last _) as [[plan c]|] eqn:Hlast; [|discriminate].
      injection H as ->.
      apply last_Some in Hlast as [l' Hl'].
      assert (Hin : (plan, count) ∈ filter (fun stat => fst stat = Some name) stats).
      { rewrite Hl'. apply elem_of_app. right. apply list_elem_of_singleton. reflexivity. }
      apply list_elem_of_filter in Hin as [Hplan Hin]. simpl in Hplan. subst plan.
      exact Hin.
    + intros Hin. rewrite (filter_unique stats (Some name) count) by assumption.
      reflexivity.
Qed.

Lemma plan_distribution_last_group_wins_witness :
  let stats := [(Some "free", 7); (Some "basic", 3); (None, 0)] in
  Stats.getPlanDistribution (Resolves stats) !! "basic" = Some 3
  /\ Stats.getPlanDistribution (Resolves stats) !! "free" = Some 0.
Proof.
  cbv zeta.
  destruct (plan_distribution_last_group_wins
              [(Some "free", 7); (Some "basic", 3); (None, 0)]) as (Hlast & _ & Hown).
  split.
  - apply Hown; try discriminate.
    + apply (bool_decide_unpack _). vm_compute. exact I.
    + apply list_elem_of_further, list_elem_of_here.
  - rewrite Hlast by discriminate. reflexivity.
Defined.
